(** * Content-fetch caching and fallback layer of the Spark blog front end

    A shallow embedding of

      - [lib/cache.ts]           ([MemoryCache], [generateCacheKey]),
      - [lib/errors.ts]          ([APIError], [withErrorBoundary],
                                  [retryWithBackoff]),
      - [lib/content-manager.ts] ([ContentManager]),
      - [lib/strapi.ts]          ([getPublishedArticles],
                                  [getArticleBySlug],
                                  [getArticlesByCategory],
                                  [getAllCategories]),
      - [utils/strapi-content-utils.ts] ([getSortedPosts],
                                  [getPostBySlug]),
      - [utils/hybrid-content-utils.ts] ([getSortedPosts],
                                  [getAllPostSlugs], [getTagList])

    together with the properties the specification states about them and
    further properties of the code.

    Asynchronous TypeScript code is read as state passing over a [World]:
    the process-wide cache instance, the wall clock read by [Date.now()],
    and an append-only trace of the observable events (console output,
    timers, invocations of scripted callbacks).  A promise that rejects is
    a computation that returns [Throw e]. *)

From Stdlib Require Import ZArith List String Ascii Bool Lia Arith.
From Stdlib Require Import DecimalString.
From Stdlib Require Permutation Sorted.
Import ListNotations.

Local Open Scope string_scope.
Local Open Scope Z_scope.

(* ================================================================== *)
(** * Thrown values and the error taxonomy ([lib/errors.ts])           *)
(* ================================================================== *)

(** What a [catch] clause can receive.  The three classes of
    [lib/errors.ts] are kept apart; [TypeError] is what the runtime
    raises on a property access on [undefined]; [OtherError] stands for
    any other [Error]; [ThrownUndefined] is the value of an unassigned
    [let lastError]. *)
Inductive Thrown : Type :=
| APIError (message : string) (status : Z) (endpoint : option string)
| ContentNotFoundError (slug : string)
| NetworkError (message : string)
| TypeError (message : string)
| OtherError (message : string)
| ThrownUndefined.

(** [get isRetryable()]: [this.status >= 500 || this.status === 429]. *)
Definition isRetryable (status : Z) : bool :=
  (500 <=? status) || (status =? 429).

(** [get isClientError()]: [this.status >= 400 && this.status < 500]. *)
Definition isClientError (status : Z) : bool :=
  (400 <=? status) && (status <? 500).

(** [error.message]. *)
Definition message_of (e : Thrown) : string :=
  match e with
  | APIError m _ _ => m
  | ContentNotFoundError slug => "Content not found: " ++ slug
  | NetworkError m => m
  | TypeError m => m
  | OtherError m => m
  | ThrownUndefined => ""
  end.

(** [error instanceof APIError && error.isClientError]. *)
Definition isAPIClientError (e : Thrown) : bool :=
  match e with
  | APIError _ status _ => isClientError status
  | _ => false
  end.

(** [error instanceof APIError && error.status === 401]. *)
Definition isAuthError (e : Thrown) : bool :=
  match e with
  | APIError _ status _ => status =? 401
  | _ => false
  end.

(** The classification the specification uses: an upstream error is
    retryable when [isRetryable] says so; an error without an HTTP status
    (transport failure) is retryable. *)
Definition retryable (e : Thrown) : bool :=
  match e with
  | APIError _ status _ => isRetryable status
  | NetworkError _ => true
  | _ => false
  end.

(** A non-retryable client error: 4xx other than 429. *)
Definition nonRetryableClientError (e : Thrown) : bool :=
  match e with
  | APIError _ status _ => isClientError status && negb (isRetryable status)
  | _ => false
  end.

(** Outcome of awaiting a promise. *)
Inductive Result (A : Type) : Type :=
| Ok (a : A)
| Throw (e : Thrown).
Arguments Ok {A} a.
Arguments Throw {A} e.

(* ================================================================== *)
(** * Configuration ([config/api.ts])                                  *)
(* ================================================================== *)

(** The fields of the read-only [config] object that the modelled code
    consults. *)
Record Config : Type := mkConfig {
  enableCache : bool;        (* config.features.enableCache *)
  useStrapi : bool;          (* config.features.useStrapi *)
  useHybridMode : bool;      (* config.features.useHybridMode *)
  enableDebugLogs : bool;    (* config.development.enableDebugLogs *)
  cache_ttl : Z;             (* config.cache.ttl *)
  cache_maxSize : Z          (* config.cache.maxSize *)
}.

(* ================================================================== *)
(** * Observable events                                                *)
(* ================================================================== *)

Inductive Level : Type := LLog | LWarn | LError.

Inductive Event : Type :=
| Console (level : Level) (text : string) (arg : option Thrown)
    (* console.log / console.warn / console.error *)
| ConsoleObject (level : Level) (text : string)
                (fields : list (string * option string))
    (* the same with an object literal as second argument; [None] is a
       field that is [undefined] *)
| Timeout (delay : Z)
    (* await new Promise(resolve => setTimeout(resolve, delay)) *)
| Called (index : nat).
    (* the [index]-th invocation of a scripted callback *)

Definition Level_eqb (a b : Level) : bool :=
  match a, b with
  | LLog, LLog | LWarn, LWarn | LError, LError => true
  | _, _ => false
  end.

Definition level_of (e : Event) : option Level :=
  match e with
  | Console l _ _ => Some l
  | ConsoleObject l _ _ => Some l
  | _ => None
  end.

(** Template-literal rendering of an integer ([`${n}`]). *)
Definition show_Z (z : Z) : string := NilZero.string_of_int (Z.to_int z).

(** Template-literal rendering of a boolean. *)
Definition show_bool (b : bool) : string := if b then "true" else "false".

(** JavaScript truthiness of a string: only the empty string is falsy. *)
Definition truthy (s : string) : bool := negb (s =? "")%string.

(* ================================================================== *)
(** * [Map<string, V>]: a finite map that iterates in insertion order  *)
(* ================================================================== *)

Module JSMap.
Section JSMap.
Context {V : Type}.

Definition t : Type := list (string * V).

(** [map.get(key)] *)
Fixpoint get (key : string) (m : t) : option V :=
  match m with
  | [] => None
  | (k, v) :: m' => if (k =? key)%string then Some v else get key m'
  end.

(** [map.has(key)] *)
Definition has (key : string) (m : t) : bool :=
  match get key m with Some _ => true | None => false end.

(** [map.set(key, value)]: a key already present keeps its position, a
    new key goes last. *)
Fixpoint set (key : string) (v : V) (m : t) : t :=
  match m with
  | [] => [(key, v)]
  | (k, v0) :: m' =>
      if (k =? key)%string then (k, v) :: m' else (k, v0) :: set key v m'
  end.

(** [map.delete(key)]: the map without [key]. *)
Fixpoint delete (key : string) (m : t) : t :=
  match m with
  | [] => []
  | (k, v) :: m' =>
      if (k =? key)%string then m' else (k, v) :: delete key m'
  end.

(** [map.size] *)
Definition size (m : t) : Z := Z.of_nat (List.length m).

(** [map.keys()] *)
Definition keys (m : t) : list string := map fst m.

(** [map.keys().next().value]: the key inserted first, [undefined] on an
    empty map. *)
Definition first_key (m : t) : option string :=
  match m with
  | [] => None
  | (k, _) :: _ => Some k
  end.

End JSMap.
Arguments t V : clear implicits.
End JSMap.

(* ================================================================== *)
(** * The world: cache instance, clock, trace                          *)
(* ================================================================== *)

Section Runtime.
Context {Data : Type}.

(** [interface CacheEntry<T>] *)
Record CacheEntry : Type := mkEntry {
  data : Data;
  timestamp : Z;
  ttl : Z
}.

(** The fields of [class MemoryCache]. *)
Record MemoryCache : Type := mkCache {
  cache : JSMap.t CacheEntry;
  maxSize : Z;
  defaultTTL : Z
}.

(** [apiCache] is the process-wide instance; [clock] is what
    [Date.now()] returns; [calls] counts the invocations of scripted
    callbacks; [trace] lists the events in the order they happened. *)
Record World : Type := mkWorld {
  apiCache : MemoryCache;
  clock : Z;
  calls : nat;
  trace : list Event
}.

(** An [async] computation. *)
Definition M (A : Type) : Type := World -> Result A * World.

Definition ret {A} (a : A) : M A := fun w => (Ok a, w).

Definition throw {A} (e : Thrown) : M A := fun w => (Throw e, w).

Definition bind {A B} (c : M A) (k : A -> M B) : M B :=
  fun w =>
    match c w with
    | (Ok a, w') => k a w'
    | (Throw e, w') => (Throw e, w')
    end.

(** [try { c } catch (error) { handler error }] *)
Definition try_catch {A} (c : M A) (handler : Thrown -> M A) : M A :=
  fun w =>
    match c w with
    | (Ok a, w') => (Ok a, w')
    | (Throw e, w') => handler e w'
    end.

(** [Date.now()] *)
Definition Date_now : M Z := fun w => (Ok (clock w), w).

Definition emit (e : Event) : M unit :=
  fun w => (Ok tt, mkWorld (apiCache w) (clock w) (calls w) (trace w ++ [e])%list).

(** [await new Promise(resolve => setTimeout(resolve, delay))] with an
    ideal timer: the clock moves by exactly the delay (a negative delay
    fires at once). *)
Definition sleep (delay : Z) : M unit :=
  fun w => (Ok tt, mkWorld (apiCache w) (clock w + Z.max 0 delay) (calls w)
                           (trace w ++ [Timeout delay])%list).

(** Replace the entry map of the cache instance. *)
Definition with_cache (m : JSMap.t CacheEntry) (w : World) : World :=
  mkWorld (mkCache m (maxSize (apiCache w)) (defaultTTL (apiCache w)))
          (clock w) (calls w) (trace w).

Definition put_cache (m : JSMap.t CacheEntry) : M unit :=
  fun w => (Ok tt, with_cache m w).

Definition this_cache : M (JSMap.t CacheEntry) :=
  fun w => (Ok (cache (apiCache w)), w).

End Runtime.

Arguments CacheEntry Data : clear implicits.
Arguments MemoryCache Data : clear implicits.
Arguments World Data : clear implicits.
Arguments M Data A : clear implicits.

Declare Scope js_scope.
Delimit Scope js_scope with js.
Notation "x <- c ;; k" := (bind c (fun x => k))
  (at level 61, c at next level, right associativity) : js_scope.
Notation "c ;; k" := (bind c (fun _ => k))
  (at level 61, right associativity) : js_scope.
Local Open Scope js_scope.

(* ================================================================== *)
(** * [logger] ([config/api.ts])                                       *)
(* ================================================================== *)

Module logger.
Section logger.
Context {Data : Type}.

Definition info (cfg : Config) (message : string) : M Data unit :=
  if enableDebugLogs cfg then emit (Console LLog ("ℹ️ " ++ message) None)
  else ret tt.

(** [logger.info(message, object)] *)
Definition info_object (cfg : Config) (message : string)
  (fields : list (string * option string)) : M Data unit :=
  if enableDebugLogs cfg then emit (ConsoleObject LLog ("ℹ️ " ++ message) fields)
  else ret tt.

Definition warn (message : string) : M Data unit :=
  emit (Console LWarn ("⚠️ " ++ message) None).

Definition error (message : string) : M Data unit :=
  emit (Console LError ("❌ " ++ message) None).

Definition success (cfg : Config) (message : string) : M Data unit :=
  if enableDebugLogs cfg then emit (Console LLog ("✅ " ++ message) None)
  else ret tt.

End logger.
End logger.

(* ================================================================== *)
(** * [class MemoryCache] ([lib/cache.ts])                             *)
(* ================================================================== *)

(** [ttl || this.defaultTTL]: an absent or zero [ttl] selects the
    default. *)
Definition ttl_or_default (ttl_opt : option Z) (defaultTTL : Z) : Z :=
  match ttl_opt with
  | Some t => if t =? 0 then defaultTTL else t
  | None => defaultTTL
  end.

(** What [getStats()] returns. *)
Record Stats : Type := mkStats {
  totalEntries : Z;
  stats_maxSize : Z;
  validEntries : Z;
  expiredEntries : Z;
  oldestEntry : option string;
  newestEntry : option string
}.

Module MemoryCache.
Section MemoryCache.
Context {Data : Type}.

(** [new MemoryCache(maxSize = config.cache.maxSize,
                     defaultTTL = config.cache.ttl)] *)
Definition new (cfg : Config) (maxSize defaultTTL : option Z)
  : MemoryCache Data :=
  mkCache []
    (match maxSize with Some n => n | None => cache_maxSize cfg end)
    (match defaultTTL with Some t => t | None => cache_ttl cfg end).

Definition this : M Data (MemoryCache Data) := fun w => (Ok (apiCache w), w).

(** The body of [if (this.cache.size >= this.maxSize) { ... }] in [set]:
    the first key of the iteration order is deleted, provided it is
    truthy. *)
Definition evict_oldest (cfg : Config) : M Data unit :=
  m <- this_cache;;
  match JSMap.first_key m with
  | Some oldestKey =>
      if truthy oldestKey then
        put_cache (JSMap.delete oldestKey m);;
        logger.info cfg ("Evicted oldest cache entry: " ++ oldestKey)
      else ret tt
  | None => ret tt
  end.

(** [set<T>(key: string, data: T, ttl?: number): void] *)
Definition set (cfg : Config) (key : string) (d : Data) (ttl_opt : option Z)
  : M Data unit :=
  if negb (enableCache cfg) then ret tt
  else
    self <- this;;
    (if JSMap.size (cache self) >=? maxSize self then evict_oldest cfg
     else ret tt);;
    m <- this_cache;;
    now <- Date_now;;
    put_cache
      (JSMap.set key (mkEntry d now (ttl_or_default ttl_opt (defaultTTL self)))
                 m);;
    logger.info cfg ("Cached data for key: " ++ key).

(** [(now - cached.timestamp) < cached.ttl] *)
Definition fresh (now : Z) (c : CacheEntry Data) : bool :=
  now - timestamp c <? ttl c.

(** [async get<T>(key, fetcher, ttl?): Promise<T>] *)
Definition get (cfg : Config) (key : string) (fetcher : M Data Data)
  (ttl_opt : option Z) : M Data Data :=
  if negb (enableCache cfg) then fetcher
  else
    m <- this_cache;;
    let cached := JSMap.get key m in
    now <- Date_now;;
    let miss : M Data Data :=
      logger.info cfg ("Cache miss for key: " ++ key);;
      try_catch
        (d <- fetcher;;
         set cfg key d ttl_opt;;
         ret d)
        (fun error =>
           match cached with
           | Some c =>
               logger.warn ("Using stale cache data for key: " ++ key);;
               ret (data c)
           | None => throw error
           end)
    in
    match cached with
    | Some c =>
        if fresh now c then
          logger.info cfg ("Cache hit for key: " ++ key);;
          ret (data c)
        else miss
    | None => miss
    end.

(** [delete(key: string): boolean] *)
Definition delete (cfg : Config) (key : string) : M Data bool :=
  m <- this_cache;;
  let deleted := JSMap.has key m in
  put_cache (JSMap.delete key m);;
  (if deleted then logger.info cfg ("Deleted cache entry: " ++ key)
   else ret tt);;
  ret deleted.

(** [clear(): void] *)
Definition clear (cfg : Config) : M Data unit :=
  m <- this_cache;;
  let size := JSMap.size m in
  put_cache [];;
  logger.info cfg ("Cleared " ++ show_Z size ++ " cache entries").

(** One turn of the loop of [getStats]; [oldestTime = None] is
    [Infinity]. *)
Definition stats_step (now : Z)
  (acc : Stats * option Z * Z) (ke : string * CacheEntry Data)
  : Stats * option Z * Z :=
  let '(stats, oldestTime, newestTime) := acc in
  let '(key, entry) := ke in
  let age := now - timestamp entry in
  let stats1 :=
    if age <? ttl entry
    then mkStats (totalEntries stats) (stats_maxSize stats)
                 (validEntries stats + 1) (expiredEntries stats)
                 (oldestEntry stats) (newestEntry stats)
    else mkStats (totalEntries stats) (stats_maxSize stats)
                 (validEntries stats) (expiredEntries stats + 1)
                 (oldestEntry stats) (newestEntry stats) in
  let older :=
    match oldestTime with
    | None => true
    | Some t => timestamp entry <? t
    end in
  let '(stats2, oldestTime2) :=
    if older
    then (mkStats (totalEntries stats1) (stats_maxSize stats1)
                  (validEntries stats1) (expiredEntries stats1)
                  (Some key) (newestEntry stats1), Some (timestamp entry))
    else (stats1, oldestTime) in
  if newestTime <? timestamp entry
  then (mkStats (totalEntries stats2) (stats_maxSize stats2)
                (validEntries stats2) (expiredEntries stats2)
                (oldestEntry stats2) (Some key), oldestTime2, timestamp entry)
  else (stats2, oldestTime2, newestTime).

(** [getStats()] *)
Definition getStats : M Data Stats :=
  self <- this;;
  let entries := cache self in
  now <- Date_now;;
  let stats0 := mkStats (JSMap.size entries) (maxSize self) 0 0 None None in
  ret (fst (fst (fold_left (stats_step now) entries (stats0, None, 0)))).

(** One turn of the loop of [cleanup]. *)
Definition cleanup_step (now : Z)
  (acc : JSMap.t (CacheEntry Data) * Z) (ke : string * CacheEntry Data)
  : JSMap.t (CacheEntry Data) * Z :=
  let '(m, cleanedCount) := acc in
  let '(key, entry) := ke in
  if ttl entry <=? now - timestamp entry
  then (JSMap.delete key m, cleanedCount + 1)
  else (m, cleanedCount).

(** [cleanup(): number].  The iterator of a [Map] visits every entry
    present at the start once, also when the visited entry is deleted. *)
Definition cleanup (cfg : Config) : M Data Z :=
  now <- Date_now;;
  m <- this_cache;;
  let '(m', cleanedCount) := fold_left (cleanup_step now) m (m, 0) in
  put_cache m';;
  (if 0 <? cleanedCount
   then logger.info cfg
          ("Cleaned up " ++ show_Z cleanedCount ++ " expired cache entries")
   else ret tt);;
  ret cleanedCount.

End MemoryCache.
End MemoryCache.

(** One parameter of [generateCacheKey]: the name and the value as the
    template literal prints it. *)
Definition Params : Type := list (string * string).

(** Insertion into a list of keys sorted by code unit order
    ([Array.prototype.sort] without a comparator). *)
Fixpoint insert_sorted (k : string) (l : list string) : list string :=
  match l with
  | [] => [k]
  | x :: l' => if String.leb k x then k :: x :: l' else x :: insert_sorted k l'
  end.

Definition sort_keys (l : list string) : list string :=
  fold_right insert_sorted [] l.

(** [params[key]] on the object literal. *)
Fixpoint param (key : string) (params : Params) : string :=
  match params with
  | [] => "undefined"
  | (k, v) :: params' => if (k =? key)%string then v else param key params'
  end.

(** [Array.prototype.join(sep)] *)
Fixpoint join (sep : string) (l : list string) : string :=
  match l with
  | [] => ""
  | [x] => x
  | x :: l' => x ++ sep ++ join sep l'
  end.

(** [generateCacheKey(prefix, params = {})] *)
Definition generateCacheKey (prefix : string) (params : Params) : string :=
  let sortedParams :=
    join "&" (map (fun key => key ++ "=" ++ param key params)
                  (sort_keys (map fst params))) in
  if truthy sortedParams then prefix ++ ":" ++ sortedParams else prefix.

(* ================================================================== *)
(** * Error boundary and retry ([lib/errors.ts])                       *)
(* ================================================================== *)

Section Errors.
Context {Data : Type}.

(** [context || 'unknown context'] *)
Definition context_or_unknown (context : option string) : string :=
  match context with
  | Some c => if truthy c then c else "unknown context"
  | None => "unknown context"
  end.

(** [`${error.endpoint}`] *)
Definition show_endpoint (endpoint : option string) : string :=
  match endpoint with
  | Some ep => ep
  | None => "undefined"
  end.

(** The [catch] block of [withErrorBoundary], up to [return fallback]. *)
Definition report_error (context : option string) (error : Thrown)
  : M Data unit :=
  if isAuthError error then
    emit (Console LWarn
            ("🔐 Authentication failed in " ++ context_or_unknown context
               ++ ": " ++ message_of error) None);;
    emit (Console LWarn
            "💡 This is expected in development when Strapi is not running or API token is not configured"
            None)
  else
    emit (Console LError
            ("❌ Error in " ++ context_or_unknown context ++ ":")
            (Some error));;
    match error with
    | APIError _ status endpoint =>
        emit (Console LError
                ("API Error - Status: " ++ show_Z status ++ ", Endpoint: "
                   ++ show_endpoint endpoint) None)
    | _ => ret tt
    end.

(** [async function withErrorBoundary<T>(fn, fallback, context?)] *)
Definition withErrorBoundary {T} (fn : M Data T) (fallback : T)
  (context : option string) : M Data T :=
  try_catch fn
    (fun error =>
       report_error context error;;
       ret fallback).

(** [throw lastError!] *)
Definition throw_last {T} (lastError : option Thrown) : M Data T :=
  match lastError with
  | Some e => throw e
  | None => throw ThrownUndefined
  end.

(** The [for] loop of [retryWithBackoff], entered with the loop variable
    equal to [attempt]; [iterations] is the number of values of the loop
    variable from [attempt] up to [maxRetries]. *)
Fixpoint retry_loop {T} (fn : M Data T) (maxRetries baseDelay : Z)
  (iterations : nat) (attempt : Z) (lastError : option Thrown) : M Data T :=
  match iterations with
  | O => throw_last lastError
  | S iterations' =>
      try_catch fn
        (fun error =>
           if isAPIClientError error then throw error
           else if attempt =? maxRetries then throw error
           else
             let delay := baseDelay * 2 ^ attempt in
             emit (Console LWarn
                     ("Attempt " ++ show_Z (attempt + 1)
                        ++ " failed, retrying in " ++ show_Z delay ++ "ms...")
                     None);;
             sleep delay;;
             retry_loop fn maxRetries baseDelay iterations' (attempt + 1)
                        (Some error))
  end.

(** [async function retryWithBackoff<T>(fn, maxRetries = 3,
                                        baseDelay = 1000)] *)
Definition retryWithBackoff {T} (fn : M Data T) (maxRetries baseDelay : Z)
  : M Data T :=
  retry_loop fn maxRetries baseDelay (Z.to_nat (maxRetries + 1)) 0 None.

(** A scripted callback, the test double for a [fetcher] or an [fn]: its
    [i]-th invocation (counted over the whole run) settles with
    [fst (script i)] after [snd (script i)] milliseconds.  It touches
    nothing but the clock, the call counter and the trace. *)
Definition scripted {T} (script : nat -> Result T * Z) : M Data T :=
  fun w =>
    let '(r, elapsed) := script (calls w) in
    (r, mkWorld (apiCache w) (clock w + elapsed) (S (calls w))
                (trace w ++ [Called (calls w)])%list).

End Errors.

(* ================================================================== *)
(** * [class ContentManager] ([lib/content-manager.ts])                *)
(* ================================================================== *)

(** [interface PostData] of [types/content.ts], restricted to the fields
    the manager reads; [tags] and [category] are optional because the
    manager guards the access ([post.data.tags && ...]) and compares
    [category] with [===]. *)
Module PostData.
Record t : Type := mk {
  title : string;
  tags : option (list string);
  category : option string
}.
End PostData.

(** A [PostEntry] as [isPostEntry] of [types/content.ts] describes it
    ([id], [slug], [data]), with the optional [body] that [searchPosts]
    reads. *)
Record PostEntry : Type := mkPost {
  entry_id : string;
  entry_slug : string;
  body : option string;
  entry_data : PostData.t
}.

(** [interface StrapiArticle] of [lib/strapi.ts], restricted to the
    fields the code embedded here reads. *)
Record StrapiArticle : Type := mkArticle {
  article_id : Z;
  article_title : string;
  article_slug : string;
  metaTitle : option string;
  metaDescription : option string;
  keywords : option string
}.

(** The payloads kept in [apiCache]: what the content manager stores,
    and the [StrapiResponse<StrapiArticle[]>] that [lib/strapi.ts]
    stores, of which [articles] is the [data] array. *)
Inductive Value : Type :=
| VUndefined
| VNull
| VPost (post : PostEntry)
| VPosts (posts : list PostEntry)
| VResponse (articles : list StrapiArticle).

(** [interface ContentManagerOptions] *)
Record ContentManagerOptions : Type := mkOptions {
  opt_useCache : option bool;
  opt_cacheTTL : option Z;
  opt_enableFallback : option bool
}.

(** [Required<ContentManagerOptions>] *)
Record RequiredOptions : Type := mkRequired {
  useCache : bool;
  cacheTTL : Z;
  enableFallback : bool
}.

Record ContentManager : Type := mkManager {
  cm_useStrapi : bool;
  cm_useHybridMode : bool;
  options : RequiredOptions
}.

(** The two functions of [utils/strapi-content-utils] the manager calls.
    They are the upstream of the content manager and are left open: any
    computation that resolves or rejects. *)
Record StrapiUtils : Type := mkUtils {
  utils_getSortedPosts : M Value (list PostEntry);
  utils_getPostBySlug : string -> M Value (option PostEntry)
}.

(** A JavaScript number as [Math.ceil(total / pageSize)] can produce
    it. *)
Inductive JSNumber : Type :=
| Num (z : Z)
| Infinity
| NaN.

(** The object [getPaginatedPosts] resolves to. *)
Record Paginated : Type := mkPaginated {
  page_posts : list PostEntry;
  page_total : Z;
  page_totalPages : JSNumber;
  page_currentPage : Z
}.

(** [Math.ceil(total / pageSize)] on integers, [0 <= total]. *)
Definition ceil_div (total pageSize : Z) : JSNumber :=
  if pageSize =? 0 then (if total =? 0 then NaN else Infinity)
  else Num (- ((- total) / pageSize)).

(** [Array.prototype.slice(start, end)] with integer arguments. *)
Definition slice {A} (l : list A) (start end_ : Z) : list A :=
  let len := Z.of_nat (List.length l) in
  let k := if start <? 0 then Z.max (len + start) 0 else Z.min start len in
  let final := if end_ <? 0 then Z.max (len + end_) 0 else Z.min end_ len in
  firstn (Z.to_nat (Z.max (final - k) 0)) (skipn (Z.to_nat k) l).

(** [String.prototype.includes] *)
Fixpoint includes (s sub : string) : bool :=
  String.prefix sub s
  || match s with
     | EmptyString => false
     | String _ s' => includes s' sub
     end.

(** [Array.prototype.includes] on an array of strings. *)
Definition array_includes (l : list string) (x : string) : bool :=
  existsb (fun y => (y =? x)%string) l.

Module ContentManager.
Section ContentManager.

(** [String.prototype.toLowerCase] of the host. *)
Variable toLowerCase : string -> string.

Variable cfg : Config.
Variable strapiUtils : StrapiUtils.

(** [constructor(options: ContentManagerOptions = {})] *)
Definition new (opts : ContentManagerOptions) : ContentManager :=
  mkManager (useStrapi cfg) (useHybridMode cfg)
    (mkRequired
       (match opt_useCache opts with Some b => b | None => enableCache cfg end)
       (match opt_cacheTTL opts with Some t => t | None => cache_ttl cfg end)
       (match opt_enableFallback opts with Some b => b | None => true end)).

Variable self : ContentManager.

(** [private async fetchStrapiPosts()] *)
Definition fetchStrapiPosts : M Value (list PostEntry) :=
  withErrorBoundary
    (logger.info cfg "正在从Strapi获取文章列表...";;
     posts <- utils_getSortedPosts strapiUtils;;
     logger.success cfg
       ("从Strapi获取到 " ++ show_Z (Z.of_nat (List.length posts)) ++ " 篇文章");;
     ret posts)
    (if enableFallback (options self) then [] else [])
    (Some "fetchStrapiPosts").

(** [private async fetchStrapiPostBySlug(slug)]; the resolved value is
    the post, [null] when the upstream found none, or the fallback
    [undefined]. *)
Definition fetchStrapiPostBySlug (slug : string) : M Value Value :=
  withErrorBoundary
    (logger.info cfg ("正在从Strapi获取文章: " ++ slug);;
     post <- utils_getPostBySlug strapiUtils slug;;
     match post with
     | Some p =>
         logger.success cfg ("成功获取文章: " ++ PostData.title (entry_data p));;
         ret (VPost p)
     | None =>
         logger.warn ("未找到文章: " ++ slug);;
         ret VNull
     end)
    VUndefined
    (Some "fetchStrapiPostBySlug").

(** What [apiCache.get<PostEntry[]>] hands back is used as an array; the
    type parameter is not checked at run time, and a payload of another
    shape makes the array methods fail. *)
Definition as_posts (v : Value) : M Value (list PostEntry) :=
  match v with
  | VPosts posts => ret posts
  | VPost _ | VResponse _ => throw (TypeError "allPosts is not an array")
  | VNull => throw (TypeError "Cannot read properties of null")
  | VUndefined => throw (TypeError "Cannot read properties of undefined")
  end.

(** [private async getStrapiPostsWithFallback(cacheKey)] *)
Definition getStrapiPostsWithFallback (cacheKey : string)
  : M Value (list PostEntry) :=
  if negb (useCache (options self)) then fetchStrapiPosts
  else
    v <- MemoryCache.get cfg cacheKey
           (posts <- fetchStrapiPosts;; ret (VPosts posts))
           (Some (cacheTTL (options self)));;
    as_posts v.

(** [private async getStrapiPostBySlugWithFallback(slug, cacheKey)] *)
Definition getStrapiPostBySlugWithFallback (slug cacheKey : string)
  : M Value Value :=
  if negb (useCache (options self)) then fetchStrapiPostBySlug slug
  else
    MemoryCache.get cfg cacheKey (fetchStrapiPostBySlug slug)
      (Some (cacheTTL (options self))).

(** The cache key of [getSortedPosts]. *)
Definition sortedPostsKey : string :=
  generateCacheKey "sorted-posts"
    [("useStrapi", show_bool (cm_useStrapi self));
     ("useHybridMode", show_bool (cm_useHybridMode self))].

(** The cache key of [getPostBySlug]. *)
Definition postBySlugKey (slug : string) : string :=
  generateCacheKey "post-by-slug"
    [("slug", slug); ("useStrapi", show_bool (cm_useStrapi self))].

(** [async getSortedPosts()] *)
Definition getSortedPosts : M Value (list PostEntry) :=
  getStrapiPostsWithFallback sortedPostsKey.

(** [async getPostBySlug(slug)] *)
Definition getPostBySlug (slug : string) : M Value Value :=
  getStrapiPostBySlugWithFallback slug (postBySlugKey slug).

(** [async getPostCount()] *)
Definition getPostCount : M Value Z :=
  posts <- getSortedPosts;;
  ret (Z.of_nat (List.length posts)).

(** The object literal [getPaginatedPosts] builds from [allPosts]. *)
Definition paginate (page pageSize : Z) (allPosts : list PostEntry)
  : Paginated :=
  let total := Z.of_nat (List.length allPosts) in
  let totalPages := ceil_div total pageSize in
  let startIndex := (page - 1) * pageSize in
  let posts := slice allPosts startIndex (startIndex + pageSize) in
  mkPaginated posts total totalPages page.

(** [async getPaginatedPosts(page = 1, pageSize = 10)] *)
Definition getPaginatedPosts (page pageSize : Z) : M Value Paginated :=
  allPosts <- getSortedPosts;;
  ret (paginate page pageSize allPosts).

(** [post => post.data.tags && post.data.tags.includes(tag)] *)
Definition has_tag (tag : string) (post : PostEntry) : bool :=
  match PostData.tags (entry_data post) with
  | Some tags => array_includes tags tag
  | None => false
  end.

(** [async getPostsByTag(tag)] *)
Definition getPostsByTag (tag : string) : M Value (list PostEntry) :=
  allPosts <- getSortedPosts;;
  ret (filter (has_tag tag) allPosts).

(** [post => post.data.category === category] *)
Definition in_category (category : string) (post : PostEntry) : bool :=
  match PostData.category (entry_data post) with
  | Some c => (c =? category)%string
  | None => false
  end.

(** [async getPostsByCategory(category)] *)
Definition getPostsByCategory (category : string)
  : M Value (list PostEntry) :=
  allPosts <- getSortedPosts;;
  ret (filter (in_category category) allPosts).

(** The predicate of [searchPosts]. *)
Definition matches (searchTerm : string) (post : PostEntry) : bool :=
  let title := toLowerCase (PostData.title (entry_data post)) in
  let content :=
    match body post with
    | Some b => toLowerCase b
    | None => ""
    end in
  let tags :=
    match PostData.tags (entry_data post) with
    | Some ts => toLowerCase (join " " ts)
    | None => ""
    end in
  includes title searchTerm
  || includes content searchTerm
  || includes tags searchTerm.

(** [async searchPosts(query)] *)
Definition searchPosts (query : string) : M Value (list PostEntry) :=
  allPosts <- getSortedPosts;;
  let searchTerm := toLowerCase query in
  ret (filter (matches searchTerm) allPosts).

(** [clearCache()] *)
Definition clearCache : M Value unit :=
  MemoryCache.clear cfg;;
  logger.info cfg "内容管理器缓存已清空".

(** [getCacheStats()] *)
Definition getCacheStats : M Value Stats := MemoryCache.getStats.

End ContentManager.
End ContentManager.

(* ================================================================== *)
(** * Runs of cache operations                                         *)
(* ================================================================== *)

(** One call on the cache instance, or time passing between two calls.
    The fetcher of a [get] settles with [outcome] after [elapsed]
    milliseconds. *)
Inductive Op (Data : Type) : Type :=
| OpGet (key : string) (outcome : Result Data) (elapsed : Z)
        (ttl_opt : option Z)
| OpSet (key : string) (d : Data) (ttl_opt : option Z)
| OpDelete (key : string)
| OpClear
| OpCleanup
| OpGetStats
| OpWait (elapsed : Z).
Arguments OpGet {Data}.
Arguments OpSet {Data}.
Arguments OpDelete {Data}.
Arguments OpClear {Data}.
Arguments OpCleanup {Data}.
Arguments OpGetStats {Data}.
Arguments OpWait {Data}.

Section Runs.
Context {Data : Type}.

Definition wait (elapsed : Z) (w : World Data) : World Data :=
  mkWorld (apiCache w) (clock w + elapsed) (calls w) (trace w).

Definition run_op (cfg : Config) (op : Op Data) (w : World Data)
  : World Data :=
  match op with
  | OpGet key outcome elapsed ttl_opt =>
      snd (MemoryCache.get cfg key (scripted (fun _ => (outcome, elapsed)))
             ttl_opt w)
  | OpSet key d ttl_opt => snd (MemoryCache.set cfg key d ttl_opt w)
  | OpDelete key => snd (MemoryCache.delete cfg key w)
  | OpClear => snd (MemoryCache.clear cfg w)
  | OpCleanup => snd (MemoryCache.cleanup cfg w)
  | OpGetStats => snd (MemoryCache.getStats w)
  | OpWait elapsed => wait elapsed w
  end.

Definition run_ops (cfg : Config) (ops : list (Op Data)) (w : World Data)
  : World Data :=
  fold_left (fun w op => run_op cfg op w) ops w.

(** The key an operation writes under, if any. *)
Definition op_key (op : Op Data) : option string :=
  match op with
  | OpGet key _ _ _ => Some key
  | OpSet key _ _ => Some key
  | _ => None
  end.

Definition is_get (op : Op Data) : bool :=
  match op with
  | OpGet _ _ _ _ => true
  | _ => false
  end.

(** The entry map of the process-wide cache. *)
Definition entries (w : World Data) : JSMap.t (CacheEntry Data) :=
  cache (apiCache w).

(** With caching switched off nothing was ever stored. *)
Definition coherent (cfg : Config) (w : World Data) : Prop :=
  enableCache cfg = false -> entries w = [].

End Runs.

(* ================================================================== *)
(** * Notions used in the statements                                   *)
(* ================================================================== *)

(** A pure function applied to what a promise resolves to. *)
Definition map_result {A B} (f : A -> B) (r : Result A) : Result B :=
  match r with
  | Ok a => Ok (f a)
  | Throw e => Throw e
  end.

Section Notions.
Context {Data : Type}.

(** The world after the events [evs] were appended to the trace. *)
Definition logged (evs : list Event) (w : World Data) : World Data :=
  mkWorld (apiCache w) (clock w) (calls w) (trace w ++ evs)%list.

(** What [logger.info] prints. *)
Definition info_events (cfg : Config) (message : string) : list Event :=
  if enableDebugLogs cfg then [Console LLog ("ℹ️ " ++ message) None] else [].

(** The entry map after the eviction step of [set]: at or above capacity
    the first entry goes, unless its key is the empty string. *)
Definition evicted (m : JSMap.t (CacheEntry Data)) (maxSize : Z)
  : JSMap.t (CacheEntry Data) :=
  if JSMap.size m >=? maxSize then
    match m with
    | (k0, e0) :: rest => if truthy k0 then rest else m
    | [] => []
    end
  else m.

(** The entry [set] writes at time [now]. *)
Definition entry_at (w : World Data) (d : Data) (ttl_opt : option Z)
  : CacheEntry Data :=
  mkEntry d (clock w) (ttl_or_default ttl_opt (defaultTTL (apiCache w))).

(** Every key of the map is a non-empty string. *)
Definition keys_nonempty (m : JSMap.t (CacheEntry Data)) : Prop :=
  Forall (fun k => k <> "") (JSMap.keys m).

(** Every key an operation of the run writes under is non-empty. *)
Definition ops_keys_nonempty (ops : list (Op Data)) : Prop :=
  Forall (fun op => op_key op <> Some "") ops.

(** The cache is within its capacity. *)
Definition within_capacity (w : World Data) : Prop :=
  JSMap.size (entries w) <= maxSize (apiCache w).

(** What the [catch] block of [withErrorBoundary] prints. *)
Definition report_events (context : option string) (error : Thrown)
  : list Event :=
  if isAuthError error then
    [Console LWarn
       ("🔐 Authentication failed in " ++ context_or_unknown context
          ++ ": " ++ message_of error) None;
     Console LWarn
       "💡 This is expected in development when Strapi is not running or API token is not configured"
       None]
  else
    Console LError ("❌ Error in " ++ context_or_unknown context ++ ":")
            (Some error)
    :: match error with
       | APIError _ status endpoint =>
           [Console LError
              ("API Error - Status: " ++ show_Z status ++ ", Endpoint: "
                 ++ show_endpoint endpoint) None]
       | _ => []
       end.

(** The delays of the timers set so far, oldest first. *)
Fixpoint timeouts (tr : list Event) : list Z :=
  match tr with
  | [] => []
  | Timeout delay :: tr' => delay :: timeouts tr'
  | _ :: tr' => timeouts tr'
  end.

(** The world right after one invocation of a scripted callback. *)
Definition called {T} (script : nat -> Result T * Z) (w : World Data)
  : World Data :=
  mkWorld (apiCache w) (clock w + snd (script (calls w))) (S (calls w))
          (trace w ++ [Called (calls w)])%list.

(** The world after a failed attempt number [attempt] that is followed
    by another one: the call, the warning, the timer. *)
Definition retried {T} (script : nat -> Result T * Z) (baseDelay attempt : Z)
  (w : World Data) : World Data :=
  let delay := baseDelay * 2 ^ attempt in
  mkWorld (apiCache w)
          (clock w + snd (script (calls w)) + Z.max 0 delay)
          (S (calls w))
          (trace w
             ++ [Called (calls w);
                 Console LWarn
                   ("Attempt " ++ show_Z (attempt + 1)
                      ++ " failed, retrying in " ++ show_Z delay ++ "ms...")
                   None;
                 Timeout delay])%list.

(** The warning of the stale branch of [get]. *)
Definition stale_warning (key : string) : Event :=
  Console LWarn ("⚠️ Using stale cache data for key: " ++ key) None.

(** The backoff delays before re-attempts [1 .. n]:
    [baseDelay * 2^0, ..., baseDelay * 2^(n-1)]. *)
Definition backoff_delays (baseDelay : Z) (n : nat) : list Z :=
  map (fun i => baseDelay * 2 ^ Z.of_nat i) (seq 0 n).

End Notions.

(* ================================================================== *)
(** * Sample inputs                                                    *)
(* ================================================================== *)

(** Caching on, debug logs off. *)
Definition sample_config : Config := mkConfig true true false false 1000 200.

(** Caching off. *)
Definition sample_config_off : Config :=
  mkConfig false true false false 1000 200.

(** An empty cache of capacity 2 with a default ttl of one second, at
    time 0. *)
Definition empty_world : World nat := mkWorld (mkCache [] 2 1000) 0 0 [].

(** The cache of capacity 2 after [a] and [b] were inserted at times 0
    and 1; the clock reads 2. *)
Definition full_world : World nat :=
  mkWorld (mkCache [("a", mkEntry 1%nat 0 1000); ("b", mkEntry 2%nat 1 1000)]
                   2 1000)
          2 0 [].

(** [full_world] when the clock reads 1500: both entries have expired. *)
Definition expired_world : World nat :=
  mkWorld (mkCache [("a", mkEntry 1%nat 0 1000); ("b", mkEntry 2%nat 1 1000)]
                   2 1000)
          1500 0 [].

(** A cache of capacity 3 holding [a] and [b]. *)
Definition roomy_world : World nat :=
  mkWorld (mkCache [("a", mkEntry 1%nat 0 1000); ("b", mkEntry 2%nat 1 1000)]
                   3 1000)
          2 0 [].

(** A callback that rejects with status 429 on every call. *)
Definition always_429 : nat -> Result nat * Z :=
  fun _ => (Throw (APIError "Too Many Requests" 429 (Some "/articles")), 0).

(** A callback that rejects with status 429 once and resolves to 7 from
    then on. *)
Definition once_429 : nat -> Result nat * Z :=
  fun i =>
    match i with
    | O => (Throw (APIError "Too Many Requests" 429 (Some "/articles")), 0)
    | S _ => (Ok 7%nat, 0)
    end.

(** A callback that rejects with status 404 on every call. *)
Definition always_404 : nat -> Result nat * Z :=
  fun _ => (Throw (APIError "Not Found" 404 (Some "/articles")), 0).

(** A callback that rejects with status 500 on every call. *)
Definition always_500 : nat -> Result nat * Z :=
  fun _ => (Throw (APIError "Internal Server Error" 500 (Some "/articles")), 0).

(** A fetcher that resolves to 7 after 5 ms. *)
Definition resolves_7 : nat -> Result nat * Z := fun _ => (Ok 7%nat, 5).

(** A fetcher that rejects after 5 ms. *)
Definition rejects : nat -> Result nat * Z :=
  fun _ => (Throw (NetworkError "fetch failed"), 5).

(** The default content manager of [sample_config]. *)
Definition sample_manager : ContentManager :=
  ContentManager.new sample_config (mkOptions None None None).

(** An empty world for the content manager. *)
Definition empty_content_world : World Value :=
  mkWorld (MemoryCache.new sample_config None None) 0 0 [].

(** An upstream whose list call rejects with status 500 after 30 ms. *)
Definition failing_list : nat -> Result (list PostEntry) * Z :=
  fun _ => (Throw (APIError "Internal Server Error" 500 (Some "/articles")), 30).

(** An upstream whose single-post call rejects after 30 ms. *)
Definition failing_post : nat -> Result (option PostEntry) * Z :=
  fun _ => (Throw (NetworkError "fetch failed"), 30).

(** Two posts. *)
Definition post_a : PostEntry :=
  mkPost "1" "hello" (Some "Hello world")
         (PostData.mk "Hello" (Some ["news"; "rocq"]) (Some "tech")).

Definition post_b : PostEntry :=
  mkPost "2" "bye" None (PostData.mk "Bye" None (Some "life")).

(* ================================================================== *)
(** * Cached, retried upstream calls ([lib/strapi.ts])                 *)
(* ================================================================== *)

(** The fields of [config] that [lib/strapi.ts] consults besides those
    of [Config]. *)
Record ApiConfig : Type := mkApiConfig {
  enableRetry : bool;            (* config.features.enableRetry *)
  retryAttempts : Z;             (* config.api.retryAttempts *)
  retryBaseDelay : Z;            (* config.api.retryBaseDelay *)
  contentTtl_categories : Z      (* config.cache.contentTtl.categories *)
}.

(** A synchronous call that returns or throws, inside an [async]
    function. *)
Definition lift {Data A} (r : Result A) : M Data A := fun w => (r, w).

Module strapi.
Section strapi.
Context {Data : Type}.
Variable cfg : Config.
Variable api : ApiConfig.

(** [fetchAPI(endpoint)]: the HTTP call, left open. *)
Variable fetchAPI : string -> M Data Data.

(** The lines
    [if (!config.features.enableRetry) { return fetchFunction(); }
     return retryWithBackoff(fetchFunction, config.api.retryAttempts,
                             config.api.retryBaseDelay);]
    that end the thunks of this file. *)
Definition run_with_retry (fetchFunction : M Data Data) : M Data Data :=
  if negb (enableRetry api) then fetchFunction
  else retryWithBackoff fetchFunction (retryAttempts api) (retryBaseDelay api).

Definition articlesByCategoryUrl (category : string) : string :=
  "/articles?populate[0]=image&populate[1]=category&populate[2]=tags&populate[3]=author.avatar&filters[category][$eq]="
    ++ category ++ "&filters[draft][$eq]=false&sort=published:desc".

(** [export async function getArticlesByCategory(category)] *)
Definition getArticlesByCategory (category : string) : M Data Data :=
  let cacheKey := generateCacheKey ("category-articles-" ++ category) [] in
  MemoryCache.get cfg cacheKey
    (let fetchFunction := fetchAPI (articlesByCategoryUrl category) in
     run_with_retry fetchFunction)
    (Some (contentTtl_categories api)).

(** [export async function getAllCategories()] *)
Definition getAllCategories : M Data Data :=
  let cacheKey := generateCacheKey "all-categories" [] in
  MemoryCache.get cfg cacheKey
    (let fetchFunction :=
       fetchAPI "/categories?populate[banners][populate]=image&sort=sortOrder:asc,name:asc" in
     run_with_retry fetchFunction)
    (Some (contentTtl_categories api)).

Definition articleBySlugUrl (slug : string) (timestamp : Z) : string :=
  "/articles?populate[0]=image&populate[1]=category&populate[2]=tags&populate[3]=author.avatar&filters[slug][$eq]="
    ++ slug ++ "&_t=" ++ show_Z timestamp.

(** [export async function getArticleBySlug(slug)]: neither cached nor
    retried. *)
Definition getArticleBySlug (slug : string) : M Data Data :=
  timestamp <- Date_now;;
  fetchAPI (articleBySlugUrl slug timestamp).

End strapi.

Section published.
Variable cfg : Config.
Variable api : ApiConfig.

(** [fetchAPI(endpoint)] with its declared result [Promise<any>]. *)
Variable fetchAPI : string -> M Value Value.

(** [result.data && result.data.length > 0], and then [result.data[0]]:
    the property access throws on [null] and [undefined]; the test fails
    on an empty array, on an array (which has no [data]) and on a post
    (whose [data] has no [length]). *)
Definition first_article (result : Value) : Result (option StrapiArticle) :=
  match result with
  | VResponse (firstArticle :: _) => Ok (Some firstArticle)
  | VResponse [] => Ok None
  | VPost _ | VPosts _ => Ok None
  | VNull =>
      Throw (TypeError "Cannot read properties of null (reading 'data')")
  | VUndefined =>
      Throw (TypeError "Cannot read properties of undefined (reading 'data')")
  end.

Definition publishedArticlesUrl : string :=
  "/articles" ++ "?populate[0]=image&populate[1]=category&populate[2]=tags&populate[3]=author.avatar&filters[draft][$eq]=false&sort=published:desc".

(** The [fetchFunction] of [getPublishedArticles]. *)
Definition publishedFetchFunction : M Value Value :=
  result <- fetchAPI publishedArticlesUrl;;
  first <- lift (first_article result);;
  match first with
  | Some firstArticle =>
      if enableDebugLogs cfg then
        logger.info_object cfg "SEO Fields Debug:"
          [("metaTitle", metaTitle firstArticle);
           ("metaDescription", metaDescription firstArticle);
           ("keywords", keywords firstArticle);
           ("slug", Some (article_slug firstArticle));
           ("title", Some (article_title firstArticle))]
      else ret tt
  | None => ret tt
  end;;
  ret result.

(** [export async function getPublishedArticles()]: cached under
    [published-articles] with the default ttl of the cache, retried. *)
Definition getPublishedArticles : M Value Value :=
  let cacheKey := generateCacheKey "published-articles" [] in
  MemoryCache.get cfg cacheKey
    (let fetchFunction := publishedFetchFunction in
     run_with_retry api fetchFunction)
    None.

End published.
End strapi.

(* ================================================================== *)
(** * [utils/strapi-content-utils.ts]                                  *)
(* ================================================================== *)

(** [array.map(f)] with an [f] that may throw: the first exception
    wins. *)
Fixpoint map_throwing {A B} (f : A -> Result B) (l : list A)
  : Result (list B) :=
  match l with
  | [] => Ok []
  | x :: l' =>
      match f x with
      | Ok y =>
          match map_throwing f l' with
          | Ok ys => Ok (y :: ys)
          | Throw e => Throw e
          end
      | Throw e => Throw e
      end
  end.

Module strapiUtils.
Section strapiUtils.

(** [StrapiArticle]. *)
Variable Article : Type.

(** [getPublishedArticles()] and [getArticleBySlug(slug)] of
    [lib/strapi.ts], resolving to the [data] array of the response; left
    open. *)
Variable getPublishedArticles : M Value (list Article).
Variable getArticleBySlug : string -> M Value (list Article).

(** [adaptStrapiArticle] and [addNavigationInfo] of
    [lib/strapi-adapter.ts]; left open. *)
Variable adaptStrapiArticle : Article -> Result PostEntry.
Variable addNavigationInfo : list PostEntry -> M Value (list PostEntry).

(** [adaptStrapiArticles(strapiArticles)] *)
Definition adaptStrapiArticles (strapiArticles : list Article)
  : Result (list PostEntry) :=
  map_throwing adaptStrapiArticle strapiArticles.

(** [export async function getSortedPosts()] *)
Definition getSortedPosts : M Value (list PostEntry) :=
  try_catch
    (response <- getPublishedArticles;;
     articles <- lift (adaptStrapiArticles response);;
     addNavigationInfo articles)
    (fun error =>
       emit (Console LError "Error fetching posts from Strapi:" (Some error));;
       ret []).

(** [export async function getPostBySlug(slug)] *)
Definition getPostBySlug (slug : string) : M Value (option PostEntry) :=
  try_catch
    (response <- getArticleBySlug slug;;
     match response with
     | first :: _ =>
         post <- lift (adaptStrapiArticle first);;
         ret (Some post)
     | [] => ret None
     end)
    (fun error =>
       emit (Console LError
               ("Error fetching post with slug " ++ slug ++ " from Strapi:")
               (Some error));;
       ret None).

(** [import * as strapiUtils from "../utils/strapi-content-utils"] *)
Definition module : StrapiUtils := mkUtils getSortedPosts getPostBySlug.

End strapiUtils.
End strapiUtils.

(** [response.data] handed to [adaptStrapiArticles], which calls [map]
    on it. *)
Definition response_articles (response : Value)
  : Result (list StrapiArticle) :=
  match response with
  | VResponse articles => Ok articles
  | VPost _ => Throw (TypeError "strapiArticles.map is not a function")
  | VPosts _ =>
      Throw (TypeError "Cannot read properties of undefined (reading 'map')")
  | VNull =>
      Throw (TypeError "Cannot read properties of null (reading 'data')")
  | VUndefined =>
      Throw (TypeError "Cannot read properties of undefined (reading 'data')")
  end.

(** [response.data] in [response.data.length > 0] and
    [response.data[0]]: the [data] of a post has no [length], so the
    test fails as it does on an empty array. *)
Definition response_found (response : Value) : Result (list StrapiArticle) :=
  match response with
  | VResponse articles => Ok articles
  | VPost _ => Ok []
  | VPosts _ =>
      Throw (TypeError
               "Cannot read properties of undefined (reading 'length')")
  | VNull =>
      Throw (TypeError "Cannot read properties of null (reading 'data')")
  | VUndefined =>
      Throw (TypeError "Cannot read properties of undefined (reading 'data')")
  end.

(** [utils/strapi-content-utils.ts] linked with [lib/strapi.ts], as
    [lib/content-manager.ts] imports it; the HTTP call [fetchAPI] and the
    two functions of [lib/strapi-adapter.ts] are left open. *)
Module strapiContentUtils.
Section strapiContentUtils.
Variable cfg : Config.
Variable api : ApiConfig.
Variable fetchAPI : string -> M Value Value.
Variable adaptStrapiArticle : StrapiArticle -> Result PostEntry.
Variable addNavigationInfo : list PostEntry -> M Value (list PostEntry).

(** [(await getPublishedArticles()).data] *)
Definition publishedArticles : M Value (list StrapiArticle) :=
  response <- strapi.getPublishedArticles cfg api fetchAPI;;
  lift (response_articles response).

(** [(await getArticleBySlug(slug)).data] *)
Definition articleBySlug (slug : string) : M Value (list StrapiArticle) :=
  response <- strapi.getArticleBySlug fetchAPI slug;;
  lift (response_found response).

Definition module : StrapiUtils :=
  strapiUtils.module StrapiArticle publishedArticles articleBySlug
    adaptStrapiArticle addNavigationInfo.

End strapiContentUtils.
End strapiContentUtils.

(* ================================================================== *)
(** * [utils/hybrid-content-utils.ts]                                  *)
(* ================================================================== *)

(** [type Tag = { name: string; count: number }] *)
Record Tag : Type := mkTag {
  tag_name : string;
  tag_count : Z
}.

(** [tagMap.set(tag, (tagMap.get(tag) || 0) + 1)] *)
Definition count_tag (tagMap : JSMap.t Z) (tag : string) : JSMap.t Z :=
  JSMap.set tag
    ((match JSMap.get tag tagMap with
      | Some n => if n =? 0 then 0 else n
      | None => 0
      end) + 1)
    tagMap.

(** The body of [posts.forEach(post => ...)] in [getTagList]. *)
Definition count_post_tags (tagMap : JSMap.t Z) (post : PostEntry)
  : JSMap.t Z :=
  let tags :=
    match PostData.tags (entry_data post) with
    | Some ts => ts
    | None => []
    end in
  fold_left count_tag tags tagMap.

(** Insertion of [x] into a list sorted with the comparator
    [(a, b) => b.count - a.count], before the first element that does
    not have to precede it. *)
Fixpoint insert_by_count (x : Tag) (l : list Tag) : list Tag :=
  match l with
  | [] => [x]
  | y :: l' =>
      if tag_count y <=? tag_count x then x :: y :: l'
      else y :: insert_by_count x l'
  end.

(** [tags.sort((a, b) => b.count - a.count)]: the stable sort of the
    array by descending count. *)
Definition sort_by_count (l : list Tag) : list Tag :=
  fold_right insert_by_count [] l.

(** [logger.error(message, error)] *)
Definition logger_error_with {Data} (message : string) (error : Thrown)
  : M Data unit :=
  emit (Console LError ("❌ " ++ message) (Some error)).

Module hybrid.
Section hybrid.
Variable cfg : Config.
Variable strapiUtils : StrapiUtils.

(** The exported instance [contentManager]. *)
Variable contentManager : ContentManager.

(** [export async function getSortedPosts()] *)
Definition getSortedPosts : M Value (list PostEntry) :=
  logger.info cfg "🔍 getSortedPosts 被调用";;
  try_catch
    (posts <- ContentManager.getSortedPosts cfg strapiUtils contentManager;;
     logger.success cfg
       ("✅ 获取到 " ++ show_Z (Z.of_nat (List.length posts)) ++ " 篇文章");;
     ret posts)
    (fun error =>
       logger_error_with "❌ 获取文章列表失败:" error;;
       ret []).

(** [export async function getAllPostSlugs()] *)
Definition getAllPostSlugs : M Value (list string) :=
  logger.info cfg "🔍 getAllPostSlugs 被调用";;
  try_catch
    (posts <- ContentManager.getSortedPosts cfg strapiUtils contentManager;;
     let slugs := map entry_slug posts in
     logger.success cfg
       ("✅ 获取到 " ++ show_Z (Z.of_nat (List.length slugs))
          ++ " 个文章 slug");;
     ret slugs)
    (fun error =>
       logger_error_with "❌ 获取文章 slug 失败:" error;;
       ret []).

(** The tags of [getTagList], computed from the posts. *)
Definition tags_of_posts (posts : list PostEntry) : list Tag :=
  let tagMap := fold_left count_post_tags posts [] in
  sort_by_count (map (fun '(name, count) => mkTag name count) tagMap).

(** [export async function getTagList()] *)
Definition getTagList : M Value (list Tag) :=
  logger.info cfg "🔍 getTagList 被调用";;
  try_catch
    (posts <- ContentManager.getSortedPosts cfg strapiUtils contentManager;;
     let tags := tags_of_posts posts in
     logger.success cfg
       ("✅ 获取到 " ++ show_Z (Z.of_nat (List.length tags)) ++ " 个标签");;
     ret tags)
    (fun error =>
       logger_error_with "❌ 获取标签列表失败:" error;;
       ret []).

End hybrid.
End hybrid.

(* ================================================================== *)
(** * Further notions used in the statements                           *)
(* ================================================================== *)

(** The sum of a list of delays. *)
Definition total (l : list Z) : Z := fold_right Z.add 0 l.

(** The events printed with [console.warn] or [console.error]. *)
Definition alerts (tr : list Event) : list Event :=
  filter (fun ev =>
            match level_of ev with
            | Some LWarn | Some LError => true
            | _ => false
            end) tr.

(** The stored count of a tag, [0] when the tag is absent. *)
Definition tag_total (tagMap : JSMap.t Z) (name : string) : Z :=
  match JSMap.get name tagMap with
  | Some n => n
  | None => 0
  end.

(** An outcome that ends the loop of [retryWithBackoff] whatever the
    number of attempts left: a value, or an [APIError] with a 4xx
    status. *)
Definition decisive {T} (r : Result T) : bool :=
  match r with
  | Ok _ => true
  | Throw e => isAPIClientError e
  end.

(** The time the calls [first .. first + n - 1] of a scripted callback
    take. *)
Fixpoint elapsed_total {T} (script : nat -> Result T * Z) (first n : nat)
  : Z :=
  match n with
  | O => 0
  | S n' => snd (script first) + elapsed_total script (S first) n'
  end.

(** How often [tag] occurs in the tag lists of [posts]. *)
Fixpoint occurrences (tag : string) (posts : list PostEntry) : Z :=
  match posts with
  | [] => 0
  | post :: posts' =>
      (match PostData.tags (entry_data post) with
       | Some ts => Z.of_nat (count_occ string_dec ts tag)
       | None => 0
       end) + occurrences tag posts'
  end.

(** The pages [first .. first + n - 1] of [allPosts], one after the
    other. *)
Fixpoint pages_from (pageSize : Z) (allPosts : list PostEntry)
  (first : Z) (n : nat) : list PostEntry :=
  match n with
  | O => []
  | S n' =>
      (page_posts (ContentManager.paginate first pageSize allPosts)
       ++ pages_from pageSize allPosts (first + 1) n')%list
  end.

Section MoreNotions.
Context {Data : Type}.

(** The keys of the entry map are pairwise distinct, as in every
    [Map]. *)
Definition distinct_keys (w : World Data) : Prop :=
  NoDup (JSMap.keys (entries w)).

(** The entries that are fresh at time [now]. *)
Definition fresh_entries (now : Z) (m : JSMap.t (CacheEntry Data))
  : JSMap.t (CacheEntry Data) :=
  filter (fun ke => MemoryCache.fresh now (snd ke)) m.

(** The entries that have expired at time [now]. *)
Definition expired_entries (now : Z) (m : JSMap.t (CacheEntry Data))
  : JSMap.t (CacheEntry Data) :=
  filter (fun ke => negb (MemoryCache.fresh now (snd ke))) m.

(** What the loop of [getStats] has established after the entries
    [seen]: the two counters, and the keys of the oldest and of the
    newest entry together with the running minimum ([None] is
    [Infinity]) and the running maximum of the timestamps. *)
Definition stats_invariant (now : Z) (seen : JSMap.t (CacheEntry Data))
  (acc : Stats * option Z * Z) : Prop :=
  let '(stats, oldestTime, newestTime) := acc in
  validEntries stats = JSMap.size (fresh_entries now seen)
  /\ expiredEntries stats = JSMap.size (expired_entries now seen)
  /\ match oldestTime with
     | None => seen = [] /\ oldestEntry stats = None
     | Some t =>
         exists k e,
           oldestEntry stats = Some k /\ In (k, e) seen /\ timestamp e = t
           /\ forall k' e', In (k', e') seen -> t <= timestamp e'
     end
  /\ ((newestTime = 0 /\ newestEntry stats = None
       /\ forall k' e', In (k', e') seen -> timestamp e' <= 0)
      \/ (0 < newestTime
          /\ exists k e,
               newestEntry stats = Some k /\ In (k, e) seen
               /\ timestamp e = newestTime
               /\ forall k' e', In (k', e') seen ->
                                timestamp e' <= newestTime)).

End MoreNotions.

(** What the loop of [getTagList] keeps true of [tagMap]: the keys are
    distinct and every stored count is positive. *)
Definition counts_ok (tagMap : JSMap.t Z) : Prop :=
  NoDup (JSMap.keys tagMap) /\ Forall (fun kv => 0 < snd kv) tagMap.

(* ================================================================== *)
(** * Further sample inputs                                            *)
(* ================================================================== *)

(** Retries on: three of them, starting at 100 ms; categories are kept
    for ten minutes. *)
Definition sample_api : ApiConfig := mkApiConfig true 3 100 600000.

(** A callback that rejects with status 500 twice and resolves to 7
    from then on; every call takes 5 ms. *)
Definition flaky_then_7 : nat -> Result nat * Z :=
  fun i =>
    match i with
    | O | S O =>
        (Throw (APIError "Internal Server Error" 500 (Some "/articles")), 5)
    | _ => (Ok 7%nat, 5)
    end.

(** A cache holding an expired response for the category [tech]. *)
Definition stale_category_world : World nat :=
  mkWorld (mkCache [("category-articles-tech", mkEntry 1%nat 0 1000)] 2 1000)
          1500 0 [].

(** The parameters of a query, written in two orders. *)
Definition sample_params : Params := [("page", "1"); ("size", "10")].

Definition sample_params_swapped : Params := [("size", "10"); ("page", "1")].

(** An upstream whose list call resolves to two posts after 30 ms. *)
Definition resolving_list : nat -> Result (list PostEntry) * Z :=
  fun _ => (Ok [post_a; post_b], 30).

(** An upstream whose single-post call resolves to a post after 30 ms. *)
Definition resolving_post : nat -> Result (option PostEntry) * Z :=
  fun _ => (Ok (Some post_a), 30).

(** An HTTP layer, with articles numbered, whose calls reject after
    30 ms. *)
Definition failing_articles : nat -> Result (list nat) * Z :=
  fun _ => (Throw (NetworkError "fetch failed"), 30).

(** An adapter and a navigation step that succeed. *)
Definition sample_adapt : nat -> Result PostEntry := fun _ => Ok post_a.

Definition sample_navigation : list PostEntry -> M Value (list PostEntry) :=
  fun posts => ret posts.

(** A world for the content manager in which the post list was cached at
    time 0; the clock reads 10. *)
Definition warm_content_world : World Value :=
  with_cache [(ContentManager.sortedPostsKey sample_manager,
               mkEntry (VPosts [post_a; post_b]) 0 1000)]
    (mkWorld (MemoryCache.new sample_config None None) 10 0 []).

(** The number of re-attempts the thunks of [lib/strapi.ts] make when
    every attempt fails with an error that is retried. *)
Definition retries (api : ApiConfig) : nat :=
  if enableRetry api then Z.to_nat (retryAttempts api) else 0%nat.

(** The warnings of [retryWithBackoff] before the re-attempts
    [first + 1 .. first + n]. *)
Definition retry_warnings (baseDelay first : Z) (n : nat) : list Event :=
  map (fun i =>
         Console LWarn
           ("Attempt " ++ show_Z (first + Z.of_nat i + 1)
              ++ " failed, retrying in "
              ++ show_Z (baseDelay * 2 ^ (first + Z.of_nat i)) ++ "ms...")
           None)
      (seq 0 n).

(** [cacheTTL || defaultTTL], the ttl of the entries the manager
    writes. *)
Definition manager_ttl (self : ContentManager) (defaultTTL : Z) : Z :=
  if cacheTTL (options self) =? 0 then defaultTTL
  else cacheTTL (options self).

(** Every request fails with an error that [retryWithBackoff] retries. *)
Definition outage (script : nat -> Result Value * Z) : Prop :=
  forall i, exists e, fst (script i) = Throw e /\ isAPIClientError e = false.

(** A callback that rejects with status 401 on every call. *)
Definition always_401 : nat -> Result nat * Z :=
  fun _ => (Throw (APIError "Unauthorized" 401 (Some "/articles")), 0).

(** An article as Strapi returns it. *)
Definition article_a : StrapiArticle :=
  mkArticle 1 "Hello" "hello" (Some "Hello world") None None.

(** An HTTP layer that is down: every request fails after 30 ms. *)
Definition http_down : nat -> Result Value * Z :=
  fun _ => (Throw (NetworkError "Network error: fetch failed"), 30).

(** An HTTP layer that resolves every request to one article after
    30 ms. *)
Definition http_up : nat -> Result Value * Z :=
  fun _ => (Ok (VResponse [article_a]), 30).

(** An adapter that keeps the identifier, the slug and the title. *)
Definition sample_adaptStrapiArticle : StrapiArticle -> Result PostEntry :=
  fun article =>
    Ok (mkPost ("strapi-" ++ show_Z (article_id article))
               (article_slug article) None
               (PostData.mk (article_title article) (Some []) (Some ""))).

(** A content manager that keeps its entries for five seconds, in a
    cache whose default ttl is one second. *)
Definition sample_manager_5s : ContentManager :=
  ContentManager.new sample_config (mkOptions None (Some 5000) None).

(** A world for the content manager in which a response was cached at
    time 0 and has expired: the clock reads 1500. *)
Definition stale_published_world : World Value :=
  with_cache [("published-articles", mkEntry (VResponse [article_a]) 0 1000)]
    (mkWorld (MemoryCache.new sample_config None None) 1500 0 []).

(* ================================================================== *)
(** * Properties of the insertion-ordered map                          *)
(* ================================================================== *)

Section JSMapFacts.
Context {V : Type}.
Implicit Types (m : JSMap.t V) (k key : string) (v : V).

Lemma JSMap_get_set_same key v m :
  JSMap.get key (JSMap.set key v m) = Some v.
Proof.
  induction m as [|[k v0] m IH]; simpl.
  - now rewrite String.eqb_refl.
  - destruct (String.eqb_spec k key) as [->|Hne]; simpl.
    + now rewrite String.eqb_refl.
    + apply String.eqb_neq in Hne. now rewrite Hne.
Qed.

Lemma JSMap_get_set_other key k v m :
  k <> key -> JSMap.get k (JSMap.set key v m) = JSMap.get k m.
Proof.
  intros Hk. induction m as [|[k0 v0] m IH]; simpl.
  - destruct (String.eqb_spec key k); congruence.
  - destruct (String.eqb_spec k0 key) as [->|Hne]; simpl.
    + destruct (String.eqb_spec key k); congruence.
    + now rewrite IH.
Qed.

Lemma JSMap_set_absent key v m :
  JSMap.get key m = None -> JSMap.set key v m = (m ++ [(key, v)])%list.
Proof.
  induction m as [|[k v0] m IH]; simpl; intros H; [reflexivity|].
  destruct (k =? key)%string; [discriminate|]. now rewrite IH.
Qed.

Lemma JSMap_keys_set_present key v m :
  JSMap.has key m = true -> JSMap.keys (JSMap.set key v m) = JSMap.keys m.
Proof.
  unfold JSMap.has, JSMap.keys.
  induction m as [|[k v0] m IH]; simpl; intros H; [discriminate|].
  destruct (k =? key)%string; simpl; [reflexivity|]. now rewrite IH.
Qed.

Lemma JSMap_size_set_present key v m :
  JSMap.has key m = true -> JSMap.size (JSMap.set key v m) = JSMap.size m.
Proof.
  intros H. apply (JSMap_keys_set_present key v) in H.
  unfold JSMap.size, JSMap.keys in *.
  apply (f_equal (@List.length _)) in H. rewrite !length_map in H.
  now rewrite H.
Qed.

Lemma JSMap_size_set_le key v m :
  JSMap.size (JSMap.set key v m) <= JSMap.size m + 1.
Proof.
  unfold JSMap.size.
  induction m as [|[k v0] m IH]; simpl List.length; [lia|].
  destruct (k =? key)%string; simpl List.length; lia.
Qed.

Lemma JSMap_size_delete_le key m :
  JSMap.size (JSMap.delete key m) <= JSMap.size m.
Proof.
  unfold JSMap.size.
  induction m as [|[k v0] m IH]; simpl; [lia|].
  destruct (k =? key)%string; simpl List.length; lia.
Qed.

Lemma JSMap_delete_first k v m :
  JSMap.delete k ((k, v) :: m) = m.
Proof. simpl. now rewrite String.eqb_refl. Qed.

Lemma JSMap_keys_set_incl key v m k :
  In k (JSMap.keys (JSMap.set key v m)) -> k = key \/ In k (JSMap.keys m).
Proof.
  unfold JSMap.keys.
  induction m as [|[k0 v0] m IH]; simpl.
  - intros [H|[]]; auto.
  - destruct (k0 =? key)%string; simpl; intros [H|H]; auto.
    destruct (IH H); auto.
Qed.

Lemma JSMap_keys_delete_incl key m k :
  In k (JSMap.keys (JSMap.delete key m)) -> In k (JSMap.keys m).
Proof.
  unfold JSMap.keys.
  induction m as [|[k0 v0] m IH]; simpl; [tauto|].
  destruct (k0 =? key)%string; simpl; intros H; auto.
  destruct H; auto.
Qed.

Lemma JSMap_has_get key m :
  JSMap.has key m = true <-> exists v, JSMap.get key m = Some v.
Proof.
  unfold JSMap.has. destruct (JSMap.get key m); split; intros H; eauto;
    try discriminate.
  destruct H; discriminate.
Qed.

End JSMapFacts.

(* ================================================================== *)
(** * Properties of [MemoryCache]                                      *)
(* ================================================================== *)

Section MemoryCacheFacts.
Context {Data : Type}.
Implicit Types (w : World Data) (cfg : Config) (key : string) (d : Data).

Lemma logged_nil w : logged [] w = w.
Proof. destruct w; unfold logged; simpl. now rewrite app_nil_r. Qed.

Lemma logger_info_run cfg message w :
  logger.info cfg message w = (Ok tt, logged (info_events cfg message) w).
Proof.
  unfold logger.info, info_events.
  destruct (enableDebugLogs cfg); [reflexivity|].
  now rewrite logged_nil.
Qed.

Lemma set_disabled cfg key d ttl_opt w :
  enableCache cfg = false -> MemoryCache.set cfg key d ttl_opt w = (Ok tt, w).
Proof. intros H. unfold MemoryCache.set. now rewrite H. Qed.

Lemma info_events_level cfg message :
  Forall (fun ev => level_of ev = Some LLog) (info_events cfg message).
Proof. unfold info_events. destruct (enableDebugLogs cfg); repeat constructor. Qed.

Lemma set_run_levels cfg key d ttl_opt w :
  enableCache cfg = true ->
  exists evs,
    Forall (fun ev => level_of ev = Some LLog) evs
    /\ MemoryCache.set cfg key d ttl_opt w =
       (Ok tt,
        logged evs
          (with_cache
             (JSMap.set key (entry_at w d ttl_opt)
                (evicted (entries w) (maxSize (apiCache w)))) w)).
Proof.
  intros En. unfold MemoryCache.set, MemoryCache.evict_oldest, evicted,
    entries, entry_at.
  rewrite En. destruct w as [[m ms dt] now n tr].
  cbn -[logger.info JSMap.set JSMap.size Z.geb truthy JSMap.delete].
  unfold bind; cbn -[logger.info JSMap.set JSMap.size Z.geb truthy JSMap.delete].
  destruct (JSMap.size m >=? ms).
  - destruct m as [|[k0 e0] rest];
      cbn -[logger.info JSMap.set JSMap.size Z.geb truthy JSMap.delete].
    + rewrite logger_info_run. eexists. split; [apply info_events_level|].
      reflexivity.
    + destruct (truthy k0);
        cbn -[logger.info JSMap.set JSMap.size Z.geb truthy JSMap.delete].
      * rewrite JSMap_delete_first. rewrite logger_info_run.
        cbn -[logger.info JSMap.set]. rewrite logger_info_run.
        unfold logged, with_cache; cbn -[JSMap.set].
        rewrite <- app_assoc. eexists. split; [|reflexivity].
        apply Forall_app. split; apply info_events_level.
      * rewrite logger_info_run. eexists; split; [apply info_events_level|].
        reflexivity.
  - cbn -[logger.info JSMap.set]. rewrite logger_info_run.
    eexists; split; [apply info_events_level|]. reflexivity.
Qed.

Lemma set_run cfg key d ttl_opt w :
  enableCache cfg = true ->
  exists evs,
    MemoryCache.set cfg key d ttl_opt w =
    (Ok tt,
     logged evs
       (with_cache
          (JSMap.set key (entry_at w d ttl_opt)
             (evicted (entries w) (maxSize (apiCache w)))) w)).
Proof.
  intros En. destruct (set_run_levels cfg key d ttl_opt w En) as (evs & _ & H).
  now exists evs.
Qed.

Lemma set_entries cfg key d ttl_opt w :
  enableCache cfg = true ->
  entries (snd (MemoryCache.set cfg key d ttl_opt w)) =
  JSMap.set key (entry_at w d ttl_opt)
    (evicted (entries w) (maxSize (apiCache w))).
Proof.
  intros En. destruct (set_run cfg key d ttl_opt w En) as [evs ->].
  reflexivity.
Qed.

(** [set] resolves, and leaves the clock, the call counter and the
    parameters of the cache alone. *)
Lemma set_frame cfg key d ttl_opt w :
  let w' := snd (MemoryCache.set cfg key d ttl_opt w) in
  fst (MemoryCache.set cfg key d ttl_opt w) = Ok tt
  /\ clock w' = clock w /\ calls w' = calls w
  /\ maxSize (apiCache w') = maxSize (apiCache w)
  /\ defaultTTL (apiCache w') = defaultTTL (apiCache w).
Proof.
  destruct (enableCache cfg) eqn:En.
  - destruct (set_run cfg key d ttl_opt w En) as [evs ->]. cbn. tauto.
  - rewrite set_disabled by assumption. cbn. tauto.
Qed.

Lemma get_disabled cfg key (fetcher : M Data Data) ttl_opt w :
  enableCache cfg = false ->
  MemoryCache.get cfg key fetcher ttl_opt w = fetcher w.
Proof. intros H. unfold MemoryCache.get. now rewrite H. Qed.

(** A fresh entry is returned as it is; the fetcher plays no part. *)
Lemma get_hit cfg key (fetcher : M Data Data) ttl_opt w c :
  enableCache cfg = true ->
  JSMap.get key (entries w) = Some c ->
  MemoryCache.fresh (clock w) c = true ->
  MemoryCache.get cfg key fetcher ttl_opt w =
  (Ok (data c), logged (info_events cfg ("Cache hit for key: " ++ key)) w).
Proof.
  intros En Hc Hf. unfold MemoryCache.get, entries in *. rewrite En.
  cbn [negb]. unfold bind, this_cache, Date_now. rewrite Hc, Hf.
  now rewrite logger_info_run.
Qed.

(** Without a fresh entry the fetcher runs once, after the miss was
    logged; its value is stored, its error is replaced by the entry read
    at the start, if there was one. *)
Lemma get_miss cfg key (fetcher : M Data Data) ttl_opt w :
  enableCache cfg = true ->
  (forall c, JSMap.get key (entries w) = Some c ->
             MemoryCache.fresh (clock w) c = false) ->
  MemoryCache.get cfg key fetcher ttl_opt w =
  match fetcher (logged (info_events cfg ("Cache miss for key: " ++ key)) w)
  with
  | (Ok d, w1) => (Ok d, snd (MemoryCache.set cfg key d ttl_opt w1))
  | (Throw error, w1) =>
      match JSMap.get key (entries w) with
      | Some c =>
          (Ok (data c),
           logged [stale_warning key] w1)
      | None => (Throw error, w1)
      end
  end.
Proof.
  intros En Hstale. unfold MemoryCache.get, entries in *. rewrite En.
  cbn [negb]. unfold bind at 1 2, this_cache, Date_now.
  assert (Hmiss :
    forall miss : M Data Data,
      match JSMap.get key (cache (apiCache w)) with
      | Some c =>
          if MemoryCache.fresh (clock w) c
          then (logger.info cfg ("Cache hit for key: " ++ key);; ret (data c))
          else miss
      | None => miss
      end = miss).
  { intros miss. destruct (JSMap.get key (cache (apiCache w))) as [c|] eqn:E;
      [|reflexivity]. now rewrite (Hstale c eq_refl). }
  rewrite Hmiss. unfold bind at 1. rewrite logger_info_run.
  unfold try_catch, bind.
  destruct (fetcher _) as [[dd|error] w1].
  - pose proof (set_frame cfg key dd ttl_opt w1) as [Hok _].
    destruct (MemoryCache.set cfg key dd ttl_opt w1) as [r w2].
    cbn in Hok. subst r. reflexivity.
  - destruct (JSMap.get key (cache (apiCache w))) as [c|]; reflexivity.
Qed.

Lemma scripted_run {T} (script : nat -> Result T * Z) w :
  scripted script w =
  (fst (script (calls w)),
   mkWorld (apiCache w) (clock w + snd (script (calls w))) (S (calls w))
           (trace w ++ [Called (calls w)])%list).
Proof. unfold scripted. now destruct (script (calls w)). Qed.

Lemma delete_run cfg key w :
  exists evs,
    MemoryCache.delete cfg key w =
    (Ok (JSMap.has key (entries w)),
     logged evs (with_cache (JSMap.delete key (entries w)) w)).
Proof.
  unfold MemoryCache.delete, entries, bind, this_cache, put_cache.
  destruct (JSMap.has key (cache (apiCache w)));
    [rewrite logger_info_run|]; eexists; try reflexivity.
  unfold ret. now rewrite logged_nil.
Qed.

Lemma clear_run cfg w :
  exists evs, MemoryCache.clear cfg w = (Ok tt, logged evs (with_cache [] w)).
Proof.
  unfold MemoryCache.clear, bind, this_cache, put_cache.
  rewrite logger_info_run. eexists; reflexivity.
Qed.

Lemma cleanup_run cfg w :
  exists evs,
    MemoryCache.cleanup cfg w =
    (Ok (snd (fold_left (MemoryCache.cleanup_step (clock w)) (entries w)
                        (entries w, 0))),
     logged evs
       (with_cache
          (fst (fold_left (MemoryCache.cleanup_step (clock w)) (entries w)
                          (entries w, 0))) w)).
Proof.
  unfold MemoryCache.cleanup, entries, bind, this_cache, put_cache, Date_now.
  destruct (fold_left _ _ _) as [m' n]. cbn [fst snd].
  unfold bind. destruct (0 <? n); [rewrite logger_info_run|];
    eexists; try reflexivity.
  unfold ret. now rewrite logged_nil.
Qed.

Lemma getStats_run w : snd (MemoryCache.getStats w) = w.
Proof. reflexivity. Qed.

Lemma cleanup_fold_shrinks now (l : JSMap.t (CacheEntry Data)) :
  forall acc,
    let acc' := fold_left (MemoryCache.cleanup_step now) l acc in
    JSMap.size (fst acc') <= JSMap.size (fst acc)
    /\ incl (JSMap.keys (fst acc')) (JSMap.keys (fst acc)).
Proof.
  induction l as [|[k e] l IH]; intros [m n]; cbn [fold_left].
  - split; [lia|apply incl_refl].
  - cbn zeta in IH. unfold MemoryCache.cleanup_step at 2 4.
    destruct (ttl e <=? now - timestamp e).
    + destruct (IH (JSMap.delete k m, n + 1)) as [H1 H2]. cbn [fst] in *.
      split.
      * pose proof (JSMap_size_delete_le k m). lia.
      * intros x Hx. apply (JSMap_keys_delete_incl k). now apply H2.
    + apply IH.
Qed.

Lemma get_miss_scripted cfg key (script : nat -> Result Data * Z) ttl_opt w :
  enableCache cfg = true ->
  (forall c, JSMap.get key (entries w) = Some c ->
             MemoryCache.fresh (clock w) c = false) ->
  let out := MemoryCache.get cfg key (scripted script) ttl_opt w in
  calls (snd out) = S (calls w)
  /\ match fst (script (calls w)) with
     | Ok v =>
         fst out = Ok v
         /\ JSMap.get key (entries (snd out)) =
            Some (mkEntry v (clock w + snd (script (calls w)))
                          (ttl_or_default ttl_opt (defaultTTL (apiCache w))))
     | Throw e =>
         entries (snd out) = entries w
         /\ fst out =
            match JSMap.get key (entries w) with
            | Some c => Ok (data c)
            | None => Throw e
            end
     end.
Proof.
  intros En Hstale out. subst out.
  rewrite (get_miss cfg key _ ttl_opt w En Hstale), scripted_run.
  cbn [calls logged clock apiCache].
  destruct (fst (script (calls w))) as [v|e].
  - set (w1 := mkWorld _ _ _ _).
    pose proof (set_frame cfg key v ttl_opt w1) as (_ & _ & Hc & _).
    cbn [fst snd]. rewrite Hc, set_entries by assumption.
    rewrite JSMap_get_set_same. subst w1. unfold entry_at. cbn. auto.
  - destruct (JSMap.get key (entries w)); cbn; auto.
Qed.

(** C1 (TTL validity).  In every state that caching can reach, [get]
    hands back the data of the stored entry without calling the fetcher
    exactly when an entry for the key exists and
    [now - timestamp < ttl] holds for it, with a strict comparison.  A
    fresh entry is returned whatever the fetcher is.  When the entry's
    ttl has elapsed, [get] calls the fetcher once and, if it succeeds,
    returns its value and stores it under the key, stamped with the time
    at which the fetcher settled. *)
Theorem get_ttl_validity cfg key (script : nat -> Result Data * Z) ttl_opt w :
  coherent cfg w ->
  let out := MemoryCache.get cfg key (scripted script) ttl_opt w in
  ((exists c, JSMap.get key (entries w) = Some c
              /\ fst out = Ok (data c) /\ calls (snd out) = calls w)
   <->
   (exists c, JSMap.get key (entries w) = Some c
              /\ clock w - timestamp c < ttl c))
  /\ (forall c (fetcher : M Data Data),
        JSMap.get key (entries w) = Some c ->
        clock w - timestamp c < ttl c ->
        fst (MemoryCache.get cfg key fetcher ttl_opt w) = Ok (data c)
        /\ entries (snd (MemoryCache.get cfg key fetcher ttl_opt w))
           = entries w
        /\ calls (snd (MemoryCache.get cfg key fetcher ttl_opt w)) = calls w)
  /\ (forall c,
        JSMap.get key (entries w) = Some c ->
        ttl c <= clock w - timestamp c ->
        calls (snd out) = S (calls w)
        /\ forall v,
             fst (script (calls w)) = Ok v ->
             fst out = Ok v
             /\ JSMap.get key (entries (snd out)) =
                Some (mkEntry v (clock w + snd (script (calls w)))
                        (ttl_or_default ttl_opt (defaultTTL (apiCache w))))).
Proof.
  intros Hco out.
  destruct (enableCache cfg) eqn:En.
  - (* caching enabled *)
    assert (Hhit : forall c (fetcher : M Data Data),
      JSMap.get key (entries w) = Some c ->
      clock w - timestamp c < ttl c ->
      fst (MemoryCache.get cfg key fetcher ttl_opt w) = Ok (data c)
      /\ entries (snd (MemoryCache.get cfg key fetcher ttl_opt w)) = entries w
      /\ calls (snd (MemoryCache.get cfg key fetcher ttl_opt w)) = calls w).
    { intros c fetcher Hc Hlt.
      rewrite (get_hit cfg key fetcher ttl_opt w c En Hc)
        by (unfold MemoryCache.fresh; now apply Z.ltb_lt).
      cbn. auto. }
    assert (Hmiss :
      (forall c, JSMap.get key (entries w) = Some c ->
                 ttl c <= clock w - timestamp c) ->
      calls (snd out) = S (calls w)
      /\ forall v,
           fst (script (calls w)) = Ok v ->
           fst out = Ok v
           /\ JSMap.get key (entries (snd out)) =
              Some (mkEntry v (clock w + snd (script (calls w)))
                      (ttl_or_default ttl_opt (defaultTTL (apiCache w))))).
    { intros Hall.
      destruct (get_miss_scripted cfg key script ttl_opt w En) as [Hcalls Hres].
      - intros c Hc. unfold MemoryCache.fresh. apply Z.ltb_ge. now apply Hall.
      - split; [exact Hcalls|]. intros v Hv. now rewrite Hv in Hres. }
    split; [|split].
    + split.
      * intros (c & Hc & Hr & Hcalls). exists c. split; [assumption|].
        destruct (Z.lt_ge_cases (clock w - timestamp c) (ttl c)) as [|Hge];
          [assumption|exfalso].
        destruct Hmiss as [Hs _].
        { intros c' Hc'. congruence. }
        subst out. lia.
      * intros (c & Hc & Hlt). exists c.
        destruct (Hhit c (scripted script) Hc Hlt) as (H1 & _ & H3). auto.
    + exact Hhit.
    + intros c Hc Hge. apply Hmiss. intros c' Hc'. congruence.
  - (* caching disabled: nothing is stored *)
    pose proof (Hco En) as Hnil. rewrite Hnil. cbn [JSMap.get].
    split; [|split].
    + split; intros (c & Hc & _); discriminate.
    + intros c fetcher Hc; discriminate.
    + intros c Hc; discriminate.
Qed.

(** C2 (fetcher failure).  When the fetcher throws, [get] returns the
    data of the entry it found for the key, expired or not, and it
    propagates the fetcher's error exactly when it found none; the entry
    map is left as it was. *)
Theorem get_fetcher_failure cfg key (script : nat -> Result Data * Z)
  ttl_opt w e :
  coherent cfg w ->
  fst (script (calls w)) = Throw e ->
  let out := MemoryCache.get cfg key (scripted script) ttl_opt w in
  (forall c, JSMap.get key (entries w) = Some c -> fst out = Ok (data c))
  /\ (fst out = Throw e <-> JSMap.get key (entries w) = None)
  /\ entries (snd out) = entries w.
Proof.
  intros Hco He out.
  assert (Hmain :
    fst out = match JSMap.get key (entries w) with
              | Some c => Ok (data c)
              | None => Throw e
              end
    /\ entries (snd out) = entries w).
  { subst out. destruct (enableCache cfg) eqn:En.
    - destruct (JSMap.get key (entries w)) as [c|] eqn:Hc.
      + destruct (MemoryCache.fresh (clock w) c) eqn:Hf.
        * rewrite (get_hit cfg key _ ttl_opt w c En Hc Hf). cbn. auto.
        * destruct (get_miss_scripted cfg key script ttl_opt w En) as [_ H].
          { intros c' Hc'. congruence. }
          rewrite He, Hc in H. tauto.
      + destruct (get_miss_scripted cfg key script ttl_opt w En) as [_ H].
        { intros c' Hc'. congruence. }
        rewrite He, Hc in H. tauto.
    - rewrite get_disabled by assumption. rewrite scripted_run.
      rewrite (Hco En), He. cbn. split; [reflexivity|exact (Hco En)]. }
  destruct Hmain as [Hr Hentries].
  split; [|split].
  - intros c Hc. now rewrite Hr, Hc.
  - rewrite Hr. destruct (JSMap.get key (entries w)); split; intros H;
      try discriminate; reflexivity.
  - exact Hentries.
Qed.

(** ** Capacity *)

Lemma truthy_nonempty (k : string) : k <> "" -> truthy k = true.
Proof.
  intros H. unfold truthy. apply String.eqb_neq in H. now rewrite H.
Qed.

Lemma keys_nonempty_cons k (e : CacheEntry Data) m :
  keys_nonempty ((k, e) :: m) <-> k <> "" /\ keys_nonempty m.
Proof.
  unfold keys_nonempty, JSMap.keys. cbn [map fst]. split.
  - intros H. inversion H; subst. auto.
  - intros [H1 H2]. now constructor.
Qed.

Lemma keys_nonempty_incl (m m' : JSMap.t (CacheEntry Data)) :
  incl (JSMap.keys m') (JSMap.keys m) -> keys_nonempty m -> keys_nonempty m'.
Proof.
  unfold keys_nonempty. rewrite !Forall_forall. intros Hincl H k Hk.
  apply H, Hincl, Hk.
Qed.

Lemma evicted_at_capacity k0 (e0 : CacheEntry Data) rest ms :
  k0 <> "" -> ms <= JSMap.size ((k0, e0) :: rest) ->
  evicted ((k0, e0) :: rest) ms = rest.
Proof.
  intros Hk Hsz. unfold evicted.
  destruct (Z.geb_spec (JSMap.size ((k0, e0) :: rest)) ms); [|lia].
  now rewrite truthy_nonempty.
Qed.

Lemma evicted_below_capacity (m : JSMap.t (CacheEntry Data)) ms :
  JSMap.size m < ms -> evicted m ms = m.
Proof.
  intros Hsz. unfold evicted.
  destruct (Z.geb_spec (JSMap.size m) ms); [lia|reflexivity].
Qed.

Lemma set_evicted_within key (e : CacheEntry Data) m ms :
  1 <= ms -> JSMap.size m <= ms -> keys_nonempty m -> key <> "" ->
  JSMap.size (JSMap.set key e (evicted m ms)) <= ms
  /\ keys_nonempty (JSMap.set key e (evicted m ms)).
Proof.
  intros Hms Hsz Hkeys Hkey.
  assert (Hset : forall m0, keys_nonempty m0 ->
                            keys_nonempty (JSMap.set key e m0)).
  { intros m0 H0. unfold keys_nonempty in *. rewrite Forall_forall in *.
    intros k Hk. destruct (JSMap_keys_set_incl _ _ _ _ Hk); subst; auto. }
  destruct (Z.lt_ge_cases (JSMap.size m) ms) as [Hlt|Hge].
  - rewrite evicted_below_capacity by assumption.
    pose proof (JSMap_size_set_le key e m). split; [lia|auto].
  - destruct m as [|[k0 e0] rest].
    + unfold JSMap.size in Hge. cbn in Hge. lia.
    + apply keys_nonempty_cons in Hkeys as [Hk0 Hrest].
      rewrite evicted_at_capacity by assumption.
      pose proof (JSMap_size_set_le key e rest).
      unfold JSMap.size in *. cbn [List.length] in Hsz.
      split; [lia|auto].
Qed.

(** The cache instance after [get] with a scripted fetcher: untouched,
    or what [set] makes of it. *)
Lemma get_scripted_cache cfg key (script : nat -> Result Data * Z) ttl_opt w :
  apiCache (snd (MemoryCache.get cfg key (scripted script) ttl_opt w))
  = apiCache w
  \/ (enableCache cfg = true
      /\ exists d w1,
           apiCache w1 = apiCache w
           /\ apiCache (snd (MemoryCache.get cfg key (scripted script)
                                ttl_opt w))
              = apiCache (snd (MemoryCache.set cfg key d ttl_opt w1))).
Proof.
  destruct (enableCache cfg) eqn:En.
  - destruct (JSMap.get key (entries w)) as [c|] eqn:Hc.
    + destruct (MemoryCache.fresh (clock w) c) eqn:Hf.
      * left. now rewrite (get_hit cfg key _ ttl_opt w c En Hc Hf).
      * rewrite (get_miss cfg key _ ttl_opt w En)
          by (intros c' Hc'; congruence).
        rewrite scripted_run. destruct (fst (script _)) as [v|e].
        -- right. split; [reflexivity|]. eexists _, _. split; [|reflexivity].
           reflexivity.
        -- left. rewrite Hc. reflexivity.
    + rewrite (get_miss cfg key _ ttl_opt w En)
        by (intros c' Hc'; congruence).
      rewrite scripted_run. destruct (fst (script _)) as [v|e].
      * right. split; [reflexivity|]. eexists _, _. split; [|reflexivity].
        reflexivity.
      * left. rewrite Hc. reflexivity.
  - left. rewrite get_disabled by assumption. now rewrite scripted_run.
Qed.

Lemma set_cache cfg key d ttl_opt w :
  enableCache cfg = true ->
  apiCache (snd (MemoryCache.set cfg key d ttl_opt w)) =
  mkCache (JSMap.set key (entry_at w d ttl_opt)
             (evicted (entries w) (maxSize (apiCache w))))
          (maxSize (apiCache w)) (defaultTTL (apiCache w)).
Proof.
  intros En. destruct (set_run cfg key d ttl_opt w En) as [evs ->].
  reflexivity.
Qed.

(** The invariant behind the capacity bound. *)
Lemma run_op_within cfg (op : Op Data) w :
  1 <= maxSize (apiCache w) ->
  op_key op <> Some "" ->
  within_capacity w /\ keys_nonempty (entries w) ->
  maxSize (apiCache (run_op cfg op w)) = maxSize (apiCache w)
  /\ within_capacity (run_op cfg op w)
  /\ keys_nonempty (entries (run_op cfg op w)).
Proof.
  intros Hms Hkey [Hcap Hkeys]. unfold within_capacity, entries in *.
  assert (Hset : forall key d ttl_opt w1,
    key <> "" -> enableCache cfg = true -> apiCache w1 = apiCache w ->
    let c := apiCache (snd (MemoryCache.set cfg key d ttl_opt w1)) in
    maxSize c = maxSize (apiCache w)
    /\ JSMap.size (cache c) <= maxSize c /\ keys_nonempty (cache c)).
  { intros key d ttl_opt w1 Hk En Hw1 c. subst c.
    rewrite set_cache by assumption. unfold entries. rewrite Hw1.
    cbn [maxSize cache].
    destruct (set_evicted_within key (entry_at w1 d ttl_opt)
                (cache (apiCache w)) (maxSize (apiCache w))); auto. }
  destruct op as [key outcome elapsed ttl_opt|key d ttl_opt|key| | | |elapsed];
    cbn [run_op op_key] in *.
  - destruct (get_scripted_cache cfg key (fun _ => (outcome, elapsed))
                ttl_opt w) as [->|(En & d & w1 & Hw1 & ->)]; [auto|].
    apply Hset; congruence.
  - destruct (enableCache cfg) eqn:En.
    + apply Hset; congruence.
    + rewrite set_disabled by assumption. auto.
  - destruct (delete_run cfg key w) as [evs ->]. cbn.
    pose proof (JSMap_size_delete_le key (entries w)).
    unfold entries in *. split; [reflexivity|split; [lia|]].
    eapply keys_nonempty_incl; [|eassumption].
    intros k. apply JSMap_keys_delete_incl.
  - destruct (clear_run cfg w) as [evs ->]. cbn.
    split; [reflexivity|split; [unfold JSMap.size; cbn; lia|constructor]].
  - destruct (cleanup_run cfg w) as [evs ->]. cbn.
    destruct (cleanup_fold_shrinks (clock w) (entries w) (entries w, 0))
      as [H1 H2]. cbn [fst] in *. unfold entries in *.
    split; [reflexivity|split; [lia|]].
    eapply keys_nonempty_incl; eassumption.
  - auto.
  - auto.
Qed.

Lemma run_ops_within cfg (ops : list (Op Data)) : forall w,
  1 <= maxSize (apiCache w) ->
  ops_keys_nonempty ops ->
  within_capacity w -> keys_nonempty (entries w) ->
  within_capacity (run_ops cfg ops w)
  /\ maxSize (apiCache (run_ops cfg ops w)) = maxSize (apiCache w).
Proof.
  unfold run_ops, ops_keys_nonempty.
  induction ops as [|op ops IH]; intros w Hms Hops Hcap Hkeys; cbn [fold_left].
  - auto.
  - inversion Hops as [|? ? Hop Hops']; subst.
    destruct (run_op_within cfg op w Hms Hop (conj Hcap Hkeys))
      as (Hm & Hc & Hk).
    destruct (IH (run_op cfg op w)) as [H1 H2]; auto; [lia|].
    split; [assumption|congruence].
Qed.

(** C3 (eviction policy), as the code has it.  For a cache of capacity
    at least one whose keys are non-empty strings: (1) after any run of
    operations started within capacity the size is at most [maxSize];
    (2) [set] on a cache at [size == maxSize] removes exactly the entry
    inserted first, whether or not the key is present, and then writes
    the entry, so a key that is not present is admitted as the newest
    entry; (3) [set] with a key that is present on a cache below
    capacity replaces the entry in place: the order of the keys and all
    other entries are unchanged. *)
Theorem set_eviction_policy cfg :
  (forall (ops : list (Op Data)) w,
      1 <= maxSize (apiCache w) ->
      keys_nonempty (entries w) -> ops_keys_nonempty ops ->
      within_capacity w ->
      within_capacity (run_ops cfg ops w))
  /\ (forall key d ttl_opt w k0 e0 rest,
        enableCache cfg = true ->
        entries w = (k0, e0) :: rest -> k0 <> "" ->
        JSMap.size (entries w) = maxSize (apiCache w) ->
        entries (snd (MemoryCache.set cfg key d ttl_opt w))
        = JSMap.set key (entry_at w d ttl_opt) rest
        /\ (JSMap.get key (entries w) = None ->
            entries (snd (MemoryCache.set cfg key d ttl_opt w))
            = (rest ++ [(key, entry_at w d ttl_opt)])%list))
  /\ (forall key d ttl_opt w,
        enableCache cfg = true ->
        JSMap.size (entries w) < maxSize (apiCache w) ->
        JSMap.has key (entries w) = true ->
        let m' := entries (snd (MemoryCache.set cfg key d ttl_opt w)) in
        JSMap.keys m' = JSMap.keys (entries w)
        /\ JSMap.get key m' = Some (entry_at w d ttl_opt)
        /\ forall k, k <> key -> JSMap.get k m' = JSMap.get k (entries w)).
Proof.
  split; [|split].
  - intros ops w Hms Hkeys Hops Hcap.
    now destruct (run_ops_within cfg ops w Hms Hops Hcap Hkeys).
  - intros key d ttl_opt w k0 e0 rest En Hw Hk0 Hfull.
    rewrite set_entries by assumption. rewrite Hw in *.
    rewrite evicted_at_capacity by (assumption || lia).
    split; [reflexivity|]. intros Hnone. apply JSMap_set_absent.
    cbn [JSMap.get] in Hnone. destruct (k0 =? key)%string; [discriminate|].
    assumption.
  - intros key d ttl_opt w En Hlt Hhas m'. subst m'.
    rewrite set_entries by assumption.
    rewrite evicted_below_capacity by assumption.
    split; [now apply JSMap_keys_set_present|].
    split; [apply JSMap_get_set_same|].
    intros k Hk. now apply JSMap_get_set_other.
Qed.

(** ** Caching switched off *)

Lemma run_op_disabled cfg (op : Op Data) w :
  enableCache cfg = false -> entries w = [] ->
  entries (run_op cfg op w) = []
  /\ calls (run_op cfg op w)
     = (calls w + (if is_get op then 1 else 0))%nat.
Proof.
  intros En Hnil.
  destruct op as [key outcome elapsed ttl_opt|key d ttl_opt|key| | | |elapsed];
    cbn [run_op is_get].
  - rewrite get_disabled by assumption. rewrite scripted_run. cbn.
    split; [assumption|lia].
  - rewrite set_disabled by assumption. cbn. split; [assumption|lia].
  - destruct (delete_run cfg key w) as [evs ->]. rewrite Hnil. cbn.
    split; [reflexivity|lia].
  - destruct (clear_run cfg w) as [evs ->]. cbn. split; [reflexivity|lia].
  - destruct (cleanup_run cfg w) as [evs ->]. rewrite Hnil. cbn.
    split; [reflexivity|lia].
  - cbn. split; [assumption|lia].
  - cbn. split; [assumption|lia].
Qed.

Lemma run_ops_disabled cfg (ops : list (Op Data)) : forall w,
  enableCache cfg = false -> entries w = [] ->
  entries (run_ops cfg ops w) = []
  /\ calls (run_ops cfg ops w)
     = (calls w + List.length (filter is_get ops))%nat.
Proof.
  unfold run_ops. induction ops as [|op ops IH]; intros w En Hnil;
    cbn [fold_left filter].
  - split; [assumption|cbn; lia].
  - destruct (run_op_disabled cfg op w En Hnil) as [H1 H2].
    destruct (IH (run_op cfg op w) En H1) as [H3 H4].
    split; [assumption|]. rewrite H4, H2.
    destruct (is_get op); cbn [List.length]; lia.
Qed.

(** The hypothesis [coherent] of C1 and C2 holds of a new cache and is
    kept by every operation. *)
Lemma coherent_new cfg ms dt now n tr :
  coherent cfg (mkWorld (MemoryCache.new (Data := Data) cfg ms dt) now n tr).
Proof. intros _. reflexivity. Qed.

Lemma coherent_run_ops cfg (ops : list (Op Data)) w :
  coherent cfg w -> coherent cfg (run_ops cfg ops w).
Proof.
  intros Hco En. now destruct (run_ops_disabled cfg ops w En (Hco En)).
Qed.

(** C8 (cache-disabled bypass).  With [enableCache] off, [get] is the
    call of the fetcher and nothing else, so a scripted fetcher is
    invoked once per [get] and the entry map is not touched; [set] does
    nothing; and an empty entry map is still empty after any run of
    operations, in which every [get] has invoked its fetcher. *)
Theorem cache_disabled_bypass cfg :
  enableCache cfg = false ->
  (forall key (fetcher : M Data Data) ttl_opt w,
      MemoryCache.get cfg key fetcher ttl_opt w = fetcher w)
  /\ (forall key (script : nat -> Result Data * Z) ttl_opt w,
        let out := MemoryCache.get cfg key (scripted script) ttl_opt w in
        fst out = fst (script (calls w))
        /\ calls (snd out) = S (calls w)
        /\ entries (snd out) = entries w)
  /\ (forall key d ttl_opt w,
        MemoryCache.set cfg key d ttl_opt w = (Ok tt, w))
  /\ (forall (ops : list (Op Data)) w,
        entries w = [] ->
        entries (run_ops cfg ops w) = []
        /\ calls (run_ops cfg ops w)
           = (calls w + List.length (filter is_get ops))%nat).
Proof.
  intros En. split; [|split; [|split]].
  - intros. now apply get_disabled.
  - intros key script ttl_opt w out. subst out.
    rewrite get_disabled by assumption. rewrite scripted_run. cbn. auto.
  - intros. now apply set_disabled.
  - intros ops w Hnil. now apply run_ops_disabled.
Qed.

End MemoryCacheFacts.
(* ================================================================== *)
(** * Properties of the error boundary and of the retry loop           *)
(* ================================================================== *)

Section ErrorFacts.
Context {Data : Type}.
Implicit Types (w : World Data).

Lemma report_error_run context error w :
  report_error context error w = (Ok tt, logged (report_events context error) w).
Proof.
  unfold report_error, report_events.
  destruct (isAuthError error).
  - unfold bind, emit, logged. cbn. now rewrite <- app_assoc.
  - destruct error; unfold bind, emit, ret, logged; cbn;
      rewrite <- ?app_assoc; reflexivity.
Qed.

Lemma report_events_level context error :
  report_events context error <> []
  /\ Forall (fun ev => level_of ev
                       = Some (if isAuthError error then LWarn else LError))
            (report_events context error).
Proof.
  unfold report_events. destruct (isAuthError error).
  - split; [discriminate|]. repeat constructor.
  - split; [discriminate|]. destruct error; repeat constructor.
Qed.

Lemma withErrorBoundary_run {T} (operation : M Data T) (fallback : T)
  (context : option string) w :
  withErrorBoundary operation fallback context w
  = match operation w with
    | (Ok v, w1) => (Ok v, w1)
    | (Throw error, w1) =>
        (Ok fallback, logged (report_events context error) w1)
    end.
Proof.
  unfold withErrorBoundary, try_catch.
  destruct (operation w) as [[v|error] w1]; [reflexivity|].
  unfold bind. now rewrite report_error_run.
Qed.

Lemma isAuthError_spec error :
  isAuthError error = true
  <-> exists message endpoint, error = APIError message 401 endpoint.
Proof.
  split.
  - destruct error as [m s ep| | | | |]; cbn; try discriminate.
    intros H. apply Z.eqb_eq in H. subst s. eauto.
  - intros (m & ep & ->). reflexivity.
Qed.

(** C7 (error boundary).  [withErrorBoundary] resolves to the result of
    the operation when the operation succeeds.  When the operation
    throws, whatever it throws, the boundary resolves to the fallback and
    never rejects.  For an [APIError] with status 401 it prints two
    lines, both with [console.warn]; for every other thrown value what it
    prints starts with the [console.error] line that carries the error,
    and all of it is printed with [console.error]. *)
Theorem withErrorBoundary_fallback {T} (operation : M Data T) (fallback : T)
  (context : option string) w :
  match operation w with
  | (Ok v, w1) =>
      withErrorBoundary operation fallback context w = (Ok v, w1)
  | (Throw error, w1) =>
      withErrorBoundary operation fallback context w
      = (Ok fallback, logged (report_events context error) w1)
      /\ report_events context error <> []
      /\ Forall (fun ev => level_of ev
                           = Some (if isAuthError error then LWarn
                                   else LError))
                (report_events context error)
      /\ (forall message endpoint,
            error = APIError message 401 endpoint ->
            withErrorBoundary operation fallback context w
            = (Ok fallback,
               logged
                 [Console LWarn
                    ("🔐 Authentication failed in "
                       ++ context_or_unknown context ++ ": " ++ message)
                    None;
                  Console LWarn
                    "💡 This is expected in development when Strapi is not running or API token is not configured"
                    None]
                 w1))
      /\ ((forall message endpoint,
             error <> APIError message 401 endpoint) ->
          exists rest,
            withErrorBoundary operation fallback context w
            = (Ok fallback,
               logged
                 (Console LError
                    ("❌ Error in " ++ context_or_unknown context ++ ":")
                    (Some error)
                  :: rest)
                 w1)
            /\ Forall (fun ev => level_of ev = Some LError) rest)
  end.
Proof.
  rewrite withErrorBoundary_run.
  destruct (operation w) as [[v|error] w1]; [reflexivity|].
  split; [reflexivity|].
  split; [apply report_events_level|].
  split; [apply report_events_level|]. split.
  - intros message endpoint ->. reflexivity.
  - intros Hne. unfold report_events.
    destruct (isAuthError error) eqn:Hauth.
    + apply isAuthError_spec in Hauth. destruct Hauth as (m & ep & ->).
      now destruct (Hne m ep).
    + eexists. split; [reflexivity|]. destruct error; repeat constructor.
Qed.

Lemma scripted_called {T} (script : nat -> Result T * Z) w :
  scripted script w = (fst (script (calls w)), called script w).
Proof. unfold scripted, called. now destruct (script (calls w)). Qed.

(** An [APIError] with a 4xx status ends the loop at once, on any turn. *)
Lemma retry_loop_client_error {T} (script : nat -> Result T * Z)
  maxRetries baseDelay n attempt lastError w e :
  fst (script (calls w)) = Throw e ->
  isAPIClientError e = true ->
  retry_loop (scripted script) maxRetries baseDelay (S n) attempt lastError w
  = (Throw e, called script w).
Proof.
  intros He Hc. cbn [retry_loop]. unfold try_catch.
  rewrite scripted_called, He, Hc. reflexivity.
Qed.

Lemma retry_client_error {T} (script : nat -> Result T * Z)
  maxRetries baseDelay w e :
  0 <= maxRetries ->
  fst (script (calls w)) = Throw e ->
  isAPIClientError e = true ->
  retryWithBackoff (scripted script) maxRetries baseDelay w
  = (Throw e, called script w).
Proof.
  intros Hm He Hc. unfold retryWithBackoff.
  replace (Z.to_nat (maxRetries + 1)) with (S (Z.to_nat maxRetries)) by lia.
  now apply retry_loop_client_error.
Qed.

Lemma nonRetryable_is_client e :
  nonRetryableClientError e = true -> isAPIClientError e = true.
Proof.
  destruct e; cbn; try discriminate.
  intros H. now apply andb_true_iff in H.
Qed.

(** C6 (non-retryable short-circuit).  When [fn] fails with a 4xx error
    other than 429, [retryWithBackoff] with [maxRetries >= 0] rethrows
    that error after the one invocation: the world is the one right
    after the first call, so no timer was set and [fn] was not called
    again. *)
Theorem retry_non_retryable_short_circuit {T}
  (script : nat -> Result T * Z) maxRetries baseDelay w e :
  0 <= maxRetries ->
  fst (script (calls w)) = Throw e ->
  nonRetryableClientError e = true ->
  retryWithBackoff (scripted script) maxRetries baseDelay w
  = (Throw e, called script w)
  /\ calls (called script w) = S (calls w)
  /\ timeouts (trace (called script w)) = timeouts (trace w).
Proof.
  intros Hm He Hn. split; [|split].
  - apply retry_client_error; auto using nonRetryable_is_client.
  - reflexivity.
  - unfold called. cbn [trace].
    induction (trace w) as [|ev tr IH]; [reflexivity|].
    destruct ev; cbn; now rewrite ?IH.
Qed.

Lemma timeouts_app (a b : list Event) :
  timeouts (a ++ b) = (timeouts a ++ timeouts b)%list.
Proof.
  induction a as [|ev a IH]; [reflexivity|].
  destruct ev; cbn; now rewrite IH.
Qed.

Lemma retry_loop_step {T} (script : nat -> Result T * Z)
  maxRetries baseDelay n attempt lastError w e :
  fst (script (calls w)) = Throw e ->
  isAPIClientError e = false ->
  attempt <> maxRetries ->
  retry_loop (scripted script) maxRetries baseDelay (S n) attempt lastError w
  = retry_loop (scripted script) maxRetries baseDelay n (attempt + 1)
               (Some e) (retried script baseDelay attempt w).
Proof.
  intros He Hc Hne. cbn [retry_loop]. unfold try_catch.
  rewrite scripted_called, He, Hc.
  apply Z.eqb_neq in Hne. rewrite Hne.
  unfold bind, emit, sleep, called, retried.
  cbn [apiCache clock calls trace]. rewrite <- !app_assoc. reflexivity.
Qed.

Lemma retry_loop_last {T} (script : nat -> Result T * Z)
  maxRetries baseDelay n lastError w e :
  fst (script (calls w)) = Throw e ->
  retry_loop (scripted script) maxRetries baseDelay (S n) maxRetries
             lastError w
  = (Throw e, called script w).
Proof.
  intros He. cbn [retry_loop]. unfold try_catch.
  rewrite scripted_called, He, Z.eqb_refl.
  now destruct (isAPIClientError e).
Qed.

(** A callback that keeps failing with errors that are not 4xx
    [APIError]s is called on every turn of the loop, with the backoff
    delay before each further turn, and the error of the last call is
    rethrown. *)
Lemma retry_loop_exhausts {T} (script : nat -> Result T * Z)
  maxRetries baseDelay :
  (forall i, exists e, fst (script i) = Throw e
                       /\ isAPIClientError e = false) ->
  forall n attempt lastError w,
    maxRetries = attempt + Z.of_nat n ->
    let out := retry_loop (scripted script) maxRetries baseDelay (S n)
                          attempt lastError w in
    fst out = fst (script (calls w + n)%nat)
    /\ calls (snd out) = (calls w + S n)%nat
    /\ timeouts (trace (snd out))
       = (timeouts (trace w)
          ++ map (fun i => baseDelay * 2 ^ (attempt + Z.of_nat i))
                 (seq 0 n))%list.
Proof.
  intros Hfail. induction n as [|n IH]; intros attempt lastError w Hm out;
    subst out; destruct (Hfail (calls w)) as (e & He & Hc).
  - replace attempt with maxRetries by lia.
    rewrite (retry_loop_last script maxRetries baseDelay 0 lastError w e He).
    cbn [fst snd]. rewrite Nat.add_0_r, He.
    split; [reflexivity|]. split; [cbn; lia|].
    unfold called. cbn [trace seq map]. rewrite timeouts_app. reflexivity.
  - rewrite (retry_loop_step script maxRetries baseDelay (S n) attempt
               lastError w e He Hc) by lia.
    specialize (IH (attempt + 1) (Some e) (retried script baseDelay attempt w)).
    destruct IH as (H1 & H2 & H3); [lia|].
    rewrite H1, H2, H3. unfold retried. cbn [calls trace].
    split; [f_equal; f_equal; lia|]. split; [lia|].
    rewrite !timeouts_app. cbn [timeouts seq map app].
    rewrite <- !app_assoc. f_equal. cbn [app]. rewrite Z.add_0_r.
    f_equal. rewrite <- seq_shift, map_map.
    apply map_ext. intros i. f_equal. f_equal. lia.
Qed.

Lemma retry_exhausts {T} (script : nat -> Result T * Z)
  maxRetries baseDelay w :
  0 <= maxRetries ->
  (forall i, exists e, fst (script i) = Throw e
                       /\ isAPIClientError e = false) ->
  let out := retryWithBackoff (scripted script) maxRetries baseDelay w in
  fst out = fst (script (calls w + Z.to_nat maxRetries)%nat)
  /\ calls (snd out) = (calls w + Z.to_nat maxRetries + 1)%nat
  /\ timeouts (trace (snd out))
     = (timeouts (trace w)
        ++ backoff_delays baseDelay (Z.to_nat maxRetries))%list.
Proof.
  intros Hm Hfail out. subst out. unfold retryWithBackoff.
  replace (Z.to_nat (maxRetries + 1)) with (S (Z.to_nat maxRetries)) by lia.
  destruct (retry_loop_exhausts script maxRetries baseDelay Hfail
              (Z.to_nat maxRetries) 0 None w) as (H1 & H2 & H3); [lia|].
  rewrite H1, H2, H3. split; [reflexivity|]. split; [lia|].
  reflexivity.
Qed.

End ErrorFacts.
(* ================================================================== *)
(** * Properties of [ContentManager]                                   *)
(* ================================================================== *)

Section ContentManagerFacts.
Variable toLowerCase : string -> string.
Variable cfg : Config.
Variable self : ContentManager.
Implicit Types (w : World Value) (strapiUtils : StrapiUtils).

Lemma bind_pure {A B} (c : M Value A) (f : A -> B) w :
  (x <- c;; ret (f x)) w = (map_result f (fst (c w)), snd (c w)).
Proof. unfold bind, ret. now destruct (c w) as [[a|e] w']. Qed.

Lemma has_tag_spec tag post :
  ContentManager.has_tag tag post = true
  <-> exists tags, PostData.tags (entry_data post) = Some tags /\ In tag tags.
Proof.
  unfold ContentManager.has_tag, array_includes.
  destruct (PostData.tags (entry_data post)) as [tags|].
  - rewrite existsb_exists. split.
    + intros (y & Hy & Heq). apply String.eqb_eq in Heq. subst.
      eauto.
    + intros (tags' & [= <-] & Hin). exists tag.
      now rewrite String.eqb_refl.
  - split; [discriminate|]. intros (tags & H & _). discriminate.
Qed.

Lemma in_category_spec category post :
  ContentManager.in_category category post = true
  <-> PostData.category (entry_data post) = Some category.
Proof.
  unfold ContentManager.in_category.
  destruct (PostData.category (entry_data post)) as [c|].
  - rewrite String.eqb_eq. split; congruence.
  - split; discriminate.
Qed.

Lemma slice_page {A} (l : list A) start size :
  0 <= start -> 0 <= size ->
  slice l start (start + size)
  = firstn (Z.to_nat size) (skipn (Z.to_nat start) l).
Proof.
  intros Hs Hz. unfold slice.
  destruct (Z.ltb_spec start 0); [lia|].
  destruct (Z.ltb_spec (start + size) 0); [lia|].
  set (len := Z.of_nat (List.length l)).
  destruct (Z.le_gt_cases len start) as [Hout|Hin].
  - rewrite (Z.min_r start len) by lia.
    rewrite !skipn_all2 by (subst len; lia).
    now rewrite !firstn_nil.
  - rewrite (Z.min_l start len) by lia.
    destruct (Z.le_gt_cases (start + size) len) as [Hfit|Hcut].
    + rewrite (Z.min_l (start + size) len) by lia. f_equal. lia.
    + rewrite (Z.min_r (start + size) len) by lia.
      rewrite !firstn_all2; [reflexivity| |];
        rewrite length_skipn; subst len; lia.
Qed.

Lemma ceil_div_spec total pageSize :
  1 <= pageSize ->
  exists n, ceil_div total pageSize = Num n
            /\ (n - 1) * pageSize < total <= n * pageSize.
Proof.
  intros Hp. unfold ceil_div.
  destruct (Z.eqb_spec pageSize 0); [lia|].
  eexists; split; [reflexivity|].
  pose proof (Z.div_mod (- total) pageSize ltac:(lia)) as Hdm.
  pose proof (Z.mod_pos_bound (- total) pageSize ltac:(lia)) as Hb.
  nia.
Qed.

(** C9 (derived reads).  Every derived read of [ContentManager] runs
    [getSortedPosts] once and applies a pure function to the collection
    it resolves to: result and final world are those of the one
    [getSortedPosts], so no derived view fetches or caches on its own.
    [getPostsByTag] keeps exactly the posts whose tags include the tag,
    [getPostsByCategory] exactly those whose category is the given one,
    and for a page number and a page size of at least one
    [getPaginatedPosts] returns the [pageSize] posts from index
    [(page - 1) * pageSize] on (fewer at the end of the collection),
    [total] the length of the collection and
    [totalPages = ceil(total / pageSize)]. *)
Theorem derived_reads_are_views strapiUtils w tag category page pageSize query :
  let sorted := ContentManager.getSortedPosts cfg strapiUtils self w in
  (ContentManager.getPostsByTag cfg strapiUtils self tag w
   = (map_result (filter (ContentManager.has_tag tag)) (fst sorted),
      snd sorted)
   /\ ContentManager.getPostsByCategory cfg strapiUtils self category w
      = (map_result (filter (ContentManager.in_category category))
                    (fst sorted), snd sorted)
   /\ ContentManager.getPaginatedPosts cfg strapiUtils self page pageSize w
      = (map_result (ContentManager.paginate page pageSize) (fst sorted),
         snd sorted)
   /\ ContentManager.searchPosts toLowerCase cfg strapiUtils self query w
      = (map_result
           (filter (ContentManager.matches toLowerCase (toLowerCase query)))
           (fst sorted), snd sorted)
   /\ ContentManager.getPostCount cfg strapiUtils self w
      = (map_result (fun posts => Z.of_nat (List.length posts)) (fst sorted),
         snd sorted))
  /\ (forall allPosts post,
        In post (filter (ContentManager.has_tag tag) allPosts)
        <-> In post allPosts
            /\ exists tags, PostData.tags (entry_data post) = Some tags
                            /\ In tag tags)
  /\ (forall allPosts post,
        In post (filter (ContentManager.in_category category) allPosts)
        <-> In post allPosts
            /\ PostData.category (entry_data post) = Some category)
  /\ (forall allPosts,
        let p := ContentManager.paginate page pageSize allPosts in
        page_posts p
        = slice allPosts ((page - 1) * pageSize)
                ((page - 1) * pageSize + pageSize)
        /\ page_total p = Z.of_nat (List.length allPosts)
        /\ page_totalPages p = ceil_div (page_total p) pageSize
        /\ page_currentPage p = page)
  /\ (forall allPosts,
        1 <= page -> 1 <= pageSize ->
        let p := ContentManager.paginate page pageSize allPosts in
        page_posts p
        = firstn (Z.to_nat pageSize)
                 (skipn (Z.to_nat ((page - 1) * pageSize)) allPosts)
        /\ Z.of_nat (List.length (page_posts p)) <= pageSize
        /\ exists n, page_totalPages p = Num n
                     /\ (n - 1) * pageSize < page_total p <= n * pageSize).
Proof.
  intros sorted. subst sorted.
  split; [|split; [|split; [|split]]].
  - unfold ContentManager.getPostsByTag, ContentManager.getPostsByCategory,
      ContentManager.getPaginatedPosts, ContentManager.searchPosts,
      ContentManager.getPostCount.
    rewrite !bind_pure. auto.
  - intros allPosts post. rewrite filter_In, has_tag_spec. reflexivity.
  - intros allPosts post. rewrite filter_In, in_category_spec. reflexivity.
  - intros allPosts p. subst p. unfold ContentManager.paginate.
    cbn [page_posts page_total page_totalPages page_currentPage].
    repeat split.
  - intros allPosts Hpage Hsize p. subst p. unfold ContentManager.paginate.
    cbn [page_posts page_total page_totalPages].
    rewrite slice_page by nia.
    split; [reflexivity|]. split; [|now apply ceil_div_spec].
    rewrite length_firstn. lia.
Qed.

(** ** The error boundary inside the thunk *)

Lemma fetchStrapiPosts_run strapiUtils w :
  ContentManager.fetchStrapiPosts cfg strapiUtils self w
  = match utils_getSortedPosts strapiUtils
            (logged (info_events cfg "正在从Strapi获取文章列表...") w)
    with
    | (Ok posts, w1) =>
        (Ok posts,
         logged (if enableDebugLogs cfg
                 then [Console LLog
                         ("✅ " ++ "从Strapi获取到 "
                            ++ show_Z (Z.of_nat (List.length posts))
                            ++ " 篇文章") None]
                 else []) w1)
    | (Throw error, w1) =>
        (Ok [], logged (report_events (Some "fetchStrapiPosts") error) w1)
    end.
Proof.
  unfold ContentManager.fetchStrapiPosts. rewrite withErrorBoundary_run.
  unfold bind at 1. rewrite logger_info_run. unfold bind at 1.
  destruct (utils_getSortedPosts strapiUtils _) as [[posts|error] w1].
  - unfold bind, logger.success, ret.
    destruct (enableDebugLogs cfg); [reflexivity|now rewrite logged_nil].
  - now destruct (enableFallback (options self)).
Qed.

Lemma fetchStrapiPostBySlug_run strapiUtils slug w :
  ContentManager.fetchStrapiPostBySlug cfg strapiUtils slug w
  = match utils_getPostBySlug strapiUtils slug
            (logged (info_events cfg ("正在从Strapi获取文章: " ++ slug)) w)
    with
    | (Ok (Some p), w1) =>
        (Ok (VPost p),
         logged (if enableDebugLogs cfg
                 then [Console LLog
                         ("✅ " ++ "成功获取文章: "
                            ++ PostData.title (entry_data p)) None]
                 else []) w1)
    | (Ok None, w1) =>
        (Ok VNull,
         logged [Console LWarn ("⚠️ " ++ "未找到文章: " ++ slug) None] w1)
    | (Throw error, w1) =>
        (Ok VUndefined,
         logged (report_events (Some "fetchStrapiPostBySlug") error) w1)
    end.
Proof.
  unfold ContentManager.fetchStrapiPostBySlug. rewrite withErrorBoundary_run.
  unfold bind at 1. rewrite logger_info_run. unfold bind at 1.
  destruct (utils_getPostBySlug strapiUtils slug _) as [[[p|]|error] w1];
    [| |reflexivity].
  - unfold bind, logger.success, ret.
    destruct (enableDebugLogs cfg); [reflexivity|now rewrite logged_nil].
  - reflexivity.
Qed.

Lemma fetchStrapiPosts_never_throws strapiUtils w :
  exists posts w',
    ContentManager.fetchStrapiPosts cfg strapiUtils self w = (Ok posts, w').
Proof.
  rewrite fetchStrapiPosts_run.
  destruct (utils_getSortedPosts strapiUtils _) as [[posts|error] w1]; eauto.
Qed.

Lemma fetchStrapiPostBySlug_never_throws strapiUtils slug w :
  exists v w',
    ContentManager.fetchStrapiPostBySlug cfg strapiUtils slug w = (Ok v, w').
Proof.
  rewrite fetchStrapiPostBySlug_run.
  destruct (utils_getPostBySlug strapiUtils slug _) as [[[p|]|error] w1];
    eauto.
Qed.

(** [get] with a fetcher that resolves: the value is stored and
    returned. *)
Lemma get_miss_resolved key (fetcher : M Value Value) ttl_opt w d w1 :
  enableCache cfg = true ->
  (forall c, JSMap.get key (entries w) = Some c ->
             MemoryCache.fresh (clock w) c = false) ->
  fetcher (logged (info_events cfg ("Cache miss for key: " ++ key)) w)
  = (Ok d, w1) ->
  MemoryCache.get cfg key fetcher ttl_opt w
  = (Ok d, snd (MemoryCache.set cfg key d ttl_opt w1))
  /\ JSMap.get key (entries (snd (MemoryCache.set cfg key d ttl_opt w1)))
     = Some (entry_at w1 d ttl_opt).
Proof.
  intros En Hmiss Hf. rewrite (get_miss cfg key fetcher ttl_opt w En Hmiss), Hf.
  split; [reflexivity|]. rewrite set_entries by assumption.
  apply JSMap_get_set_same.
Qed.

Lemma stale_warning_not_info key evs :
  Forall (fun ev => level_of ev = Some LLog) evs ->
  ~ In (stale_warning key) evs.
Proof.
  intros H Hin. rewrite Forall_forall in H. specialize (H _ Hin).
  discriminate.
Qed.

Lemma stale_warning_not_reported key context error :
  ~ In (stale_warning key) (report_events context error).
Proof.
  unfold report_events, stale_warning.
  destruct (isAuthError error).
  - cbn. intros [H|[H|[]]]; discriminate.
  - destruct error; cbn; intros H;
      repeat (destruct H as [H|H]; try discriminate); assumption.
Qed.

(** What a failing scripted upstream leaves behind when the thunk
    [fetcher] (the boundary around it) was run by [get] on a miss. *)
Lemma get_boundary_failure key (fetcher : M Value Value) ttl_opt w
  (fallback : Value) context (elapsed : Z) error message :
  enableCache cfg = true ->
  (forall c, JSMap.get key (entries w) = Some c ->
             MemoryCache.fresh (clock w) c = false) ->
  fetcher (logged (info_events cfg ("Cache miss for key: " ++ key)) w)
  = (Ok fallback,
     logged (report_events context error)
       (mkWorld (apiCache w) (clock w + elapsed) (S (calls w))
          ((trace w ++ info_events cfg ("Cache miss for key: " ++ key))
             ++ info_events cfg message ++ [Called (calls w)])%list)) ->
  let out := MemoryCache.get cfg key fetcher ttl_opt w in
  fst out = Ok fallback
  /\ calls (snd out) = S (calls w)
  /\ JSMap.get key (entries (snd out))
     = Some (mkEntry fallback (clock w + elapsed)
               (ttl_or_default ttl_opt (defaultTTL (apiCache w))))
  /\ exists evs, trace (snd out) = (trace w ++ evs)%list
                 /\ ~ In (stale_warning key) evs.
Proof.
  intros En Hmiss Hf out. subst out.
  destruct (get_miss_resolved key fetcher ttl_opt w _ _ En Hmiss Hf)
    as [-> Hentry].
  cbn [fst snd]. split; [reflexivity|].
  rewrite Hentry.
  destruct (set_run_levels cfg key fallback ttl_opt
              (logged (report_events context error)
                 (mkWorld (apiCache w) (clock w + elapsed) (S (calls w))
                    ((trace w
                        ++ info_events cfg ("Cache miss for key: " ++ key))
                       ++ info_events cfg message ++ [Called (calls w)])%list))
              En) as (evs & Hlv & ->).
  cbn [snd calls logged with_cache trace].
  split; [reflexivity|]. split; [reflexivity|].
  eexists. split.
  - rewrite <- !app_assoc. reflexivity.
  - rewrite !in_app_iff. intros [H|[H|[H|[H|H]]]].
    + eapply stale_warning_not_info; [apply info_events_level|exact H].
    + eapply stale_warning_not_info; [apply info_events_level|exact H].
    + destruct H as [H|[]]. discriminate.
    + eapply stale_warning_not_reported; exact H.
    + eapply stale_warning_not_info; [exact Hlv|exact H].
Qed.

Lemma fresh_false_of_expired (c : CacheEntry Value) now :
  ttl c <= now - timestamp c -> MemoryCache.fresh now c = false.
Proof. intros H. unfold MemoryCache.fresh. now apply Z.ltb_ge. Qed.

End ContentManagerFacts.
(* ================================================================== *)
(** * The code on concrete inputs                                      *)
(* ================================================================== *)

(** The specification's scenario: capacity 2, insert [a], [b], [c]: [a]
    is evicted; after 1100 ms [get "b"] calls the fetcher and stores the
    new value; the size stays 2. *)
Example scenario_eviction :
  let w3 := run_ops sample_config
              [OpSet "a" 1%nat None; OpWait 1; OpSet "b" 2%nat None; OpWait 1;
               OpSet "c" 3%nat None] empty_world in
  let w4 := run_ops sample_config
              [OpWait 1100; OpGet "b" (Ok 7%nat) 5 None] w3 in
  JSMap.keys (entries w3) = ["b"; "c"]
  /\ JSMap.keys (entries w4) = ["c"; "b"]
  /\ JSMap.get "b" (entries w4) = Some (mkEntry 7%nat 1107 1000)
  /\ calls w4 = 1%nat.
Proof. vm_compute. repeat split. Qed.

(** C3, as stated, fails: [set] with a key that is present evicts
    another entry when the cache is full.  The cache of capacity 2 holds
    [a] and [b]; [set("b", 3)] removes [a]. *)
Lemma set_existing_key_evicts :
  JSMap.has "b" (entries full_world) = true
  /\ JSMap.has "a" (entries full_world) = true
  /\ JSMap.has "a"
       (entries (snd (MemoryCache.set sample_config "b" 3%nat None full_world)))
     = false
  /\ JSMap.keys
       (entries (snd (MemoryCache.set sample_config "b" 3%nat None full_world)))
     = ["b"].
Proof. vm_compute. repeat split. Qed.

(** Outside the conditions of [set_eviction_policy]: an entry under the
    empty key is never evicted (the test [if (oldestKey)] takes [""] for
    [undefined]), so the cache grows beyond [maxSize]. *)
Lemma set_empty_key_not_evicted :
  let w := run_ops sample_config
             [OpSet "" 1%nat None; OpSet "b" 2%nat None; OpSet "c" 3%nat None]
             empty_world in
  JSMap.keys (entries w) = [""; "b"; "c"]
  /\ maxSize (apiCache w) = 2.
Proof. vm_compute. repeat split. Qed.

(** Outside the conditions of [set_eviction_policy]: with [maxSize = 0]
    there is nothing to evict and [set] stores all the same. *)
Lemma set_zero_capacity :
  let w := snd (MemoryCache.set sample_config "a" 1%nat None
                  (mkWorld (mkCache [] 0 1000) 0 0 [])) in
  JSMap.size (entries w) = 1 /\ maxSize (apiCache w) = 0.
Proof. vm_compute. repeat split. Qed.

(** The specification's timing example on a status the code does
    retry: [retryWithBackoff(fn, 3, 100)] with [fn] always failing with
    status 500 calls [fn] four times with delays 100, 200, 400. *)
Example retry_500_timing :
  let out := retryWithBackoff (scripted always_500) 3 100 empty_world in
  fst out = fst (always_500 3%nat)
  /\ calls (snd out) = 4%nat
  /\ timeouts (trace (snd out)) = [100; 200; 400].
Proof. vm_compute. repeat split. Qed.

(** C4 on the code, at the failing input.  Status 429 is retryable
    ([isRetryable]), yet [retryWithBackoff(fn, 3, 100)] with [fn] always
    failing with status 429 calls [fn] once, sets no timer and rethrows:
    the loop tests [isClientError], which holds of 429. *)
Theorem retry_always_429_single_call :
  let out := retryWithBackoff (scripted always_429) 3 100 empty_world in
  retryable (APIError "Too Many Requests" 429 (Some "/articles")) = true
  /\ fst out = Throw (APIError "Too Many Requests" 429 (Some "/articles"))
  /\ calls (snd out) = 1%nat
  /\ timeouts (trace (snd out)) = [].
Proof. vm_compute. repeat split. Qed.

(** C5 on the code, at the failing input.  [isRetryable] is true of
    status 429, but when [fn] fails once with status 429 and would then
    succeed, [retryWithBackoff(fn, 1, 100)] (and likewise with three
    retries) calls [fn] once and rethrows the 429 error. *)
Theorem retry_once_429_rethrows :
  let out1 := retryWithBackoff (scripted once_429) 1 100 empty_world in
  let out3 := retryWithBackoff (scripted once_429) 3 100 empty_world in
  isRetryable 429 = true
  /\ isClientError 429 = true
  /\ fst out1 = Throw (APIError "Too Many Requests" 429 (Some "/articles"))
  /\ calls (snd out1) = 1%nat
  /\ fst out3 = Throw (APIError "Too Many Requests" 429 (Some "/articles"))
  /\ calls (snd out3) = 1%nat
  /\ fst (once_429 1%nat) = Ok 7%nat.
Proof. vm_compute. repeat split. Qed.

(* ================================================================== *)
(** * The theorems at concrete inputs                                  *)
(* ================================================================== *)

Lemma get_ttl_validity_witness :
  coherent sample_config full_world
  /\ ((exists c, JSMap.get "a" (entries full_world) = Some c
                 /\ fst (MemoryCache.get sample_config "a"
                           (scripted resolves_7) None full_world)
                    = Ok (data c)
                 /\ calls (snd (MemoryCache.get sample_config "a"
                                  (scripted resolves_7) None full_world))
                    = calls full_world)
      <->
      (exists c, JSMap.get "a" (entries full_world) = Some c
                 /\ clock full_world - timestamp c < ttl c)).
Proof.
  assert (H : coherent sample_config full_world) by (intros H; discriminate H).
  split; [exact H|].
  exact (proj1 (get_ttl_validity sample_config "a" resolves_7 None
                  full_world H)).
Defined.

Lemma get_fetcher_failure_witness :
  coherent sample_config expired_world
  /\ fst (rejects (calls expired_world)) = Throw (NetworkError "fetch failed")
  /\ (forall c, JSMap.get "a" (entries expired_world) = Some c ->
                fst (MemoryCache.get sample_config "a" (scripted rejects)
                       None expired_world) = Ok (data c)).
Proof.
  assert (H : coherent sample_config expired_world)
    by (intros H; discriminate H).
  split; [exact H|]. split; [reflexivity|].
  exact (proj1 (get_fetcher_failure sample_config "a" rejects None
                  expired_world (NetworkError "fetch failed") H eq_refl)).
Defined.

Lemma set_eviction_policy_witness :
  within_capacity
    (run_ops sample_config
       [OpSet "a" 1%nat None; OpSet "b" 2%nat None; OpSet "c" 3%nat None;
        OpGet "d" (Ok 4%nat) 5 None; OpCleanup; OpDelete "c"]
       empty_world)
  /\ entries (snd (MemoryCache.set sample_config "c" 3%nat None full_world))
     = [("b", mkEntry 2%nat 1 1000); ("c", mkEntry 3%nat 2 1000)]
  /\ JSMap.keys
       (entries (snd (MemoryCache.set sample_config "a" 9%nat None
                        roomy_world)))
     = ["a"; "b"].
Proof.
  destruct (set_eviction_policy (Data := nat) sample_config) as (H1 & H2 & H3).
  split; [|split].
  - apply H1.
    + vm_compute. discriminate.
    + constructor.
    + repeat constructor; discriminate.
    + vm_compute. discriminate.
  - refine (proj2 (H2 "c" 3%nat None full_world "a" (mkEntry 1%nat 0 1000)
                      [("b", mkEntry 2%nat 1 1000)] eq_refl eq_refl _ eq_refl)
                  eq_refl).
    discriminate.
  - refine (proj1 (H3 "a" 9%nat None roomy_world eq_refl _ eq_refl)).
    vm_compute. reflexivity.
Defined.

Lemma retry_non_retryable_short_circuit_witness :
  0 <= 3
  /\ nonRetryableClientError (APIError "Not Found" 404 (Some "/articles"))
     = true
  /\ retryWithBackoff (scripted always_404) 3 100 empty_world
     = (Throw (APIError "Not Found" 404 (Some "/articles")),
        called always_404 empty_world).
Proof.
  split; [lia|]. split; [reflexivity|].
  refine (proj1 (retry_non_retryable_short_circuit always_404 3 100
                   empty_world (APIError "Not Found" 404 (Some "/articles"))
                   _ eq_refl eq_refl)).
  lia.
Defined.

Lemma cache_disabled_bypass_witness :
  enableCache sample_config_off = false
  /\ entries (run_ops sample_config_off
                [OpGet "a" (Ok 1%nat) 5 None; OpSet "b" 2%nat None;
                 OpGet "a" (Ok 1%nat) 5 None]
                empty_world) = []
  /\ calls (run_ops sample_config_off
              [OpGet "a" (Ok 1%nat) 5 None; OpSet "b" 2%nat None;
               OpGet "a" (Ok 1%nat) 5 None]
              empty_world) = 2%nat.
Proof.
  split; [reflexivity|].
  exact (proj2 (proj2 (proj2 (cache_disabled_bypass (Data := nat)
                                sample_config_off eq_refl)))
               [OpGet "a" (Ok 1%nat) 5 None; OpSet "b" 2%nat None;
                OpGet "a" (Ok 1%nat) 5 None]
               empty_world eq_refl).
Defined.

Lemma derived_reads_are_views_witness :
  1 <= 2 /\ 1 <= 1
  /\ page_posts (ContentManager.paginate 2 1 [post_a; post_b]) = [post_b]
  /\ Z.of_nat (List.length
                 (page_posts (ContentManager.paginate 2 1 [post_a; post_b])))
     <= 1.
Proof.
  split; [lia|]. split; [lia|].
  pose proof (proj2 (proj2 (proj2 (proj2
                (derived_reads_are_views (fun s => s) sample_config
                   sample_manager
                   (mkUtils (scripted failing_list)
                            (fun _ => scripted failing_post))
                   empty_content_world "news" "tech" 2 1 "hello"))))
              [post_a; post_b]) as H.
  destruct H as (H1 & H2 & _); [lia|lia|].
  split; [exact H1|exact H2].
Defined.


(* ================================================================== *)
(** * Further properties of the insertion-ordered map                  *)
(* ================================================================== *)

Section MoreJSMapFacts.
Context {V : Type}.
Implicit Types (m : JSMap.t V) (k key : string) (v : V).

Lemma JSMap_get_none_iff key m :
  JSMap.get key m = None <-> ~ In key (JSMap.keys m).
Proof.
  unfold JSMap.keys. induction m as [|[k v] m IH]; cbn.
  - tauto.
  - destruct (String.eqb_spec k key) as [->|Hne].
    + split; [discriminate|]. intros H. exfalso. auto.
    + rewrite IH. tauto.
Qed.

Lemma JSMap_get_in key v m :
  JSMap.get key m = Some v -> In (key, v) m.
Proof.
  induction m as [|[k v0] m IH]; cbn; [discriminate|].
  destruct (String.eqb_spec k key) as [->|Hne].
  - intros [= ->]. auto.
  - auto.
Qed.

Lemma JSMap_in_get key v m :
  NoDup (JSMap.keys m) -> In (key, v) m -> JSMap.get key m = Some v.
Proof.
  unfold JSMap.keys. induction m as [|[k v0] m IH]; cbn; [tauto|].
  intros Hnd [H|H].
  - injection H as -> ->. now rewrite String.eqb_refl.
  - inversion Hnd as [|? ? Hnotin Hnd']; subst.
    destruct (String.eqb_spec k key) as [->|Hne].
    + exfalso. apply Hnotin. now apply (in_map fst) in H.
    + auto.
Qed.

Lemma JSMap_keys_set key v m :
  JSMap.keys (JSMap.set key v m)
  = if JSMap.has key m then JSMap.keys m else (JSMap.keys m ++ [key])%list.
Proof.
  unfold JSMap.has, JSMap.keys. induction m as [|[k v0] m IH]; cbn.
  - reflexivity.
  - destruct (k =? key)%string; cbn; [reflexivity|].
    rewrite IH. now destruct (JSMap.get key m).
Qed.

Lemma JSMap_set_nodup key v m :
  NoDup (JSMap.keys m) -> NoDup (JSMap.keys (JSMap.set key v m)).
Proof.
  intros Hnd. rewrite JSMap_keys_set. unfold JSMap.has.
  destruct (JSMap.get key m) eqn:E; [assumption|].
  apply JSMap_get_none_iff in E.
  apply NoDup_app; [assumption|repeat constructor; intros []|].
  intros x Hx [<-|[]]. contradiction.
Qed.

Lemma JSMap_delete_filter key m :
  NoDup (JSMap.keys m) ->
  JSMap.delete key m = filter (fun kv => negb (fst kv =? key)%string) m.
Proof.
  unfold JSMap.keys. induction m as [|[k v] m IH]; cbn; [reflexivity|].
  intros Hnd. inversion Hnd as [|? ? Hnotin Hnd']; subst.
  destruct (String.eqb_spec k key) as [->|Hne]; cbn.
  - symmetry. apply forallb_filter_id. apply forallb_forall.
    intros [k' v'] Hin. cbn. apply negb_true_iff, String.eqb_neq.
    intros ->. apply Hnotin. now apply (in_map fst) in Hin.
  - now rewrite IH.
Qed.

Lemma JSMap_filter_nodup (f : string * V -> bool) m :
  NoDup (JSMap.keys m) -> NoDup (JSMap.keys (filter f m)).
Proof.
  unfold JSMap.keys. induction m as [|[k v] m IH]; cbn; [auto|].
  intros Hnd. inversion Hnd as [|? ? Hnotin Hnd']; subst.
  destruct (f (k, v)); cbn; auto.
  constructor; auto. intros Hin. apply Hnotin.
  apply in_map_iff in Hin as ([k' v'] & Hk & Hin). cbn in Hk. subst.
  apply filter_In in Hin as [Hin _]. now apply (in_map fst) in Hin.
Qed.

Lemma JSMap_delete_nodup key m :
  NoDup (JSMap.keys m) -> NoDup (JSMap.keys (JSMap.delete key m)).
Proof.
  intros Hnd. rewrite JSMap_delete_filter by assumption.
  now apply JSMap_filter_nodup.
Qed.

Lemma JSMap_get_delete_same key m :
  NoDup (JSMap.keys m) -> JSMap.get key (JSMap.delete key m) = None.
Proof.
  intros Hnd. apply JSMap_get_none_iff.
  rewrite JSMap_delete_filter by assumption. unfold JSMap.keys.
  intros Hin. apply in_map_iff in Hin as ([k v] & Hk & Hin). cbn in Hk. subst.
  apply filter_In in Hin as [_ Hf]. cbn in Hf.
  now rewrite String.eqb_refl in Hf.
Qed.

Lemma JSMap_get_delete_other key k m :
  k <> key -> JSMap.get k (JSMap.delete key m) = JSMap.get k m.
Proof.
  intros Hk. induction m as [|[k0 v0] m IH]; cbn; [reflexivity|].
  destruct (String.eqb_spec k0 key) as [->|Hne].
  - destruct (String.eqb_spec key k); congruence.
  - cbn. now rewrite IH.
Qed.

Lemma JSMap_size_delete key m :
  JSMap.size (JSMap.delete key m)
  = JSMap.size m - (if JSMap.has key m then 1 else 0).
Proof.
  unfold JSMap.size, JSMap.has.
  induction m as [|[k v] m IH]; cbn [JSMap.delete JSMap.get List.length].
  - reflexivity.
  - destruct (k =? key)%string; cbn [List.length]; [lia|].
    destruct (JSMap.get key m); lia.
Qed.

End MoreJSMapFacts.

(* ================================================================== *)
(** * Further properties of [MemoryCache]                              *)
(* ================================================================== *)

Section MoreCacheFacts.
Context {Data : Type}.
Implicit Types (w : World Data) (cfg : Config) (key : string) (d : Data).

(** X1.  What [set] stores is served by [get] for exactly its ttl: a
    [get] for the same key [elapsed] ms later returns the stored data
    without calling the fetcher when [elapsed] is below the effective ttl
    ([ttl || defaultTTL]), and calls the fetcher otherwise; in
    particular an entry whose effective ttl is not positive is never
    served. *)
Theorem set_then_get cfg key d ttl_opt ttl_opt'
  (script : nat -> Result Data * Z) elapsed w :
  enableCache cfg = true ->
  let effective := ttl_or_default ttl_opt (defaultTTL (apiCache w)) in
  let w1 := wait elapsed (snd (MemoryCache.set cfg key d ttl_opt w)) in
  let out := MemoryCache.get cfg key (scripted script) ttl_opt' w1 in
  (elapsed < effective ->
   fst out = Ok d /\ calls (snd out) = calls w
   /\ entries (snd out) = entries w1)
  /\ (effective <= elapsed -> calls (snd out) = S (calls w)).
Proof.
  intros En effective w1 out.
  assert (Hget : JSMap.get key (entries w1) = Some (entry_at w d ttl_opt)).
  { subst w1. unfold wait, entries. cbn [apiCache].
    fold (entries (snd (MemoryCache.set cfg key d ttl_opt w))).
    rewrite set_entries by assumption. apply JSMap_get_set_same. }
  destruct (set_frame cfg key d ttl_opt w) as (_ & Hclock & Hcalls & _).
  assert (Hc1 : clock w1 = clock w + elapsed)
    by (subst w1; unfold wait; cbn [clock]; now rewrite Hclock).
  assert (Hn1 : calls w1 = calls w)
    by (subst w1; unfold wait; cbn [calls]; exact Hcalls).
  clearbody w1. subst effective.
  split.
  - intros Hlt. subst out.
    rewrite (get_hit cfg key _ ttl_opt' w1 _ En Hget).
    + cbn. auto.
    + unfold MemoryCache.fresh, entry_at. cbn [timestamp ttl].
      apply Z.ltb_lt. lia.
  - intros Hge. subst out.
    destruct (get_miss_scripted cfg key script ttl_opt' w1 En) as [H _].
    + intros c Hc. rewrite Hget in Hc. injection Hc as <-.
      unfold MemoryCache.fresh, entry_at. cbn [timestamp ttl].
      apply Z.ltb_ge. lia.
    + now rewrite H, Hn1.
Qed.

(** X2.  [delete] answers whether the key was present; afterwards the
    key is absent, every other key has the entry it had, the size went
    down by one exactly when the key was present, and the keys are
    still distinct. *)
Theorem delete_removes cfg key w :
  distinct_keys w ->
  let out := MemoryCache.delete cfg key w in
  fst out = Ok (JSMap.has key (entries w))
  /\ JSMap.get key (entries (snd out)) = None
  /\ (forall k, k <> key ->
                JSMap.get k (entries (snd out)) = JSMap.get k (entries w))
  /\ JSMap.size (entries (snd out))
     = JSMap.size (entries w) - (if JSMap.has key (entries w) then 1 else 0)
  /\ distinct_keys (snd out).
Proof.
  intros Hnd out. subst out.
  destruct (delete_run cfg key w) as [evs ->]. cbn [fst snd].
  unfold distinct_keys, entries in *. cbn [logged with_cache apiCache cache].
  split; [reflexivity|]. split; [now apply JSMap_get_delete_same|].
  split; [intros k Hk; now apply JSMap_get_delete_other|].
  split; [apply JSMap_size_delete|now apply JSMap_delete_nodup].
Qed.

Lemma filter_twice {A} (f g : A -> bool) (l : list A) :
  filter f (filter g l) = filter (fun x => g x && f x) l.
Proof.
  induction l as [|x l IH]; [reflexivity|]. cbn [filter].
  destruct (g x); cbn [filter andb]; now rewrite IH.
Qed.

Lemma cleanup_fold_filter now (l : JSMap.t (CacheEntry Data)) :
  forall m n,
    NoDup (JSMap.keys m) ->
    fold_left (MemoryCache.cleanup_step now) l (m, n)
    = (filter (fun kv =>
                 negb (existsb (fun ke =>
                                  (fst ke =? fst kv)%string
                                  && negb (MemoryCache.fresh now (snd ke)))
                               l)) m,
       n + Z.of_nat (List.length (expired_entries now l))).
Proof.
  induction l as [|[k e] l IH]; intros m n Hnd; cbn [fold_left].
  - cbn. f_equal; [|lia]. symmetry. apply forallb_filter_id.
    apply forallb_forall. reflexivity.
  - assert (Hstep :
      MemoryCache.cleanup_step now (m, n) (k, e)
      = if MemoryCache.fresh now e then (m, n)
        else (JSMap.delete k m, n + 1)).
    { unfold MemoryCache.cleanup_step, MemoryCache.fresh.
      destruct (Z.ltb_spec (now - timestamp e) (ttl e)),
               (Z.leb_spec (ttl e) (now - timestamp e));
        try reflexivity; lia. }
    rewrite Hstep. unfold expired_entries. cbn [filter snd].
    fold (expired_entries now l).
    destruct (MemoryCache.fresh now e) eqn:Hf; cbn [negb].
    + rewrite IH by assumption. f_equal.
      apply filter_ext. intros [k' e']. cbn [existsb fst snd].
      now rewrite Hf, andb_false_r.
    + rewrite IH by now apply JSMap_delete_nodup.
      rewrite JSMap_delete_filter by assumption.
      cbn [List.length]. f_equal; [|lia].
      rewrite filter_twice. apply filter_ext. intros [k' e'].
      cbn [existsb fst snd]. rewrite Hf. cbn [negb].
      rewrite andb_true_r, (String.eqb_sym k k').
      now destruct (k' =? k)%string.
Qed.

Lemma cleanup_filter_self now (m : JSMap.t (CacheEntry Data)) :
  NoDup (JSMap.keys m) ->
  filter (fun kv =>
            negb (existsb (fun ke =>
                             (fst ke =? fst kv)%string
                             && negb (MemoryCache.fresh now (snd ke)))
                          m)) m
  = fresh_entries now m.
Proof.
  intros Hnd. unfold fresh_entries. apply filter_ext_in.
  intros [k e] Hin. cbn [fst snd].
  destruct (MemoryCache.fresh now e) eqn:Hf.
  - apply negb_true_iff. apply not_true_is_false. intros Hex.
    apply existsb_exists in Hex as ([k' e'] & Hin' & Hb). cbn in Hb.
    apply andb_true_iff in Hb as [Hk He]. apply String.eqb_eq in Hk. subst k'.
    pose proof (JSMap_in_get _ _ _ Hnd Hin) as H1.
    pose proof (JSMap_in_get _ _ _ Hnd Hin') as H2.
    rewrite H1 in H2. injection H2 as <-. now rewrite Hf in He.
  - apply negb_false_iff. apply existsb_exists. exists (k, e).
    split; [assumption|]. cbn. now rewrite String.eqb_refl, Hf.
Qed.

(** X3.  [cleanup] removes exactly the entries that have expired at the
    time of the sweep: the fresh entries stay, in their order; the
    number returned is the number of expired entries; every entry left
    is fresh. *)
Theorem cleanup_removes_expired cfg w :
  distinct_keys w ->
  let out := MemoryCache.cleanup cfg w in
  entries (snd out) = fresh_entries (clock w) (entries w)
  /\ fst out = Ok (JSMap.size (expired_entries (clock w) (entries w)))
  /\ JSMap.size (entries (snd out))
     = JSMap.size (entries w)
       - JSMap.size (expired_entries (clock w) (entries w))
  /\ (forall k e, In (k, e) (entries (snd out)) ->
                  clock w - timestamp e < ttl e).
Proof.
  intros Hnd out. subst out.
  destruct (cleanup_run cfg w) as [evs ->]. cbn [fst snd].
  unfold distinct_keys in Hnd.
  rewrite (cleanup_fold_filter (clock w) (entries w) (entries w) 0 Hnd).
  cbn [fst snd]. rewrite cleanup_filter_self by assumption.
  unfold entries in *. cbn [logged with_cache apiCache cache].
  split; [reflexivity|]. split; [reflexivity|]. split.
  - unfold JSMap.size, fresh_entries, expired_entries.
    pose proof (filter_length (fun ke => MemoryCache.fresh (clock w) (snd ke))
                  (cache (apiCache w))) as H.
    lia.
  - intros k e Hin. unfold fresh_entries in Hin.
    apply filter_In in Hin as [_ Hf]. cbn in Hf.
    unfold MemoryCache.fresh in Hf. now apply Z.ltb_lt.
Qed.

Lemma stats_step_fields now stats oldestTime newestTime key
  (entry : CacheEntry Data) :
  let older := match oldestTime with
               | None => true
               | Some t => timestamp entry <? t
               end in
  let newer := newestTime <? timestamp entry in
  let out := MemoryCache.stats_step now (stats, oldestTime, newestTime)
                                    (key, entry) in
  totalEntries (fst (fst out)) = totalEntries stats
  /\ stats_maxSize (fst (fst out)) = stats_maxSize stats
  /\ validEntries (fst (fst out))
     = validEntries stats + (if MemoryCache.fresh now entry then 1 else 0)
  /\ expiredEntries (fst (fst out))
     = expiredEntries stats + (if MemoryCache.fresh now entry then 0 else 1)
  /\ oldestEntry (fst (fst out))
     = (if older then Some key else oldestEntry stats)
  /\ snd (fst out)
     = (if older then Some (timestamp entry) else oldestTime)
  /\ newestEntry (fst (fst out))
     = (if newer then Some key else newestEntry stats)
  /\ snd out = (if newer then timestamp entry else newestTime).
Proof.
  unfold MemoryCache.stats_step, MemoryCache.fresh.
  destruct (now - timestamp entry <? ttl entry);
    destruct oldestTime as [t|];
    [destruct (timestamp entry <? t)| |destruct (timestamp entry <? t)|];
    destruct (newestTime <? timestamp entry); cbn; repeat split; lia.
Qed.

Lemma stats_step_invariant now seen acc (ke : string * CacheEntry Data) :
  stats_invariant now seen acc ->
  stats_invariant now (seen ++ [ke])%list (MemoryCache.stats_step now acc ke).
Proof.
  destruct acc as [[stats oldestTime] newestTime]. destruct ke as [key entry].
  pose proof (stats_step_fields now stats oldestTime newestTime key entry)
    as (_ & _ & Hva' & Hex' & Hold' & HoT' & Hnew' & HnT').
  destruct (MemoryCache.stats_step now (stats, oldestTime, newestTime)
              (key, entry)) as [[stats' oldestTime'] newestTime'].
  cbn [fst snd] in *. unfold stats_invariant.
  intros (Hva & Hex & Hold & Hnew).
  assert (Hin : forall k' e',
            In (k', e') (seen ++ [(key, entry)])%list ->
            In (k', e') seen \/ (k', e') = (key, entry)).
  { intros k' e' H. apply in_app_iff in H. cbn in H. intuition congruence. }
  assert (Hin_old : forall k' e',
            In (k', e') seen -> In (k', e') (seen ++ [(key, entry)])%list).
  { intros. apply in_app_iff. auto. }
  assert (Hin_new : In (key, entry) (seen ++ [(key, entry)])%list).
  { apply in_app_iff. cbn. auto. }
  split; [|split; [|split]].
  - rewrite Hva', Hva. unfold fresh_entries, JSMap.size.
    rewrite filter_app, length_app. cbn [filter snd].
    destruct (MemoryCache.fresh now entry); cbn [List.length]; lia.
  - rewrite Hex', Hex. unfold expired_entries, JSMap.size.
    rewrite filter_app, length_app. cbn [filter snd].
    destruct (MemoryCache.fresh now entry); cbn [List.length negb]; lia.
  - rewrite HoT', Hold'. destruct oldestTime as [t|].
    + destruct Hold as (k0 & e0 & Hk0 & Hin0 & Ht0 & Hmin0).
      destruct (Z.ltb_spec (timestamp entry) t).
      * exists key, entry. split; [reflexivity|]. split; [auto|].
        split; [reflexivity|]. intros k' e' Hk'.
        apply Hin in Hk' as [Hk'|[= -> ->]]; [|lia].
        specialize (Hmin0 _ _ Hk'). lia.
      * exists k0, e0. split; [assumption|]. split; [auto|].
        split; [assumption|]. intros k' e' Hk'.
        apply Hin in Hk' as [Hk'|[= -> ->]]; [now apply (Hmin0 k')|lia].
    + destruct Hold as [-> _]. exists key, entry.
      split; [reflexivity|]. split; [now left|]. split; [reflexivity|].
      intros k' e' [[= -> ->]|[]]. lia.
  - rewrite HnT', Hnew'.
    destruct (Z.ltb_spec newestTime (timestamp entry)) as [Hlt|Hge].
    + right. assert (0 < timestamp entry) by (destruct Hnew as [(H0 & _)|(H0 & _)]; lia).
      split; [assumption|]. exists key, entry.
      split; [reflexivity|]. split; [auto|]. split; [reflexivity|].
      intros k' e' Hk'. apply Hin in Hk' as [Hk'|[= -> ->]]; [|lia].
      destruct Hnew as [(H0 & _ & Hmax)|(H0 & k1 & e1 & _ & _ & _ & Hmax)];
        specialize (Hmax _ _ Hk'); lia.
    + destruct Hnew as [(H0 & Hnone & Hmax)|(H0 & k1 & e1 & Hk1 & Hin1 & Ht1 & Hmax)].
      * left. split; [assumption|]. split; [assumption|].
        intros k' e' Hk'. apply Hin in Hk' as [Hk'|[= -> ->]];
          [now apply (Hmax k')|lia].
      * right. split; [assumption|]. exists k1, e1.
        split; [assumption|]. split; [auto|]. split; [assumption|].
        intros k' e' Hk'. apply Hin in Hk' as [Hk'|[= -> ->]];
          [now apply (Hmax k')|lia].
Qed.

Lemma stats_fold_invariant now (l : JSMap.t (CacheEntry Data)) :
  forall seen acc,
    stats_invariant now seen acc ->
    stats_invariant now (seen ++ l)%list
                    (fold_left (MemoryCache.stats_step now) l acc)
    /\ totalEntries (fst (fst (fold_left (MemoryCache.stats_step now) l acc)))
       = totalEntries (fst (fst acc))
    /\ stats_maxSize (fst (fst (fold_left (MemoryCache.stats_step now) l acc)))
       = stats_maxSize (fst (fst acc)).
Proof.
  induction l as [|ke l IH]; intros seen acc Hinv; cbn [fold_left].
  - rewrite app_nil_r. auto.
  - destruct (IH (seen ++ [ke])%list (MemoryCache.stats_step now acc ke))
      as (H1 & H2 & H3).
    { now apply stats_step_invariant. }
    rewrite <- app_assoc in H1. cbn [app] in H1.
    split; [assumption|]. destruct acc as [[stats oT] nT], ke as [key entry].
    pose proof (stats_step_fields now stats oT nT key entry)
      as (Ht & Hm & _).
    cbn [fst snd] in *. split; congruence.
Qed.

(** X4.  [getStats] changes nothing and reports: the size of the map as
    [totalEntries]; the numbers of entries that are fresh and that have
    expired at the time of the call, which add up to [totalEntries]; as
    [oldestEntry] the key of an entry with the least timestamp, and
    [null] only for an empty cache; as [newestEntry] the key of an entry
    with the greatest timestamp, provided that timestamp is positive,
    and [null] when no entry has a positive timestamp. *)
Theorem getStats_reports w :
  let out := MemoryCache.getStats w in
  snd out = w
  /\ exists stats,
       fst out = Ok stats
       /\ totalEntries stats = JSMap.size (entries w)
       /\ stats_maxSize stats = maxSize (apiCache w)
       /\ validEntries stats
          = JSMap.size (fresh_entries (clock w) (entries w))
       /\ expiredEntries stats
          = JSMap.size (expired_entries (clock w) (entries w))
       /\ validEntries stats + expiredEntries stats = totalEntries stats
       /\ (oldestEntry stats = None <-> entries w = [])
       /\ (forall k, oldestEntry stats = Some k ->
                     exists e, In (k, e) (entries w)
                               /\ forall k' e', In (k', e') (entries w) ->
                                                timestamp e <= timestamp e')
       /\ (forall k, newestEntry stats = Some k ->
                     exists e, In (k, e) (entries w) /\ 0 < timestamp e
                               /\ forall k' e', In (k', e') (entries w) ->
                                                timestamp e' <= timestamp e)
       /\ (newestEntry stats = None ->
           forall k' e', In (k', e') (entries w) -> timestamp e' <= 0).
Proof.
  intros out. subst out.
  unfold MemoryCache.getStats, bind, MemoryCache.this, Date_now, ret.
  cbn [fst snd]. split; [reflexivity|].
  fold (entries w).
  set (acc0 := (mkStats (JSMap.size (entries w)) (maxSize (apiCache w)) 0 0
                        None None, @None Z, 0)).
  destruct (stats_fold_invariant (clock w) (entries w) [] acc0)
    as (Hinv & Htot & Hms).
  { unfold stats_invariant, acc0. cbn. repeat split; auto.
    left. repeat split; auto. intros k' e' []. }
  cbn [app] in Hinv. subst acc0.
  destruct (fold_left (MemoryCache.stats_step (clock w)) (entries w) _)
    as [[stats oT] nT].
  cbn [fst snd totalEntries stats_maxSize] in *. destruct Hinv as (Hva & Hex & Hold & Hnew).
  exists stats. split; [reflexivity|].
  split; [exact Htot|]. split; [exact Hms|].
  split; [exact Hva|]. split; [exact Hex|]. split.
  { rewrite Hva, Hex, Htot. unfold JSMap.size, fresh_entries, expired_entries.
    pose proof (filter_length
                  (fun ke => MemoryCache.fresh (clock w) (snd ke)) (entries w)).
    lia. }
  split; [|split; [|split]].
  - destruct oT as [t|].
    + destruct Hold as (k & e & Hk & Hin & _). rewrite Hk.
      split; [discriminate|]. intros Hnil. rewrite Hnil in Hin. destruct Hin.
    + tauto.
  - intros k Hk. destruct oT as [t|].
    + destruct Hold as (k0 & e & Hk0 & Hin & Ht & Hmin).
      exists e. rewrite Hk in Hk0. injection Hk0 as <-.
      split; [assumption|]. intros k' e' Hin'. rewrite Ht. now apply (Hmin k').
    + destruct Hold as [_ Hnone]. congruence.
  - intros k Hk.
    destruct Hnew as [(_ & Hnone & _)|(Hpos & k1 & e1 & Hk1 & Hin1 & Ht1 & Hmax)];
      [congruence|].
    exists e1. rewrite Hk in Hk1. injection Hk1 as <-.
    split; [assumption|]. split; [lia|].
    intros k' e' Hin'. rewrite Ht1. now apply (Hmax k').
  - intros Hnone.
    destruct Hnew as [(_ & _ & Hmax)|(_ & k1 & e1 & Hk1 & _)];
      [assumption|congruence].
Qed.

Lemma evicted_nodup (m : JSMap.t (CacheEntry Data)) ms :
  NoDup (JSMap.keys m) -> NoDup (JSMap.keys (evicted m ms)).
Proof.
  intros Hnd. unfold evicted. destruct (JSMap.size m >=? ms); [|assumption].
  destruct m as [|[k0 e0] rest]; [assumption|].
  destruct (truthy k0); [|assumption].
  unfold JSMap.keys in *. cbn in Hnd. now inversion Hnd.
Qed.

Lemma run_op_distinct cfg (op : Op Data) w :
  distinct_keys w -> distinct_keys (run_op cfg op w).
Proof.
  unfold distinct_keys, entries. intros Hnd.
  assert (Hset : forall key d ttl_opt w1,
    enableCache cfg = true -> apiCache w1 = apiCache w ->
    NoDup (JSMap.keys
             (cache (apiCache (snd (MemoryCache.set cfg key d ttl_opt w1)))))).
  { intros key d ttl_opt w1 En Hw1. rewrite set_cache by assumption.
    unfold entries. rewrite Hw1. cbn [cache].
    now apply JSMap_set_nodup, evicted_nodup. }
  destruct op as [key outcome elapsed ttl_opt|key d ttl_opt|key| | | |elapsed];
    cbn [run_op].
  - destruct (get_scripted_cache cfg key (fun _ => (outcome, elapsed))
                ttl_opt w) as [->|(En & d & w1 & Hw1 & ->)]; auto.
  - destruct (enableCache cfg) eqn:En; [now apply Hset|].
    now rewrite set_disabled.
  - destruct (delete_run cfg key w) as [evs ->]. cbn.
    now apply JSMap_delete_nodup.
  - destruct (clear_run cfg w) as [evs ->]. cbn. constructor.
  - destruct (cleanup_run cfg w) as [evs ->]. cbn [snd].
    rewrite (cleanup_fold_filter (clock w) (entries w) (entries w) 0 Hnd).
    cbn. now apply JSMap_filter_nodup.
  - assumption.
  - assumption.
Qed.

(** X5.  The cache never holds two entries under one key: starting from
    distinct keys (in particular from a new cache), the keys are
    distinct after any run of operations. *)
Theorem keys_stay_distinct cfg (ops : list (Op Data)) w :
  distinct_keys w -> distinct_keys (run_ops cfg ops w).
Proof.
  unfold run_ops. revert w.
  induction ops as [|op ops IH]; intros w Hnd; cbn [fold_left];
    [assumption|].
  now apply IH, run_op_distinct.
Qed.

(** X6.  [clear] empties the entry map and keeps the parameters of the
    cache; with caching on, the next [get], for any key, calls its
    fetcher. *)
Theorem clear_empties cfg w :
  let w' := snd (MemoryCache.clear cfg w) in
  fst (MemoryCache.clear cfg w) = Ok tt
  /\ entries w' = []
  /\ maxSize (apiCache w') = maxSize (apiCache w)
  /\ defaultTTL (apiCache w') = defaultTTL (apiCache w)
  /\ clock w' = clock w
  /\ (enableCache cfg = true ->
      forall key (script : nat -> Result Data * Z) ttl_opt,
        calls (snd (MemoryCache.get cfg key (scripted script) ttl_opt w'))
        = S (calls w)).
Proof.
  destruct (clear_run cfg w) as [evs Hrun]. rewrite Hrun. cbn [fst snd].
  repeat (split; [reflexivity|]).
  intros En key script ttl_opt.
  destruct (get_miss_scripted cfg key script ttl_opt
              (logged evs (with_cache [] w)) En) as [H _].
  - intros c Hc. discriminate Hc.
  - exact H.
Qed.

End MoreCacheFacts.

(* ================================================================== *)
(** * Properties of [generateCacheKey]                                 *)
(* ================================================================== *)

Section CacheKeyFacts.

Lemma ascii_compare_refl (a : ascii) : Ascii.compare a a = Eq.
Proof. unfold Ascii.compare. apply N.compare_refl. Qed.

Lemma string_leb_trans (s1 s2 s3 : string) :
  String.leb s1 s2 = true -> String.leb s2 s3 = true ->
  String.leb s1 s3 = true.
Proof.
  unfold String.leb. revert s2 s3.
  induction s1 as [|c1 s1 IH]; intros [|c2 s2] [|c3 s3]; cbn;
    try reflexivity; try discriminate.
  unfold Ascii.compare.
  destruct (N.compare_spec (N_of_ascii c1) (N_of_ascii c2)) as [E12|L12|G12];
    destruct (N.compare_spec (N_of_ascii c2) (N_of_ascii c3)) as [E23|L23|G23];
    try discriminate; intros H12 H23.
  - rewrite E12, E23, N.compare_refl. now apply (IH s2 s3).
  - rewrite E12. apply N.compare_lt_iff in L23. now rewrite L23.
  - rewrite <- E23. apply N.compare_lt_iff in L12. now rewrite L12.
  - assert (H : (N_of_ascii c1 ?= N_of_ascii c3)%N = Lt)
      by (apply N.compare_lt_iff; lia).
    now rewrite H.
Qed.

(** Sorted by [String.leb]. *)
Lemma insert_sorted_perm k l : Permutation.Permutation (insert_sorted k l) (k :: l).
Proof.
  induction l as [|x l IH]; cbn; [apply Permutation.Permutation_refl|].
  destruct (String.leb k x); [apply Permutation.Permutation_refl|].
  eapply Permutation.perm_trans; [apply Permutation.perm_skip, IH|].
  apply Permutation.perm_swap.
Qed.

Lemma sort_keys_perm l : Permutation.Permutation (sort_keys l) l.
Proof.
  induction l as [|k l IH]; cbn; [constructor|].
  eapply Permutation.perm_trans; [apply insert_sorted_perm|].
  now apply Permutation.perm_skip.
Qed.

Lemma insert_sorted_sorted k l :
  Sorted.StronglySorted (fun a b => String.leb a b = true) l ->
  Sorted.StronglySorted (fun a b => String.leb a b = true)
                        (insert_sorted k l).
Proof.
  induction 1 as [|x l Hs IH Hall]; cbn.
  - repeat constructor.
  - destruct (String.leb k x) eqn:Hkx.
    + constructor; [now constructor|]. constructor; [assumption|].
      rewrite Forall_forall in *. intros y Hy.
      eapply string_leb_trans; [exact Hkx|now apply Hall].
    + constructor; [assumption|].
      assert (Hxk : String.leb x k = true)
        by (destruct (String.leb_total k x); congruence).
      rewrite Forall_forall in *. intros y Hy.
      apply (Permutation.Permutation_in _ (insert_sorted_perm k l)) in Hy.
      destruct Hy as [<-|Hy]; auto.
Qed.

Lemma sort_keys_sorted l :
  Sorted.StronglySorted (fun a b => String.leb a b = true) (sort_keys l).
Proof.
  induction l as [|k l IH]; cbn; [constructor|].
  now apply insert_sorted_sorted.
Qed.

Lemma sorted_perm_unique (l1 : list string) : forall l2,
  Sorted.StronglySorted (fun a b => String.leb a b = true) l1 ->
  Sorted.StronglySorted (fun a b => String.leb a b = true) l2 ->
  Permutation.Permutation l1 l2 -> l1 = l2.
Proof.
  induction l1 as [|a l1 IH]; intros l2 H1 H2 Hp.
  - apply Permutation.Permutation_nil in Hp. now subst.
  - destruct l2 as [|b l2].
    + apply Permutation.Permutation_sym, Permutation.Permutation_nil in Hp.
      discriminate.
    + inversion H1 as [|? ? Hs1 Ha]; subst.
      inversion H2 as [|? ? Hs2 Hb]; subst.
      rewrite Forall_forall in Ha, Hb.
      assert (a = b).
      { assert (Hab : In a (b :: l2))
          by (apply (Permutation.Permutation_in _ Hp); now left).
        assert (Hba : In b (a :: l1))
          by (apply (Permutation.Permutation_in _
                       (Permutation.Permutation_sym Hp)); now left).
        destruct Hab as [->|Hab]; [reflexivity|].
        destruct Hba as [->|Hba]; [reflexivity|].
        apply String.leb_antisym; auto. }
      subst b. f_equal. apply IH; auto.
      now apply Permutation.Permutation_cons_inv in Hp.
Qed.

Lemma sort_keys_permutation l l' :
  Permutation.Permutation l l' -> sort_keys l = sort_keys l'.
Proof.
  intros Hp. apply sorted_perm_unique; try apply sort_keys_sorted.
  eapply Permutation.perm_trans; [apply sort_keys_perm|].
  eapply Permutation.perm_trans; [exact Hp|].
  apply Permutation.Permutation_sym, sort_keys_perm.
Qed.

Lemma param_in key v (params : Params) :
  NoDup (map fst params) -> In (key, v) params -> param key params = v.
Proof.
  induction params as [|[k v0] params IH]; cbn; [tauto|].
  intros Hnd [H|H].
  - injection H as -> ->. now rewrite String.eqb_refl.
  - inversion Hnd as [|? ? Hnotin Hnd']; subst.
    destruct (String.eqb_spec k key) as [->|Hne]; [|auto].
    exfalso. apply Hnotin. now apply (in_map fst) in H.
Qed.

(** X7.  The cache key does not depend on the order in which the
    parameters are written: two parameter lists with distinct names that
    are permutations of one another give the same key; without
    parameters the key is the prefix. *)
Theorem generateCacheKey_order_independent prefix (params params' : Params) :
  NoDup (map fst params) ->
  Permutation.Permutation params params' ->
  generateCacheKey prefix params = generateCacheKey prefix params'
  /\ generateCacheKey prefix [] = prefix.
Proof.
  intros Hnd Hp. split; [|reflexivity].
  unfold generateCacheKey.
  assert (Hnd' : NoDup (map fst params')).
  { eapply Permutation.Permutation_NoDup; [|exact Hnd].
    now apply Permutation.Permutation_map. }
  rewrite (sort_keys_permutation (map fst params) (map fst params'))
    by now apply Permutation.Permutation_map.
  replace (map (fun key => key ++ "=" ++ param key params)
               (sort_keys (map fst params')))
    with (map (fun key => key ++ "=" ++ param key params')
              (sort_keys (map fst params'))); [reflexivity|].
  apply map_ext_in. intros key Hkey.
  apply (Permutation.Permutation_in _ (sort_keys_perm _)) in Hkey.
  apply in_map_iff in Hkey as ([k v] & Hk & Hin). cbn in Hk. subst k.
  rewrite (param_in key v params' Hnd' Hin).
  rewrite (param_in key v params Hnd); [reflexivity|].
  apply (Permutation.Permutation_in _ (Permutation.Permutation_sym Hp)), Hin.
Qed.

End CacheKeyFacts.

(* ================================================================== *)
(** * Further properties of the error taxonomy and of the retry loop   *)
(* ================================================================== *)

Section MoreErrorFacts.
Context {Data : Type}.
Implicit Types (w : World Data).

(** X8.  The two classifications of [APIError] overlap in one status
    only: [isRetryable] and [isClientError] both hold exactly of 429;
    neither holds exactly of the statuses below 400. *)
Theorem status_classification (status : Z) :
  (isRetryable status && isClientError status = true <-> status = 429)
  /\ (isRetryable status || isClientError status = false <-> status < 400).
Proof.
  unfold isRetryable, isClientError. split.
  - rewrite andb_true_iff, orb_true_iff, andb_true_iff.
    rewrite !Z.leb_le, Z.ltb_lt, Z.eqb_eq. lia.
  - rewrite orb_false_iff, orb_false_iff, andb_false_iff.
    rewrite !Z.leb_gt, Z.ltb_ge, Z.eqb_neq. lia.
Qed.

Lemma retry_loop_decisive {T} (script : nat -> Result T * Z)
  maxRetries baseDelay n attempt lastError w :
  decisive (fst (script (calls w))) = true ->
  retry_loop (scripted script) maxRetries baseDelay (S n) attempt lastError w
  = (fst (script (calls w)), called script w).
Proof.
  intros Hd. destruct (fst (script (calls w))) as [v|e] eqn:E.
  - cbn [retry_loop]. unfold try_catch. now rewrite scripted_called, E.
  - now apply retry_loop_client_error.
Qed.

(** The loop from turn [attempt] on, when the next [k] calls fail with
    errors it retries and the call after them is decisive. *)
Lemma retry_loop_until_decisive {T} (script : nat -> Result T * Z)
  maxRetries baseDelay :
  forall k n attempt lastError w,
    attempt + Z.of_nat k <= maxRetries ->
    (forall i, (i < k)%nat ->
               exists e, fst (script (calls w + i)%nat) = Throw e
                         /\ isAPIClientError e = false) ->
    decisive (fst (script (calls w + k)%nat)) = true ->
    let out := retry_loop (scripted script) maxRetries baseDelay
                          (S (k + n)) attempt lastError w in
    fst out = fst (script (calls w + k)%nat)
    /\ calls (snd out) = (calls w + k + 1)%nat
    /\ timeouts (trace (snd out))
       = (timeouts (trace w)
          ++ map (fun i => baseDelay * 2 ^ (attempt + Z.of_nat i))
                 (seq 0 k))%list
    /\ clock (snd out)
       = clock w + elapsed_total script (calls w) (S k)
         + total (map (fun i => Z.max 0 (baseDelay * 2 ^ (attempt + Z.of_nat i)))
                      (seq 0 k)).
Proof.
  induction k as [|k IH]; intros n attempt lastError w Hle Hfail Hdec out;
    subst out.
  - rewrite Nat.add_0_r in Hdec.
    rewrite (retry_loop_decisive script maxRetries baseDelay (0 + n) attempt
               lastError w Hdec).
    cbn [fst snd]. rewrite !Nat.add_0_r.
    split; [reflexivity|]. split; [cbn; lia|].
    unfold called. cbn [trace clock seq map total fold_right elapsed_total].
    rewrite timeouts_app. cbn. split; [reflexivity|lia].
  - destruct (Hfail 0%nat ltac:(lia)) as (e & He & Hc).
    rewrite Nat.add_0_r in He.
    change (S (S k + n)) with (S (S (k + n))).
    rewrite (retry_loop_step script maxRetries baseDelay (S (k + n)) attempt
               lastError w e He Hc) by lia.
    specialize (IH n (attempt + 1) (Some e)
                  (retried script baseDelay attempt w)).
    destruct IH as (H1 & H2 & H3 & H4).
    + lia.
    + intros i Hi. unfold retried. cbn [calls].
      destruct (Hfail (S i) ltac:(lia)) as (e' & He' & Hc').
      exists e'. split; [|assumption].
      now replace (S (calls w) + i)%nat with (calls w + S i)%nat by lia.
    + unfold retried. cbn [calls].
      now replace (S (calls w) + k)%nat with (calls w + S k)%nat by lia.
    + rewrite H1, H2, H3, H4. unfold retried. cbn [calls trace clock].
      split; [f_equal; f_equal; lia|]. split; [lia|]. split.
      * rewrite !timeouts_app. cbn [timeouts seq map app].
        rewrite <- !app_assoc. f_equal. cbn [app]. rewrite Z.add_0_r.
        f_equal. rewrite <- seq_shift, map_map.
        apply map_ext. intros i. f_equal. f_equal. lia.
      * cbn [elapsed_total seq map total fold_right]. rewrite Z.add_0_r.
        rewrite <- seq_shift, map_map.
        replace (map (fun x => Z.max 0 (baseDelay * 2 ^ (attempt + Z.of_nat (S x))))
                     (seq 0 k))
          with (map (fun i => Z.max 0 (baseDelay * 2 ^ (attempt + 1 + Z.of_nat i)))
                    (seq 0 k)).
        2:{ apply map_ext. intros i. f_equal. f_equal. f_equal. lia. }
        unfold total. lia.
Qed.

(** The loop of [retryWithBackoff] up to the first decisive call. *)
Lemma retry_stops_at_decisive {T} (script : nat -> Result T * Z)
  maxRetries baseDelay (k : nat) w :
  Z.of_nat k <= maxRetries ->
  (forall i, (i < k)%nat ->
             exists e, fst (script (calls w + i)%nat) = Throw e
                       /\ isAPIClientError e = false) ->
  decisive (fst (script (calls w + k)%nat)) = true ->
  let out := retryWithBackoff (scripted script) maxRetries baseDelay w in
  fst out = fst (script (calls w + k)%nat)
  /\ calls (snd out) = (calls w + k + 1)%nat
  /\ timeouts (trace (snd out))
     = (timeouts (trace w) ++ backoff_delays baseDelay k)%list.
Proof.
  intros Hle Hfail Hdec out. subst out. unfold retryWithBackoff.
  replace (Z.to_nat (maxRetries + 1))
    with (S (k + (Z.to_nat maxRetries - k))) by lia.
  destruct (retry_loop_until_decisive script maxRetries baseDelay k
              (Z.to_nat maxRetries - k) 0 None w) as (H1 & H2 & H3 & _);
    auto.
Qed.

(** X9.  [retryWithBackoff] stops at the first call that resolves or
    fails with a 4xx [APIError]: when the first [k <= maxRetries] calls
    fail with other errors and call [k + 1] is such a call, the result is
    the outcome of that call, [fn] was called [k + 1] times, and the
    timers set were [baseDelay * 2^0, ..., baseDelay * 2^(k-1)]. *)
Theorem retry_until_decisive {T} (script : nat -> Result T * Z)
  maxRetries baseDelay (k : nat) w :
  Z.of_nat k <= maxRetries ->
  (forall i, (i < k)%nat ->
             exists e, fst (script (calls w + i)%nat) = Throw e
                       /\ isAPIClientError e = false) ->
  decisive (fst (script (calls w + k)%nat)) = true ->
  let out := retryWithBackoff (scripted script) maxRetries baseDelay w in
  fst out = fst (script (calls w + k)%nat)
  /\ calls (snd out) = (calls w + k + 1)%nat
  /\ timeouts (trace (snd out))
     = (timeouts (trace w) ++ backoff_delays baseDelay k)%list.
Proof.
  intros Hle Hfail Hdec.
  now apply retry_stops_at_decisive.
Qed.

Lemma total_backoff baseDelay n :
  total (backoff_delays baseDelay n) = baseDelay * (2 ^ Z.of_nat n - 1).
Proof.
  unfold backoff_delays, total.
  induction n as [|n IH].
  - cbn. lia.
  - rewrite seq_S, map_app, fold_right_app. cbn [map fold_right Nat.add].
    replace (fold_right Z.add (baseDelay * 2 ^ Z.of_nat n + 0)
               (map (fun i => baseDelay * 2 ^ Z.of_nat i) (seq 0 n)))
      with (fold_right Z.add 0
              (map (fun i => baseDelay * 2 ^ Z.of_nat i) (seq 0 n))
            + baseDelay * 2 ^ Z.of_nat n).
    + rewrite IH. rewrite Nat2Z.inj_succ, Z.pow_succ_r by lia. lia.
    + generalize (map (fun i => baseDelay * 2 ^ Z.of_nat i) (seq 0 n)).
      intros l. induction l as [|x l IHl]; cbn; lia.
Qed.

(** X10.  The time [retryWithBackoff] spends when every attempt fails
    with an error it retries: the durations of the [maxRetries + 1] calls
    plus a total backoff of [baseDelay * (2^maxRetries - 1)]
    milliseconds, for a non-negative [baseDelay]. *)
Theorem retry_worst_case_time {T} (script : nat -> Result T * Z)
  maxRetries baseDelay w :
  0 <= maxRetries -> 0 <= baseDelay ->
  (forall i, exists e, fst (script i) = Throw e
                       /\ isAPIClientError e = false) ->
  let out := retryWithBackoff (scripted script) maxRetries baseDelay w in
  clock (snd out)
  = clock w + elapsed_total script (calls w) (Z.to_nat maxRetries + 1)
    + baseDelay * (2 ^ maxRetries - 1)
  /\ total (timeouts (trace (snd out)))
     = total (timeouts (trace w)) + baseDelay * (2 ^ maxRetries - 1).
Proof.
  intros Hm Hb Hfail out. subst out.
  destruct (retry_exhausts script maxRetries baseDelay w Hm Hfail)
    as (_ & _ & Htime).
  split.
  - unfold retryWithBackoff.
    replace (Z.to_nat (maxRetries + 1)) with (S (Z.to_nat maxRetries)) by lia.
    set (k := Z.to_nat maxRetries).
    assert (Hgen : forall k attempt lastError w0,
      maxRetries = attempt + Z.of_nat k -> 0 <= attempt ->
      clock (snd (retry_loop (scripted script) maxRetries baseDelay
                    (S k) attempt lastError w0))
      = clock w0 + elapsed_total script (calls w0) (S k)
        + total (map (fun i => baseDelay * 2 ^ (attempt + Z.of_nat i))
                     (seq 0 k))).
    { clear - Hb Hfail. induction k as [|k IH];
        intros attempt lastError w0 Hmr Hat;
        destruct (Hfail (calls w0)) as (e & He & Hc).
      - replace attempt with maxRetries by lia.
        rewrite (retry_loop_last script maxRetries baseDelay 0 lastError w0 e He).
        unfold called. cbn. lia.
      - rewrite (retry_loop_step script maxRetries baseDelay (S k) attempt
                   lastError w0 e He Hc) by lia.
        rewrite (IH (attempt + 1) (Some e)
                    (retried script baseDelay attempt w0)) by lia.
        unfold retried. cbn [clock calls].
        cbn [elapsed_total seq map total fold_right Z.of_nat].
        rewrite Z.add_0_r.
        rewrite <- seq_shift, map_map.
        replace (map (fun x => baseDelay * 2 ^ (attempt + Z.of_nat (S x)))
                     (seq 0 k))
          with (map (fun i => baseDelay * 2 ^ (attempt + 1 + Z.of_nat i))
                    (seq 0 k)).
        2:{ apply map_ext. intros i. f_equal. f_equal. lia. }
        assert (0 <= baseDelay * 2 ^ attempt)
          by (apply Z.mul_nonneg_nonneg; [assumption|apply Z.pow_nonneg; lia]).
        unfold total. lia. }
    rewrite (Hgen k 0 None w) by (subst k; lia).
    pose proof (total_backoff baseDelay k) as Ht.
    unfold backoff_delays in Ht. cbn [Z.add] in *.
    replace (map (fun i => baseDelay * 2 ^ (0 + Z.of_nat i)) (seq 0 k))
      with (map (fun i => baseDelay * 2 ^ Z.of_nat i) (seq 0 k))
      by (apply map_ext; intros i; reflexivity).
    rewrite Ht. subst k. rewrite Z2Nat.id by lia.
    replace (Z.to_nat maxRetries + 1)%nat with (S (Z.to_nat maxRetries)) by lia.
    lia.
  - rewrite Htime. unfold total at 1. rewrite fold_right_app.
    fold (total (backoff_delays baseDelay (Z.to_nat maxRetries))).
    rewrite total_backoff, Z2Nat.id by lia.
    generalize (timeouts (trace w)). intros l. unfold total.
    induction l as [|x l IHl]; cbn; lia.
Qed.

(** X11.  With a negative [maxRetries] the loop body never runs:
    [retryWithBackoff] does not call [fn] and rejects with [undefined]
    (the unassigned [lastError]). *)
Theorem retry_negative_never_calls {T} (fn : M Data T) maxRetries baseDelay w :
  maxRetries < 0 ->
  retryWithBackoff fn maxRetries baseDelay w = (Throw ThrownUndefined, w).
Proof.
  intros Hneg. unfold retryWithBackoff.
  replace (Z.to_nat (maxRetries + 1)) with 0%nat by lia. reflexivity.
Qed.

End MoreErrorFacts.

(* ================================================================== *)
(** * Further properties of [ContentManager]                           *)
(* ================================================================== *)

Section MoreCacheComposition.
Context {Data : Type}.
Implicit Types (w : World Data) (cfg : Config) (key : string) (d : Data).

(** A [get] that missed and stored is followed by hits for the length
    of the ttl. *)
Lemma get_then_hit cfg key (fetcher fetcher' : M Data Data)
  ttl_opt ttl_opt' w d w1 gap :
  enableCache cfg = true ->
  (forall c, JSMap.get key (entries w) = Some c ->
             MemoryCache.fresh (clock w) c = false) ->
  fetcher (logged (info_events cfg ("Cache miss for key: " ++ key)) w)
  = (Ok d, w1) ->
  gap < ttl_or_default ttl_opt (defaultTTL (apiCache w1)) ->
  fst (MemoryCache.get cfg key fetcher ttl_opt w) = Ok d
  /\ calls (snd (MemoryCache.get cfg key fetcher ttl_opt w)) = calls w1
  /\ MemoryCache.get cfg key fetcher' ttl_opt'
       (wait gap (snd (MemoryCache.get cfg key fetcher ttl_opt w)))
     = (Ok d,
        logged (info_events cfg ("Cache hit for key: " ++ key))
          (wait gap (snd (MemoryCache.get cfg key fetcher ttl_opt w)))).
Proof.
  intros En Hmiss Hf Hgap.
  rewrite (get_miss cfg key fetcher ttl_opt w En Hmiss), Hf. cbn [fst snd].
  destruct (set_frame cfg key d ttl_opt w1) as (_ & Hclock & Hcalls & _).
  split; [reflexivity|]. split; [exact Hcalls|].
  apply (get_hit cfg key fetcher' ttl_opt' _ (entry_at w1 d ttl_opt) En).
  - unfold wait, entries. cbn [apiCache].
    fold (entries (snd (MemoryCache.set cfg key d ttl_opt w1))).
    rewrite set_entries by assumption. apply JSMap_get_set_same.
  - unfold MemoryCache.fresh, entry_at, wait. cbn [clock timestamp ttl].
    rewrite Hclock. apply Z.ltb_lt. lia.
Qed.

End MoreCacheComposition.

Section MoreContentManagerFacts.
Variable toLowerCase : string -> string.
Variable cfg : Config.
Variable self : ContentManager.
Implicit Types (w : World Value) (strapiUtils : StrapiUtils).

Lemma firstn_app_skipn {A} (a b : nat) (l : list A) :
  (firstn a l ++ firstn b (skipn a l))%list = firstn (a + b) l.
Proof.
  revert l. induction a as [|a IH]; intros l; [reflexivity|].
  destruct l as [|x l]; cbn.
  - now rewrite firstn_nil.
  - now rewrite IH.
Qed.

Lemma pages_from_firstn pageSize (allPosts : list PostEntry) :
  1 <= pageSize ->
  forall n first,
    1 <= first ->
    pages_from pageSize allPosts first n
    = firstn (n * Z.to_nat pageSize)
             (skipn (Z.to_nat ((first - 1) * pageSize)) allPosts).
Proof.
  intros Hps. induction n as [|n IH]; intros first Hfirst; [reflexivity|].
  cbn [pages_from]. unfold ContentManager.paginate at 1. cbn [page_posts].
  rewrite slice_page by nia. rewrite IH by lia.
  replace (skipn (Z.to_nat ((first + 1 - 1) * pageSize)) allPosts)
    with (skipn (Z.to_nat pageSize)
            (skipn (Z.to_nat ((first - 1) * pageSize)) allPosts)).
  - rewrite firstn_app_skipn. reflexivity.
  - rewrite skipn_skipn. f_equal. nia.
Qed.

(** X12.  The pages partition the collection: for a page size of at
    least one, the pages [1 .. totalPages] laid end to end are the whole
    collection, in order, and every page after [totalPages] is empty. *)
Theorem pages_partition pageSize (allPosts : list PostEntry) :
  1 <= pageSize ->
  exists n,
    page_totalPages (ContentManager.paginate 1 pageSize allPosts) = Num n
    /\ 0 <= n
    /\ pages_from pageSize allPosts 1 (Z.to_nat n) = allPosts
    /\ forall page, n < page ->
                    page_posts (ContentManager.paginate page pageSize allPosts)
                    = [].
Proof.
  intros Hps.
  destruct (ceil_div_spec (Z.of_nat (List.length allPosts)) pageSize Hps)
    as (n & Hn & Hlo & Hhi).
  exists n. unfold ContentManager.paginate at 1. cbn [page_totalPages].
  split; [exact Hn|]. assert (0 <= n) by nia. split; [assumption|]. split.
  - rewrite pages_from_firstn by lia. cbn [Z.sub Z.mul Z.to_nat skipn].
    replace (Z.to_nat ((1 - 1) * pageSize)) with 0%nat by lia. cbn [skipn].
    apply firstn_all2. nia.
  - intros page Hpage. unfold ContentManager.paginate. cbn [page_posts].
    rewrite slice_page by nia.
    rewrite skipn_all2 by nia. apply firstn_nil.
Qed.

Lemma includes_empty (s : string) : includes s "" = true.
Proof. destruct s; reflexivity. Qed.

(** X13.  An empty query matches everything: when the host's
    [toLowerCase] maps the empty string to itself, [searchPosts("")]
    resolves to the whole collection of [getSortedPosts]. *)
Theorem search_empty_query strapiUtils w :
  toLowerCase "" = "" ->
  ContentManager.searchPosts toLowerCase cfg strapiUtils self "" w
  = ContentManager.getSortedPosts cfg strapiUtils self w.
Proof.
  intros Hlow. unfold ContentManager.searchPosts, bind, ret.
  destruct (ContentManager.getSortedPosts cfg strapiUtils self w)
    as [[posts|e] w1]; [|reflexivity].
  f_equal. f_equal. rewrite Hlow. apply forallb_filter_id.
  apply forallb_forall. intros post _.
  unfold ContentManager.matches. now rewrite includes_empty.
Qed.

(** X15.  At most one upstream call per ttl: when [getSortedPosts]
    misses and the upstream resolves, the posts are returned and cached,
    and a further [getSortedPosts] less than the effective ttl later
    resolves to the same posts without contacting the upstream, whatever
    the upstream has become. *)
Theorem sorted_posts_fetched_once
  (script : nat -> Result (list PostEntry) * Z) bySlug strapiUtils'
  posts gap w :
  useCache (options self) = true ->
  enableCache cfg = true ->
  (forall c, JSMap.get (ContentManager.sortedPostsKey self) (entries w)
             = Some c ->
             ttl c <= clock w - timestamp c) ->
  fst (script (calls w)) = Ok posts ->
  gap < ttl_or_default (Some (cacheTTL (options self)))
                       (defaultTTL (apiCache w)) ->
  let out1 := ContentManager.getSortedPosts cfg
                (mkUtils (scripted script) bySlug) self w in
  let out2 := ContentManager.getSortedPosts cfg strapiUtils' self
                (wait gap (snd out1)) in
  fst out1 = Ok posts
  /\ calls (snd out1) = S (calls w)
  /\ fst out2 = Ok posts
  /\ calls (snd out2) = S (calls w)
  /\ entries (snd out2) = entries (snd out1).
Proof.
  intros Huse En Hexp Hok Hgap out1 out2. subst out2 out1.
  set (key := ContentManager.sortedPostsKey self) in *.
  set (ttl_opt := Some (cacheTTL (options self))) in *.
  assert (Hunfold : forall strapiUtils w0,
    ContentManager.getSortedPosts cfg strapiUtils self w0
    = match MemoryCache.get cfg key
              (posts0 <- ContentManager.fetchStrapiPosts cfg strapiUtils self;;
               ret (VPosts posts0)) ttl_opt w0
      with
      | (Ok v, w') => ContentManager.as_posts v w'
      | (Throw e, w') => (Throw e, w')
      end).
  { intros. unfold ContentManager.getSortedPosts,
      ContentManager.getStrapiPostsWithFallback. now rewrite Huse. }
  set (thunk := (posts0 <- ContentManager.fetchStrapiPosts cfg
                            (mkUtils (scripted script) bySlug) self;;
                 ret (VPosts posts0))) in *.
  assert (Hthunk : exists w1,
    thunk (logged (info_events cfg ("Cache miss for key: " ++ key)) w)
    = (Ok (VPosts posts), w1)
    /\ calls w1 = S (calls w)
    /\ defaultTTL (apiCache w1) = defaultTTL (apiCache w)).
  { subst thunk. unfold bind. rewrite fetchStrapiPosts_run.
    cbn [utils_getSortedPosts]. rewrite scripted_called.
    cbn [calls logged]. rewrite Hok. eexists. split; [reflexivity|].
    cbn. auto. }
  destruct Hthunk as (w1 & Hthunk & Hcalls1 & Hdef1).
  destruct (get_then_hit cfg key thunk
              (posts0 <- ContentManager.fetchStrapiPosts cfg strapiUtils' self;;
               ret (VPosts posts0))
              ttl_opt ttl_opt w (VPosts posts) w1 gap En) as (H1 & H2 & H3).
  - intros c Hc. apply fresh_false_of_expired. now apply Hexp.
  - exact Hthunk.
  - now rewrite Hdef1.
  - assert (E1 : ContentManager.getSortedPosts cfg
                   (mkUtils (scripted script) bySlug) self w
                 = (Ok posts, snd (MemoryCache.get cfg key thunk ttl_opt w))).
    { rewrite Hunfold. fold thunk.
      destruct (MemoryCache.get cfg key thunk ttl_opt w) as [r wa].
      cbn [fst snd] in *. now subst r. }
    rewrite E1. cbn [fst snd]. rewrite Hunfold, H3.
    remember (snd (MemoryCache.get cfg key thunk ttl_opt w)) as wa.
    unfold ContentManager.as_posts, ret, logged, wait, entries.
    cbn [fst snd calls apiCache]. rewrite H2, Hcalls1. auto.
Qed.

(** X16.  [getPostBySlug] caches what the upstream resolved to, a post
    as well as [null] for a post that does not exist: a further query
    for the slug within the effective ttl resolves to the same value
    without contacting the upstream. *)
Theorem post_by_slug_fetched_once
  (script : nat -> Result (option PostEntry) * Z) sorted strapiUtils'
  slug post gap w :
  useCache (options self) = true ->
  enableCache cfg = true ->
  (forall c, JSMap.get (ContentManager.postBySlugKey self slug) (entries w)
             = Some c ->
             ttl c <= clock w - timestamp c) ->
  fst (script (calls w)) = Ok post ->
  gap < ttl_or_default (Some (cacheTTL (options self)))
                       (defaultTTL (apiCache w)) ->
  let value := match post with Some p => VPost p | None => VNull end in
  let out1 := ContentManager.getPostBySlug cfg
                (mkUtils sorted (fun _ => scripted script)) self slug w in
  let out2 := ContentManager.getPostBySlug cfg strapiUtils' self slug
                (wait gap (snd out1)) in
  fst out1 = Ok value
  /\ calls (snd out1) = S (calls w)
  /\ fst out2 = Ok value
  /\ calls (snd out2) = S (calls w)
  /\ entries (snd out2) = entries (snd out1).
Proof.
  intros Huse En Hexp Hok Hgap value out1 out2. subst out2 out1.
  unfold ContentManager.getPostBySlug,
    ContentManager.getStrapiPostBySlugWithFallback.
  rewrite Huse. cbn [negb].
  set (key := ContentManager.postBySlugKey self slug) in *.
  set (ttl_opt := Some (cacheTTL (options self))) in *.
  assert (Hthunk : exists w1,
    ContentManager.fetchStrapiPostBySlug cfg
      (mkUtils sorted (fun _ => scripted script)) slug
      (logged (info_events cfg ("Cache miss for key: " ++ key)) w)
    = (Ok value, w1)
    /\ calls w1 = S (calls w)
    /\ defaultTTL (apiCache w1) = defaultTTL (apiCache w)).
  { rewrite fetchStrapiPostBySlug_run.
    cbn [utils_getPostBySlug]. rewrite scripted_called.
    cbn [calls logged]. rewrite Hok. subst value.
    destruct post as [p|]; eexists; (split; [reflexivity|]); cbn; auto. }
  destruct Hthunk as (w1 & Hthunk & Hcalls1 & Hdef1).
  destruct (get_then_hit cfg key
              (ContentManager.fetchStrapiPostBySlug cfg
                 (mkUtils sorted (fun _ => scripted script)) slug)
              (ContentManager.fetchStrapiPostBySlug cfg strapiUtils' slug)
              ttl_opt ttl_opt w value w1 gap En) as (H1 & H2 & H3);
    [| exact Hthunk | now rewrite Hdef1 |].
  - intros c Hc. apply fresh_false_of_expired. now apply Hexp.
  - rewrite H3.
    remember (MemoryCache.get cfg key
                (ContentManager.fetchStrapiPostBySlug cfg
                   (mkUtils sorted (fun _ => scripted script)) slug)
                ttl_opt w) as outa.
    unfold logged, wait, entries. cbn [fst snd calls apiCache].
    rewrite H1, H2, Hcalls1. auto.
Qed.

End MoreContentManagerFacts.

(* ================================================================== *)
(** * Properties of [utils/strapi-content-utils.ts]                    *)
(* ================================================================== *)

Section StrapiUtilsFacts.
Variable Article : Type.
Variable adaptStrapiArticle : Article -> Result PostEntry.
Variable addNavigationInfo : list PostEntry -> M Value (list PostEntry).
Implicit Types (w : World Value).

Lemma alerts_app (a b : list Event) :
  alerts (a ++ b) = (alerts a ++ alerts b)%list.
Proof. unfold alerts. apply filter_app. Qed.

Lemma alerts_info (evs : list Event) :
  Forall (fun ev => level_of ev = Some LLog) evs -> alerts evs = [].
Proof.
  unfold alerts. induction 1 as [|ev evs Hev _ IH]; [reflexivity|].
  cbn [filter]. now rewrite Hev.
Qed.

(** X17.  The functions of [strapi-content-utils] never reject, whatever
    the HTTP layer and the adapters do: any exception ends in one
    [console.error] and the value [[]], resp. [null]; and an empty
    response for a slug resolves to [null]. *)
Theorem strapi_utils_never_reject
  (getPublishedArticles : M Value (list Article))
  (getArticleBySlug : string -> M Value (list Article)) slug w :
  (exists posts w',
      strapiUtils.getSortedPosts Article getPublishedArticles
        adaptStrapiArticle addNavigationInfo w = (Ok posts, w'))
  /\ (exists post w',
        strapiUtils.getPostBySlug Article getArticleBySlug
          adaptStrapiArticle slug w = (Ok post, w'))
  /\ (forall e w1,
        getPublishedArticles w = (Throw e, w1) ->
        strapiUtils.getSortedPosts Article getPublishedArticles
          adaptStrapiArticle addNavigationInfo w
        = (Ok [],
           logged [Console LError "Error fetching posts from Strapi:"
                     (Some e)] w1))
  /\ (forall e w1,
        getArticleBySlug slug w = (Throw e, w1) ->
        strapiUtils.getPostBySlug Article getArticleBySlug
          adaptStrapiArticle slug w
        = (Ok None,
           logged [Console LError
                     ("Error fetching post with slug " ++ slug
                        ++ " from Strapi:") (Some e)] w1))
  /\ (forall w1,
        getArticleBySlug slug w = (Ok [], w1) ->
        strapiUtils.getPostBySlug Article getArticleBySlug
          adaptStrapiArticle slug w = (Ok None, w1)).
Proof.
  unfold strapiUtils.getSortedPosts, strapiUtils.getPostBySlug,
    try_catch, bind, lift, emit, ret, logged.
  split; [|split; [|split; [|split]]].
  - destruct (getPublishedArticles w) as [[response|e] w1]; eauto.
    destruct (strapiUtils.adaptStrapiArticles Article adaptStrapiArticle
                response) as [articles|e]; eauto.
    destruct (addNavigationInfo articles w1) as [[posts|e] w2]; eauto.
  - destruct (getArticleBySlug slug w) as [[[|first rest]|e] w1]; eauto.
    destruct (adaptStrapiArticle first); eauto.
  - intros e w1 H. now rewrite H.
  - intros e w1 H. now rewrite H.
  - intros w1 H. now rewrite H.
Qed.

End StrapiUtilsFacts.

Section UpstreamComposition.
Variable Article : Type.
Variable adaptStrapiArticle : Article -> Result PostEntry.
Variable addNavigationInfo : list PostEntry -> M Value (list PostEntry).
Variable cfg : Config.
Variable self : ContentManager.
Implicit Types (w : World Value).

(** What a [get] that missed and stored leaves behind. *)
Lemma get_miss_stored {Data} key (fetcher : M Data Data) ttl_opt
  (u : World Data) d (u1 : World Data) :
  enableCache cfg = true ->
  (forall c, JSMap.get key (entries u) = Some c ->
             MemoryCache.fresh (clock u) c = false) ->
  fetcher (logged (info_events cfg ("Cache miss for key: " ++ key)) u)
  = (Ok d, u1) ->
  let out := MemoryCache.get cfg key fetcher ttl_opt u in
  fst out = Ok d
  /\ calls (snd out) = calls u1
  /\ JSMap.get key (entries (snd out)) = Some (entry_at u1 d ttl_opt)
  /\ exists evs, Forall (fun ev => level_of ev = Some LLog) evs
                 /\ trace (snd out) = (trace u1 ++ evs)%list.
Proof.
  intros En Hmiss Hf out. subst out.
  rewrite (get_miss cfg key fetcher ttl_opt u En Hmiss), Hf.
  destruct (set_run_levels cfg key d ttl_opt u1 En) as (evs & Hlv & ->).
  cbn [fst snd calls logged with_cache trace].
  split; [reflexivity|]. split; [reflexivity|]. split.
  - unfold entries. cbn [apiCache cache]. apply JSMap_get_set_same.
  - exists evs. auto.
Qed.

End UpstreamComposition.

(* ================================================================== *)
(** * Properties of the cached, retried calls of [lib/strapi.ts]       *)
(* ================================================================== *)

Section StrapiFacts.
Context {Data : Type}.
Variable cfg : Config.
Variable api : ApiConfig.
Implicit Types (w : World Data).

Lemma timeouts_info (evs : list Event) :
  Forall (fun ev => level_of ev = Some LLog) evs -> timeouts evs = [].
Proof.
  induction 1 as [|ev evs Hev _ IH]; [reflexivity|].
  destruct ev; cbn in *; try discriminate; exact IH.
Qed.

Lemma retry_loop_cache {T} (script : nat -> Result T * Z)
  maxRetries baseDelay :
  forall n attempt lastError w,
    apiCache (snd (retry_loop (scripted script) maxRetries baseDelay n
                              attempt lastError w))
    = apiCache w.
Proof.
  induction n as [|n IH]; intros attempt lastError w.
  - now destruct lastError.
  - cbn [retry_loop]. unfold try_catch. rewrite scripted_called.
    destruct (fst (script (calls w))) as [v|e]; [reflexivity|].
    destruct (isAPIClientError e); [reflexivity|].
    destruct (attempt =? maxRetries); [reflexivity|].
    unfold bind, emit, sleep. cbn [fst snd]. rewrite IH. reflexivity.
Qed.

(** The thunk of a cached call, run on a miss, when the first [k]
    fetches fail with errors that are retried and the next resolves. *)
Lemma cached_retry_resolves key (script : nat -> Result Data * Z)
  (fetcher' : M Data Data) ttl_opt (k : nat) d gap w :
  enableCache cfg = true ->
  enableRetry api = true ->
  (forall c, JSMap.get key (entries w) = Some c ->
             ttl c <= clock w - timestamp c) ->
  Z.of_nat k <= retryAttempts api ->
  (forall i, (i < k)%nat ->
             exists e, fst (script (calls w + i)%nat) = Throw e
                       /\ isAPIClientError e = false) ->
  fst (script (calls w + k)%nat) = Ok d ->
  gap < ttl_or_default ttl_opt (defaultTTL (apiCache w)) ->
  let out1 := MemoryCache.get cfg key
                (strapi.run_with_retry api (scripted script)) ttl_opt w in
  let out2 := MemoryCache.get cfg key fetcher' ttl_opt
                (wait gap (snd out1)) in
  fst out1 = Ok d
  /\ calls (snd out1) = (calls w + k + 1)%nat
  /\ timeouts (trace (snd out1))
     = (timeouts (trace w) ++ backoff_delays (retryBaseDelay api) k)%list
  /\ fst out2 = Ok d
  /\ calls (snd out2) = calls (snd out1)
  /\ entries (snd out2) = entries (snd out1).
Proof.
  intros En Hretry Hexp Hk Hfail Hok Hgap out1 out2. subst out2 out1.
  set (w0 := logged (info_events cfg ("Cache miss for key: " ++ key)) w).
  assert (Hmiss : forall c, JSMap.get key (entries w) = Some c ->
                            MemoryCache.fresh (clock w) c = false).
  { intros c Hc. unfold MemoryCache.fresh. apply Z.ltb_ge. now apply Hexp. }
  destruct (retry_stops_at_decisive script (retryAttempts api)
              (retryBaseDelay api) k w0 Hk) as (R1 & R2 & R3).
  { exact Hfail. }
  { cbn [calls w0 logged]. now rewrite Hok. }
  cbn [calls w0 logged] in R1, R2. rewrite Hok in R1.
  pose proof (retry_loop_cache script (retryAttempts api) (retryBaseDelay api)
                (Z.to_nat (retryAttempts api + 1)) 0 None w0) as Rc.
  fold (retryWithBackoff (scripted script) (retryAttempts api)
                         (retryBaseDelay api) w0) in Rc.
  assert (Hf : strapi.run_with_retry api (scripted script) w0
               = (Ok d, snd (retryWithBackoff (scripted script)
                               (retryAttempts api) (retryBaseDelay api) w0))).
  { unfold strapi.run_with_retry. rewrite Hretry. cbn [negb].
    destruct (retryWithBackoff (scripted script) (retryAttempts api)
                (retryBaseDelay api) w0) as [r w1].
    cbn [fst snd] in *. now subst r. }
  set (w1 := snd (retryWithBackoff (scripted script) (retryAttempts api)
                    (retryBaseDelay api) w0)) in *.
  destruct (get_miss_stored cfg key _ ttl_opt w d w1 En Hmiss Hf)
    as (H1 & H2 & _ & evs & Hlv & Htr).
  destruct (get_then_hit cfg key (strapi.run_with_retry api (scripted script))
              fetcher' ttl_opt ttl_opt w d w1 gap En Hmiss Hf)
    as (_ & _ & H3).
  { rewrite Rc. exact Hgap. }
  rewrite H3. split; [exact H1|]. split; [now rewrite H2|]. split.
  - rewrite Htr, timeouts_app, (timeouts_info evs Hlv), app_nil_r, R3.
    subst w0. cbn [trace logged]. rewrite timeouts_app.
    now rewrite (timeouts_info _ (info_events_level cfg _)), app_nil_r.
  - cbn [fst snd]. unfold logged, wait, entries. cbn [calls apiCache]. auto.
Qed.

(** X19.  The cached calls of [lib/strapi.ts] retry and then cache: on
    a miss, with retries enabled, when the first [k <= retryAttempts]
    requests fail with errors that are retried and the next one
    resolves, [getArticlesByCategory] (and likewise [getAllCategories])
    resolves to that response after [k + 1] requests and the backoff
    delays [retryBaseDelay * 2^i]; a further call within the category
    ttl resolves to the same response without any request. *)
Theorem strapi_calls_retry_then_cache (script : nat -> Result Data * Z)
  (fetchAPI' : string -> M Data Data) category (k : nat) d gap w :
  enableCache cfg = true ->
  enableRetry api = true ->
  Z.of_nat k <= retryAttempts api ->
  (forall i, (i < k)%nat ->
             exists e, fst (script (calls w + i)%nat) = Throw e
                       /\ isAPIClientError e = false) ->
  fst (script (calls w + k)%nat) = Ok d ->
  gap < ttl_or_default (Some (contentTtl_categories api))
                       (defaultTTL (apiCache w)) ->
  ((forall c, JSMap.get ("category-articles-" ++ category) (entries w)
              = Some c -> ttl c <= clock w - timestamp c) ->
   let out1 := strapi.getArticlesByCategory cfg api (fun _ => scripted script)
                 category w in
   let out2 := strapi.getArticlesByCategory cfg api fetchAPI' category
                 (wait gap (snd out1)) in
   fst out1 = Ok d
   /\ calls (snd out1) = (calls w + k + 1)%nat
   /\ timeouts (trace (snd out1))
      = (timeouts (trace w) ++ backoff_delays (retryBaseDelay api) k)%list
   /\ fst out2 = Ok d
   /\ calls (snd out2) = calls (snd out1)
   /\ entries (snd out2) = entries (snd out1))
  /\ ((forall c, JSMap.get "all-categories" (entries w) = Some c ->
                 ttl c <= clock w - timestamp c) ->
      let out1 := strapi.getAllCategories cfg api (fun _ => scripted script)
                    w in
      let out2 := strapi.getAllCategories cfg api fetchAPI'
                    (wait gap (snd out1)) in
      fst out1 = Ok d
      /\ calls (snd out1) = (calls w + k + 1)%nat
      /\ timeouts (trace (snd out1))
         = (timeouts (trace w) ++ backoff_delays (retryBaseDelay api) k)%list
      /\ fst out2 = Ok d
      /\ calls (snd out2) = calls (snd out1)
      /\ entries (snd out2) = entries (snd out1)).
Proof.
  intros En Hretry Hk Hfail Hok Hgap. split; intros Hexp.
  - apply (cached_retry_resolves ("category-articles-" ++ category) script
             (strapi.run_with_retry api
                (fetchAPI' (strapi.articlesByCategoryUrl category)))
             (Some (contentTtl_categories api)) k d gap w); assumption.
  - apply (cached_retry_resolves "all-categories" script
             (strapi.run_with_retry api
                (fetchAPI' "/categories?populate[banners][populate]=image&sort=sortOrder:asc,name:asc"))
             (Some (contentTtl_categories api)) k d gap w); assumption.
Qed.

(** The thunk of a cached call, run on a miss, when every request fails
    with an error that is retried. *)
Lemma cached_retry_outage key (script : nat -> Result Data * Z) ttl_opt w :
  enableCache cfg = true ->
  enableRetry api = true ->
  0 <= retryAttempts api ->
  (forall c, JSMap.get key (entries w) = Some c ->
             ttl c <= clock w - timestamp c) ->
  (forall i, exists e, fst (script i) = Throw e
                       /\ isAPIClientError e = false) ->
  let out := MemoryCache.get cfg key
               (strapi.run_with_retry api (scripted script)) ttl_opt w in
  calls (snd out) = (calls w + Z.to_nat (retryAttempts api) + 1)%nat
  /\ entries (snd out) = entries w
  /\ (forall c, JSMap.get key (entries w) = Some c ->
                fst out = Ok (data c)
                /\ In (stale_warning key) (trace (snd out)))
  /\ (JSMap.get key (entries w) = None ->
      exists e, fst out = Throw e
                /\ fst (script (calls w + Z.to_nat (retryAttempts api))%nat)
                   = Throw e).
Proof.
  intros En Hretry Hm Hexp Hfail out. subst out.
  set (w0 := logged (info_events cfg ("Cache miss for key: " ++ key)) w).
  assert (Hmiss : forall c, JSMap.get key (entries w) = Some c ->
                            MemoryCache.fresh (clock w) c = false).
  { intros c Hc. unfold MemoryCache.fresh. apply Z.ltb_ge. now apply Hexp. }
  destruct (retry_exhausts script (retryAttempts api) (retryBaseDelay api)
              w0 Hm Hfail) as (R1 & R2 & _).
  cbn [calls w0 logged] in R1, R2.
  pose proof (retry_loop_cache script (retryAttempts api) (retryBaseDelay api)
                (Z.to_nat (retryAttempts api + 1)) 0 None w0) as Rc.
  fold (retryWithBackoff (scripted script) (retryAttempts api)
                         (retryBaseDelay api) w0) in Rc.
  destruct (Hfail (calls w + Z.to_nat (retryAttempts api))%nat)
    as (e & He & _).
  rewrite He in R1.
  rewrite (get_miss cfg key _ ttl_opt w En Hmiss). fold w0.
  unfold strapi.run_with_retry. rewrite Hretry. cbn [negb].
  destruct (retryWithBackoff (scripted script) (retryAttempts api)
              (retryBaseDelay api) w0) as [r w1].
  cbn [fst snd] in *. subst r.
  destruct (JSMap.get key (entries w)) as [c|] eqn:Hc; cbn [fst snd].
  - unfold logged, entries in *. cbn [calls apiCache trace].
    split; [exact R2|]. split; [now rewrite Rc|]. split.
    + intros c' [= <-]. split; [reflexivity|].
      apply in_app_iff. right. now left.
    + discriminate.
  - unfold entries in *. split; [exact R2|]. split; [now rewrite Rc|]. split.
    + discriminate.
    + intros _. now exists e.
Qed.

(** X20.  Stale data bridges an outage of the upstream: when every
    request of [getArticlesByCategory] fails with an error that is
    retried, after [retryAttempts + 1] requests the call resolves to the
    expired response still in the cache and prints the stale warning,
    leaving the entry map as it was (so the next call tries again); with
    no response in the cache it rejects with the error of the last
    request. *)
Theorem category_articles_outage (script : nat -> Result Data * Z)
  category w :
  enableCache cfg = true ->
  enableRetry api = true ->
  0 <= retryAttempts api ->
  (forall c, JSMap.get ("category-articles-" ++ category) (entries w)
             = Some c -> ttl c <= clock w - timestamp c) ->
  (forall i, exists e, fst (script i) = Throw e
                       /\ isAPIClientError e = false) ->
  let key := "category-articles-" ++ category in
  let out := strapi.getArticlesByCategory cfg api (fun _ => scripted script)
               category w in
  calls (snd out) = (calls w + Z.to_nat (retryAttempts api) + 1)%nat
  /\ entries (snd out) = entries w
  /\ (forall c, JSMap.get key (entries w) = Some c ->
                fst out = Ok (data c)
                /\ In (stale_warning key) (trace (snd out)))
  /\ (JSMap.get key (entries w) = None ->
      exists e, fst out = Throw e
                /\ fst (script (calls w + Z.to_nat (retryAttempts api))%nat)
                   = Throw e).
Proof.
  intros En Hretry Hm Hexp Hfail key out.
  apply (cached_retry_outage key script
           (Some (contentTtl_categories api)) w); assumption.
Qed.

End StrapiFacts.

(* ================================================================== *)
(** * Properties of [utils/hybrid-content-utils.ts]                    *)
(* ================================================================== *)

Section TagFacts.

Lemma count_tag_total tagMap tag name :
  tag_total (count_tag tagMap tag) name
  = tag_total tagMap name + (if string_dec tag name then 1 else 0).
Proof.
  unfold count_tag, tag_total.
  destruct (string_dec tag name) as [->|Hne].
  - rewrite JSMap_get_set_same.
    destruct (JSMap.get name tagMap) as [n|]; [|reflexivity].
    destruct (Z.eqb_spec n 0); lia.
  - rewrite JSMap_get_set_other by congruence. lia.
Qed.

Lemma count_tags_total tags : forall tagMap name,
  tag_total (fold_left count_tag tags tagMap) name
  = tag_total tagMap name + Z.of_nat (count_occ string_dec tags name).
Proof.
  induction tags as [|t tags IH]; intros tagMap name; cbn [fold_left count_occ].
  - lia.
  - rewrite IH, count_tag_total. destruct (string_dec t name); lia.
Qed.

Lemma count_posts_total posts : forall tagMap name,
  tag_total (fold_left count_post_tags posts tagMap) name
  = tag_total tagMap name + occurrences name posts.
Proof.
  induction posts as [|post posts IH]; intros tagMap name;
    cbn [fold_left occurrences].
  - lia.
  - rewrite IH. unfold count_post_tags.
    destruct (PostData.tags (entry_data post)) as [ts|].
    + rewrite count_tags_total. lia.
    + cbn [fold_left]. lia.
Qed.

Lemma JSMap_set_forall {V} (P : string * V -> Prop) key v (m : JSMap.t V) :
  Forall P m -> (forall k, P (k, v)) -> Forall P (JSMap.set key v m).
Proof.
  intros Hm Hv. induction Hm as [|[k v0] m Hk Hm IH]; cbn.
  - constructor; [apply Hv|constructor].
  - destruct (k =? key)%string; constructor; auto.
Qed.

Lemma tag_total_nonneg tagMap name :
  Forall (fun kv => 0 < snd kv) tagMap -> 0 <= tag_total tagMap name.
Proof.
  intros H. unfold tag_total.
  destruct (JSMap.get name tagMap) as [n|] eqn:E; [|lia].
  apply JSMap_get_in in E. rewrite Forall_forall in H.
  specialize (H _ E). cbn in H. lia.
Qed.

Lemma count_tag_ok tagMap tag : counts_ok tagMap -> counts_ok (count_tag tagMap tag).
Proof.
  intros [Hnd Hpos]. split.
  - now apply JSMap_set_nodup.
  - pose proof (tag_total_nonneg tagMap tag Hpos) as H0.
    unfold tag_total in H0. unfold count_tag.
    apply JSMap_set_forall; [assumption|]. intros k. cbn [snd].
    destruct (JSMap.get tag tagMap) as [n|]; [|lia].
    destruct (Z.eqb_spec n 0); lia.
Qed.

Lemma count_tags_ok tags : forall tagMap,
  counts_ok tagMap -> counts_ok (fold_left count_tag tags tagMap).
Proof.
  induction tags as [|t tags IH]; intros tagMap H; cbn [fold_left]; auto.
  apply IH. now apply count_tag_ok.
Qed.

Lemma count_posts_ok posts : forall tagMap,
  counts_ok tagMap -> counts_ok (fold_left count_post_tags posts tagMap).
Proof.
  induction posts as [|post posts IH]; intros tagMap H; cbn [fold_left]; auto.
  apply IH. unfold count_post_tags. now apply count_tags_ok.
Qed.

Lemma insert_by_count_perm x l :
  Permutation.Permutation (insert_by_count x l) (x :: l).
Proof.
  induction l as [|y l IH]; cbn.
  - apply Permutation.Permutation_refl.
  - destruct (tag_count y <=? tag_count x).
    + apply Permutation.Permutation_refl.
    + eapply Permutation.perm_trans.
      * apply Permutation.perm_skip. exact IH.
      * apply Permutation.perm_swap.
Qed.

Lemma sort_by_count_perm l : Permutation.Permutation (sort_by_count l) l.
Proof.
  unfold sort_by_count. induction l as [|x l IH]; cbn.
  - apply Permutation.Permutation_refl.
  - eapply Permutation.perm_trans; [apply insert_by_count_perm|].
    now apply Permutation.perm_skip.
Qed.

Lemma insert_by_count_sorted x l :
  Sorted.StronglySorted (fun a b => tag_count b <= tag_count a) l ->
  Sorted.StronglySorted (fun a b => tag_count b <= tag_count a)
    (insert_by_count x l).
Proof.
  induction 1 as [|y l Hs IH Hy]; cbn.
  - repeat constructor.
  - destruct (Z.leb_spec (tag_count y) (tag_count x)) as [Hle|Hgt].
    + constructor; [now constructor|].
      constructor; [assumption|].
      eapply Forall_impl; [|exact Hy]. cbn. intros; lia.
    + constructor; [assumption|].
      eapply Permutation.Permutation_Forall.
      * apply Permutation.Permutation_sym, insert_by_count_perm.
      * constructor; [lia|assumption].
Qed.

Lemma sort_by_count_sorted l :
  Sorted.StronglySorted (fun a b => tag_count b <= tag_count a)
    (sort_by_count l).
Proof.
  unfold sort_by_count. induction l as [|x l IH]; cbn.
  - constructor.
  - now apply insert_by_count_sorted.
Qed.

(** X21.  What [getTagList] computes from the posts: every tag that
    occurs in some post is listed exactly once, with the number of its
    occurrences over all posts (a tag repeated inside one post counts
    each time); no other tag is listed; and the list is in order of
    non-increasing count. *)
Theorem tag_list_counts posts :
  let tags := hybrid.tags_of_posts posts in
  NoDup (map tag_name tags)
  /\ (forall name count,
        In (mkTag name count) tags
        <-> 0 < count /\ count = occurrences name posts)
  /\ Sorted.StronglySorted (fun a b => tag_count b <= tag_count a) tags.
Proof.
  intros tags. subst tags. unfold hybrid.tags_of_posts.
  set (tagMap := fold_left count_post_tags posts []).
  assert (Hok : counts_ok tagMap).
  { apply count_posts_ok. split; constructor. }
  destruct Hok as [Hnd Hpos].
  assert (Htot : forall name, tag_total tagMap name = occurrences name posts).
  { intros name. unfold tagMap. rewrite count_posts_total.
    unfold tag_total. cbn. lia. }
  set (mk := fun '(name, count) => mkTag name count).
  assert (Hin : forall name count,
             In (mkTag name count) (map mk tagMap) <-> In (name, count) tagMap).
  { intros name count. rewrite in_map_iff. split.
    - intros ([k v] & [= -> ->] & H). exact H.
    - intros H. now exists (name, count). }
  split; [|split].
  - eapply Permutation.Permutation_NoDup.
    + apply Permutation.Permutation_map, Permutation.Permutation_sym,
        sort_by_count_perm.
    + rewrite map_map.
      replace (map (fun x => tag_name (mk x)) tagMap) with (JSMap.keys tagMap);
        [exact Hnd|].
      unfold JSMap.keys. apply map_ext. now intros [k v].
  - intros name count.
    assert (Hp : In (mkTag name count) (sort_by_count (map mk tagMap))
                 <-> In (mkTag name count) (map mk tagMap)).
    { split; apply Permutation.Permutation_in;
        [|apply Permutation.Permutation_sym]; apply sort_by_count_perm. }
    rewrite Hp, Hin. split.
    + intros H. split.
      * rewrite Forall_forall in Hpos. exact (Hpos _ H).
      * rewrite <- Htot. unfold tag_total.
        now rewrite (JSMap_in_get name count tagMap Hnd H).
    + intros [H0 Hc]. apply JSMap_get_in.
      specialize (Htot name). unfold tag_total in Htot.
      destruct (JSMap.get name tagMap) as [n|]; [f_equal|]; lia.
  - apply sort_by_count_sorted.
Qed.

End TagFacts.

Section HybridFacts.
Variable cfg : Config.
Variable self : ContentManager.

(** [ContentManager.getSortedPosts] when no fresh entry can be served:
    one upstream call, whose failure becomes the empty list. *)
Lemma sorted_posts_cold (script : nat -> Result (list PostEntry) * Z)
  bySlug (w : World Value) :
  (useCache (options self) = true -> enableCache cfg = true ->
   forall c, JSMap.get (ContentManager.sortedPostsKey self) (entries w)
             = Some c -> ttl c <= clock w - timestamp c) ->
  let out := ContentManager.getSortedPosts cfg
               (mkUtils (scripted script) bySlug) self w in
  fst out = Ok (match fst (script (calls w)) with
                | Ok posts => posts
                | Throw _ => []
                end)
  /\ calls (snd out) = S (calls w).
Proof.
  intros Hcold out. subst out.
  set (posts' := match fst (script (calls w)) with
                 | Ok posts => posts
                 | Throw _ => []
                 end).
  assert (Hfetch : forall u : World Value, calls u = calls w ->
            exists u1,
              ContentManager.fetchStrapiPosts cfg
                (mkUtils (scripted script) bySlug) self u = (Ok posts', u1)
              /\ calls u1 = S (calls w)).
  { intros u Hu. rewrite fetchStrapiPosts_run.
    cbn [utils_getSortedPosts]. rewrite scripted_called.
    cbn [calls logged]. rewrite Hu. subst posts'.
    destruct (fst (script (calls w))) as [posts|e];
      eexists; (split; [reflexivity|]); cbn; now rewrite Hu. }
  cut (exists w', ContentManager.getSortedPosts cfg
                    (mkUtils (scripted script) bySlug) self w = (Ok posts', w')
                  /\ calls w' = S (calls w)).
  { intros (w' & -> & Hc). auto. }
  set (key := ContentManager.sortedPostsKey self) in *.
  set (thunk := (posts <- ContentManager.fetchStrapiPosts cfg
                            (mkUtils (scripted script) bySlug) self;;
                 ret (VPosts posts))).
  assert (Hthunk : forall u : World Value, calls u = calls w ->
            exists u1, thunk u = (Ok (VPosts posts'), u1)
                       /\ calls u1 = S (calls w)).
  { intros u Hu. destruct (Hfetch u Hu) as (u1 & Hu1 & Hc).
    exists u1. subst thunk. unfold bind. now rewrite Hu1. }
  destruct (useCache (options self)) eqn:Huse.
  2:{ unfold ContentManager.getSortedPosts,
        ContentManager.getStrapiPostsWithFallback.
      rewrite Huse. cbn [negb]. apply Hfetch. reflexivity. }
  assert (Hunfold :
    ContentManager.getSortedPosts cfg (mkUtils (scripted script) bySlug) self w
    = match MemoryCache.get cfg key thunk (Some (cacheTTL (options self))) w
      with
      | (Ok v, w') => ContentManager.as_posts v w'
      | (Throw e, w') => (Throw e, w')
      end).
  { unfold ContentManager.getSortedPosts,
      ContentManager.getStrapiPostsWithFallback. now rewrite Huse. }
  rewrite Hunfold.
  destruct (enableCache cfg) eqn:En.
  - destruct (Hthunk (logged (info_events cfg ("Cache miss for key: " ++ key)) w)
                eq_refl) as (u1 & Hu1 & Hc).
    destruct (get_miss_stored cfg key thunk
                (Some (cacheTTL (options self))) w (VPosts posts') u1 En)
      as (H1 & H2 & _).
    + intros c Hc0. apply fresh_false_of_expired. now apply Hcold.
    + exact Hu1.
    + destruct (MemoryCache.get cfg key thunk _ w) as [r wa].
      cbn [fst snd] in *. subst r. exists wa. split; [reflexivity|].
      now rewrite H2.
  - rewrite get_disabled by assumption.
    destruct (Hthunk w eq_refl) as (u1 & -> & Hc). exists u1. auto.
Qed.

(** [ContentManager.getSortedPosts] when the posts are fresh in the
    cache: no upstream call. *)
Lemma sorted_posts_warm strapiUtils c posts (w : World Value) :
  useCache (options self) = true ->
  enableCache cfg = true ->
  JSMap.get (ContentManager.sortedPostsKey self) (entries w) = Some c ->
  clock w - timestamp c < ttl c ->
  data c = VPosts posts ->
  let out := ContentManager.getSortedPosts cfg strapiUtils self w in
  fst out = Ok posts /\ calls (snd out) = calls w.
Proof.
  intros Huse En Hc Hfresh Hdata out. subst out.
  cut (exists w', ContentManager.getSortedPosts cfg strapiUtils self w
                  = (Ok posts, w')
                  /\ calls w' = calls w).
  { intros (w' & -> & Hw'). auto. }
  unfold ContentManager.getSortedPosts,
    ContentManager.getStrapiPostsWithFallback.
  rewrite Huse. cbn [negb]. unfold bind at 1.
  rewrite (get_hit cfg _ _ _ w c En Hc).
  - rewrite Hdata. eexists. split; reflexivity.
  - unfold MemoryCache.fresh. now apply Z.ltb_lt.
Qed.

Lemma hybrid_info_calls message (w : World Value) :
  calls (snd (logger.info cfg message w)) = calls w
  /\ entries (snd (logger.info cfg message w)) = entries w
  /\ clock (snd (logger.info cfg message w)) = clock w.
Proof. rewrite logger_info_run. cbn. auto. Qed.

Lemma hybrid_success_calls message (w : World Value) :
  fst (logger.success cfg message w) = Ok tt
  /\ calls (snd (logger.success cfg message w)) = calls w.
Proof. unfold logger.success. destruct (enableDebugLogs cfg); cbn; auto. Qed.

(** The three readers of [hybrid-content-utils] in terms of the posts
    [ContentManager.getSortedPosts] resolves to. *)
Lemma hybrid_readers_of strapiUtils (w : World Value) posts (n : nat) :
  (forall u : World Value,
     calls u = calls w -> entries u = entries w -> clock u = clock w ->
     fst (ContentManager.getSortedPosts cfg strapiUtils self u) = Ok posts
     /\ calls (snd (ContentManager.getSortedPosts cfg strapiUtils self u))
        = n) ->
  let sorted := hybrid.getSortedPosts cfg strapiUtils self w in
  let slugs := hybrid.getAllPostSlugs cfg strapiUtils self w in
  let tags := hybrid.getTagList cfg strapiUtils self w in
  (fst sorted = Ok posts /\ calls (snd sorted) = n)
  /\ (fst slugs = Ok (map entry_slug posts) /\ calls (snd slugs) = n)
  /\ (fst tags = Ok (hybrid.tags_of_posts posts) /\ calls (snd tags) = n).
Proof.
  intros Hget sorted slugs tags. subst sorted slugs tags.
  unfold hybrid.getSortedPosts, hybrid.getAllPostSlugs, hybrid.getTagList.
  repeat split.
  all: unfold bind at 1;
    match goal with
    | |- context [logger.info cfg ?m ?w0] =>
        destruct (hybrid_info_calls m w0) as (Hc & He & Hk);
        destruct (logger.info cfg m w0) as [[[]|e0] u] eqn:Hi;
        [|rewrite logger_info_run in Hi; discriminate]
    end;
    cbn [fst snd] in *;
    destruct (Hget u Hc He Hk) as (H1 & H2);
    unfold try_catch, bind;
    destruct (ContentManager.getSortedPosts cfg strapiUtils self u)
      as [r u1]; cbn [fst snd] in *; subst r;
    match goal with
    | |- context [logger.success cfg ?m ?w1] =>
        destruct (hybrid_success_calls m w1) as (Hs1 & Hs2);
        destruct (logger.success cfg m w1) as [rs u2];
        cbn [fst snd] in *; subst rs; cbn; congruence
    end.
Qed.

(** X22.  The readers of [hybrid-content-utils] on a cold manager:
    unless a fresh entry can be served from the cache, [getSortedPosts],
    [getAllPostSlugs] and [getTagList] each contact the upstream once
    and resolve to the posts, their slugs and their tag counts; when the
    upstream rejects they resolve to the empty list. *)
Theorem hybrid_readers_cold (script : nat -> Result (list PostEntry) * Z)
  bySlug (w : World Value) :
  (useCache (options self) = true -> enableCache cfg = true ->
   forall c, JSMap.get (ContentManager.sortedPostsKey self) (entries w)
             = Some c -> ttl c <= clock w - timestamp c) ->
  let strapiUtils := mkUtils (scripted script) bySlug in
  let posts := match fst (script (calls w)) with
               | Ok posts => posts
               | Throw _ => []
               end in
  let sorted := hybrid.getSortedPosts cfg strapiUtils self w in
  let slugs := hybrid.getAllPostSlugs cfg strapiUtils self w in
  let tags := hybrid.getTagList cfg strapiUtils self w in
  (fst sorted = Ok posts /\ calls (snd sorted) = S (calls w))
  /\ (fst slugs = Ok (map entry_slug posts) /\ calls (snd slugs) = S (calls w))
  /\ (fst tags = Ok (hybrid.tags_of_posts posts)
      /\ calls (snd tags) = S (calls w)).
Proof.
  intros Hcold strapiUtils posts.
  apply hybrid_readers_of. intros u Hc He Hk.
  destruct (sorted_posts_cold script bySlug u) as (H1 & H2).
  - rewrite He, Hk. exact Hcold.
  - rewrite Hc in H1, H2. auto.
Qed.

(** X23.  The readers of [hybrid-content-utils] on a warm manager:
    while the post list is fresh in the cache, [getSortedPosts],
    [getAllPostSlugs] and [getTagList] resolve to the cached posts, their
    slugs and their tag counts without contacting the upstream, whatever
    the upstream is. *)
Theorem hybrid_readers_warm strapiUtils c posts (w : World Value) :
  useCache (options self) = true ->
  enableCache cfg = true ->
  JSMap.get (ContentManager.sortedPostsKey self) (entries w) = Some c ->
  clock w - timestamp c < ttl c ->
  data c = VPosts posts ->
  let sorted := hybrid.getSortedPosts cfg strapiUtils self w in
  let slugs := hybrid.getAllPostSlugs cfg strapiUtils self w in
  let tags := hybrid.getTagList cfg strapiUtils self w in
  (fst sorted = Ok posts /\ calls (snd sorted) = calls w)
  /\ (fst slugs = Ok (map entry_slug posts) /\ calls (snd slugs) = calls w)
  /\ (fst tags = Ok (hybrid.tags_of_posts posts)
      /\ calls (snd tags) = calls w).
Proof.
  intros Huse En Hc Hfresh Hdata.
  apply hybrid_readers_of. intros u Hcu He Hk.
  destruct (sorted_posts_warm strapiUtils c posts u) as (H1 & H2);
    try assumption.
  - now rewrite He.
  - now rewrite Hk.
  - rewrite Hcu in H2. auto.
Qed.

(** X24.  [clearCache] forces a refetch: after it the entry map is
    empty, and the next [getSortedPosts] contacts the upstream once,
    whatever was cached before, resolving to the upstream's posts or to
    the empty list when the upstream rejects. *)
Theorem clearCache_refetches (script : nat -> Result (list PostEntry) * Z)
  bySlug (w : World Value) :
  let w' := snd (ContentManager.clearCache cfg w) in
  let out := ContentManager.getSortedPosts cfg
               (mkUtils (scripted script) bySlug) self w' in
  entries w' = []
  /\ fst out = Ok (match fst (script (calls w)) with
                   | Ok posts => posts
                   | Throw _ => []
                   end)
  /\ calls (snd out) = S (calls w).
Proof.
  intros w'.
  assert (Hw' : entries w' = [] /\ calls w' = calls w).
  { subst w'. unfold ContentManager.clearCache, bind.
    destruct (clear_run cfg w) as [evs ->]. now rewrite logger_info_run. }
  destruct Hw' as [He Hc]. clearbody w'. intros out. subst out.
  split; [exact He|]. rewrite <- Hc.
  apply (sorted_posts_cold script bySlug w').
  intros _ _ c Hget. rewrite He in Hget. discriminate Hget.
Qed.

End HybridFacts.

(* ================================================================== *)
(** * The content manager over the repository's upstream              *)
(* ================================================================== *)

Section RetryMore.
Context {Data : Type}.
Implicit Types (w : World Data).

Lemma retry_loop_ext {T} (f g : M Data T) maxRetries baseDelay :
  (forall w, f w = g w) ->
  forall n attempt lastError w,
    retry_loop f maxRetries baseDelay n attempt lastError w
    = retry_loop g maxRetries baseDelay n attempt lastError w.
Proof.
  intros Hfg. induction n as [|n IH]; intros attempt lastError w;
    [reflexivity|].
  cbn [retry_loop]. unfold try_catch. rewrite Hfg.
  destruct (g w) as [[v|e] w1]; [reflexivity|].
  destruct (isAPIClientError e); [reflexivity|].
  destruct (attempt =? maxRetries); [reflexivity|].
  unfold bind, emit, sleep. cbn [fst snd]. apply IH.
Qed.

Lemma retry_loop_first_ok {T} (f : M Data T) maxRetries baseDelay n attempt
  lastError w v w1 :
  f w = (Ok v, w1) ->
  retry_loop f maxRetries baseDelay (S n) attempt lastError w = (Ok v, w1).
Proof. intros H. cbn [retry_loop]. unfold try_catch. now rewrite H. Qed.

Lemma retry_loop_alerts {T} (script : nat -> Result T * Z)
  maxRetries baseDelay :
  (forall i, exists e, fst (script i) = Throw e
                       /\ isAPIClientError e = false) ->
  forall n attempt lastError w,
    maxRetries = attempt + Z.of_nat n ->
    let out := retry_loop (scripted script) maxRetries baseDelay (S n)
                          attempt lastError w in
    alerts (trace (snd out))
    = (alerts (trace w) ++ retry_warnings baseDelay attempt n)%list
    /\ exists evs, trace (snd out) = (trace w ++ evs)%list.
Proof.
  intros Hfail. induction n as [|n IH]; intros attempt lastError w Hm out;
    subst out; destruct (Hfail (calls w)) as (e & He & Hc).
  - replace attempt with maxRetries by lia.
    rewrite (retry_loop_last script maxRetries baseDelay 0 lastError w e He).
    unfold called, retry_warnings. cbn [snd trace seq map]. split.
    + rewrite alerts_app. reflexivity.
    + eexists; reflexivity.
  - rewrite (retry_loop_step script maxRetries baseDelay (S n) attempt
               lastError w e He Hc) by lia.
    specialize (IH (attempt + 1) (Some e) (retried script baseDelay attempt w)).
    destruct IH as (H1 & evs & H2); [lia|]. split.
    + rewrite H1. unfold retried, retry_warnings. cbn [trace].
      rewrite alerts_app. cbn [alerts filter level_of seq map].
      rewrite <- app_assoc. f_equal. cbn [app]. rewrite Z.add_0_r.
      f_equal. rewrite <- seq_shift, map_map.
      apply map_ext. intros i.
      replace (attempt + 1 + Z.of_nat i) with (attempt + Z.of_nat (S i))
        by lia.
      reflexivity.
    + rewrite H2. unfold retried. cbn [trace]. rewrite <- app_assoc.
      eexists; reflexivity.
Qed.

End RetryMore.

Section PublishedFacts.
Variable cfg : Config.
Variable api : ApiConfig.
Implicit Types (w : World Value).

Lemma publishedFetchFunction_fails (script : nat -> Result Value * Z) w e :
  fst (script (calls w)) = Throw e ->
  strapi.publishedFetchFunction cfg (fun _ => scripted script) w
  = scripted script w.
Proof.
  intros He. unfold strapi.publishedFetchFunction. unfold bind at 1.
  rewrite scripted_called, He. reflexivity.
Qed.

Lemma publishedFetchFunction_resolves (script : nat -> Result Value * Z) w
  articles :
  fst (script (calls w)) = Ok (VResponse articles) ->
  exists evs,
    Forall (fun ev => level_of ev = Some LLog) evs
    /\ strapi.publishedFetchFunction cfg (fun _ => scripted script) w
       = (Ok (VResponse articles), logged evs (called script w)).
Proof.
  intros He. unfold strapi.publishedFetchFunction. unfold bind at 1.
  rewrite scripted_called, He. unfold bind, lift, ret.
  destruct articles as [|firstArticle rest]; cbn [strapi.first_article].
  - exists []. split; [constructor|]. now rewrite logged_nil.
  - unfold logger.info_object. destruct (enableDebugLogs cfg).
    + eexists. split; [|reflexivity]. repeat constructor.
    + exists []. split; [constructor|]. now rewrite logged_nil.
Qed.

(** The thunk of [getPublishedArticles] during an outage: [retries + 1]
    requests, the warnings of the loop, the cache left alone, the error
    of the last request rethrown. *)
Lemma published_thunk_outage (script : nat -> Result Value * Z) w :
  outage script ->
  (enableRetry api = true -> 0 <= retryAttempts api) ->
  exists e wr,
    strapi.run_with_retry api
      (strapi.publishedFetchFunction cfg (fun _ => scripted script)) w
    = (Throw e, wr)
    /\ fst (script (calls w + retries api)%nat) = Throw e
    /\ calls wr = (calls w + retries api + 1)%nat
    /\ apiCache wr = apiCache w
    /\ alerts (trace wr)
       = (alerts (trace w)
          ++ retry_warnings (retryBaseDelay api) 0 (retries api))%list
    /\ exists evs, trace wr = (trace w ++ evs)%list.
Proof.
  intros Hout Hm. unfold strapi.run_with_retry, retries.
  destruct (enableRetry api) eqn:Hretry; cbn [negb].
  - specialize (Hm eq_refl). unfold retryWithBackoff.
    rewrite (retry_loop_ext _ (scripted script)).
    2:{ intros u. destruct (Hout (calls u)) as (e & He & _).
        now apply publishedFetchFunction_fails with e. }
    replace (Z.to_nat (retryAttempts api + 1))
      with (S (Z.to_nat (retryAttempts api))) by lia.
    destruct (retry_loop_exhausts script (retryAttempts api)
                (retryBaseDelay api) Hout (Z.to_nat (retryAttempts api)) 0
                None w) as (H1 & H2 & _); [lia|].
    destruct (retry_loop_alerts script (retryAttempts api)
                (retryBaseDelay api) Hout (Z.to_nat (retryAttempts api)) 0
                None w) as (H3 & H4); [lia|].
    pose proof (retry_loop_cache script (retryAttempts api)
                  (retryBaseDelay api) (S (Z.to_nat (retryAttempts api))) 0
                  None w) as H5.
    destruct (retry_loop (scripted script) (retryAttempts api)
                (retryBaseDelay api) (S (Z.to_nat (retryAttempts api))) 0
                None w) as [r wr].
    cbn [fst snd] in *.
    destruct (Hout (calls w + Z.to_nat (retryAttempts api))%nat)
      as (e & He & _).
    exists e, wr. rewrite He in H1. subst r.
    split; [reflexivity|]. split; [exact He|]. split; [lia|].
    split; [exact H5|]. split; [exact H3|exact H4].
  - destruct (Hout (calls w)) as (e & He & _).
    rewrite (publishedFetchFunction_fails script w e He), scripted_called, He.
    exists e, (called script w). rewrite Nat.add_0_r.
    split; [reflexivity|]. split; [exact He|].
    unfold called, retry_warnings. cbn [calls apiCache trace seq map].
    split; [lia|]. split; [reflexivity|]. split.
    + rewrite alerts_app. reflexivity.
    + eexists; reflexivity.
Qed.

(** [getPublishedArticles] during an outage: it rejects with the error
    of the last request when no response is cached, and resolves to an
    expired response, printing the stale warning, when there is one. *)
Lemma getPublishedArticles_outage (script : nat -> Result Value * Z) w :
  enableCache cfg = true ->
  outage script ->
  (enableRetry api = true -> 0 <= retryAttempts api) ->
  (forall c, JSMap.get "published-articles" (entries w) = Some c ->
             ttl c <= clock w - timestamp c) ->
  exists e wr,
    strapi.getPublishedArticles cfg api (fun _ => scripted script) w
    = match JSMap.get "published-articles" (entries w) with
      | Some c =>
          (Ok (data c), logged [stale_warning "published-articles"] wr)
      | None => (Throw e, wr)
      end
    /\ fst (script (calls w + retries api)%nat) = Throw e
    /\ calls wr = (calls w + retries api + 1)%nat
    /\ apiCache wr = apiCache w
    /\ alerts (trace wr)
       = (alerts (trace w)
          ++ retry_warnings (retryBaseDelay api) 0 (retries api))%list
    /\ exists evs, trace wr = (trace w ++ evs)%list.
Proof.
  intros En Hout Hm Hexp.
  set (w0 := logged (info_events cfg
                       ("Cache miss for key: " ++ "published-articles")) w).
  destruct (published_thunk_outage script w0 Hout Hm)
    as (e & wr & Hrun & He & Hc & Hcache & Hal & evs & Htr).
  exists e, wr. split; [|split; [exact He|split; [exact Hc|split;
    [exact Hcache|split]]]].
  - unfold strapi.getPublishedArticles.
    change (generateCacheKey "published-articles" []) with "published-articles".
    rewrite (get_miss cfg "published-articles" _ None w En).
    + fold w0. cbv zeta. rewrite Hrun. reflexivity.
    + intros c Hc0. unfold MemoryCache.fresh. apply Z.ltb_ge. now apply Hexp.
  - rewrite Hal. subst w0. unfold logged. cbn [trace].
    now rewrite alerts_app, (alerts_info _ (info_events_level cfg _)),
      app_nil_r.
  - subst w0. unfold logged in Htr. cbn [trace] in Htr. rewrite Htr.
    rewrite <- app_assoc. eexists; reflexivity.
Qed.

End PublishedFacts.

Section RepositoryUpstream.
Variable cfg : Config.
Variable api : ApiConfig.
Variable self : ContentManager.
Variable adaptStrapiArticle : StrapiArticle -> Result PostEntry.
Variable addNavigationInfo : list PostEntry -> M Value (list PostEntry).
Implicit Types (w : World Value).

(** [get] on a miss with a fetcher that resolves. *)
Lemma get_stores key (fetcher : M Value Value) ttl_opt w d w1 :
  enableCache cfg = true ->
  (forall c, JSMap.get key (entries w) = Some c ->
             ttl c <= clock w - timestamp c) ->
  fetcher (logged (info_events cfg ("Cache miss for key: " ++ key)) w)
  = (Ok d, w1) ->
  exists w2,
    MemoryCache.get cfg key fetcher ttl_opt w = (Ok d, w2)
    /\ calls w2 = calls w1
    /\ clock w2 = clock w1
    /\ JSMap.get key (entries w2)
       = Some (mkEntry d (clock w1)
                 (ttl_or_default ttl_opt (defaultTTL (apiCache w1))))
    /\ exists evs, Forall (fun ev => level_of ev = Some LLog) evs
                   /\ trace w2 = (trace w1 ++ evs)%list.
Proof.
  intros En Hexp Hf.
  rewrite (get_miss cfg key fetcher ttl_opt w En), Hf.
  2:{ intros c Hc. unfold MemoryCache.fresh. apply Z.ltb_ge. now apply Hexp. }
  destruct (set_run_levels cfg key d ttl_opt w1 En) as (evs & Hlv & ->).
  eexists. split; [reflexivity|].
  cbn [snd calls clock logged with_cache trace].
  split; [reflexivity|]. split; [reflexivity|]. split.
  - unfold entries. cbn [apiCache cache]. apply JSMap_get_set_same.
  - exists evs. auto.
Qed.

Lemma manager_sorted_unfold strapiUtils :
  useCache (options self) = true ->
  forall w,
    ContentManager.getSortedPosts cfg strapiUtils self w
    = match MemoryCache.get cfg (ContentManager.sortedPostsKey self)
              (posts <- ContentManager.fetchStrapiPosts cfg strapiUtils self;;
               ret (VPosts posts))
              (Some (cacheTTL (options self))) w
      with
      | (Ok v, w') => ContentManager.as_posts v w'
      | (Throw e, w') => (Throw e, w')
      end.
Proof.
  intros Huse w. unfold ContentManager.getSortedPosts,
    ContentManager.getStrapiPostsWithFallback. now rewrite Huse.
Qed.

Lemma manager_ttl_spec defaultTTL :
  ttl_or_default (Some (cacheTTL (options self))) defaultTTL
  = manager_ttl self defaultTTL.
Proof. reflexivity. Qed.

(** What [getSortedPosts] of the manager does on a miss when the
    upstream, run after the two log lines, resolves to [posts] in the
    world [wu]. *)
Lemma manager_sorted_miss strapiUtils w posts wu :
  useCache (options self) = true ->
  enableCache cfg = true ->
  (forall c, JSMap.get (ContentManager.sortedPostsKey self) (entries w)
             = Some c -> ttl c <= clock w - timestamp c) ->
  utils_getSortedPosts strapiUtils
    (logged (info_events cfg "正在从Strapi获取文章列表...")
       (logged (info_events cfg
                  ("Cache miss for key: "
                     ++ ContentManager.sortedPostsKey self)) w))
  = (Ok posts, wu) ->
  exists w2,
    ContentManager.getSortedPosts cfg strapiUtils self w = (Ok posts, w2)
    /\ calls w2 = calls wu
    /\ clock w2 = clock wu
    /\ JSMap.get (ContentManager.sortedPostsKey self) (entries w2)
       = Some (mkEntry (VPosts posts) (clock wu)
                 (manager_ttl self (defaultTTL (apiCache wu))))
    /\ exists evs, Forall (fun ev => level_of ev = Some LLog) evs
                   /\ trace w2 = (trace wu ++ evs)%list.
Proof.
  intros Huse En Hexp Hup.
  set (key := ContentManager.sortedPostsKey self) in *.
  set (success := if enableDebugLogs cfg
                  then [Console LLog
                          ("✅ " ++ "从Strapi获取到 "
                             ++ show_Z (Z.of_nat (List.length posts))
                             ++ " 篇文章") None]
                  else []).
  assert (Hsucc : Forall (fun ev => level_of ev = Some LLog) success).
  { subst success. destruct (enableDebugLogs cfg); repeat constructor. }
  destruct (get_stores key
              (posts0 <- ContentManager.fetchStrapiPosts cfg strapiUtils self;;
               ret (VPosts posts0))
              (Some (cacheTTL (options self))) w (VPosts posts)
              (logged success wu) En Hexp)
    as (w2 & Hget & Hc & Hk & Hentry & evs & Hlv & Htr).
  { unfold bind. rewrite fetchStrapiPosts_run, Hup. reflexivity. }
  exists w2. rewrite (manager_sorted_unfold strapiUtils Huse). fold key.
  rewrite Hget.
  split; [reflexivity|]. split; [exact Hc|]. split; [exact Hk|].
  split; [exact Hentry|].
  exists (success ++ evs)%list. split.
  - apply Forall_app. auto.
  - rewrite Htr. unfold logged. cbn [trace]. now rewrite app_assoc.
Qed.

(** The same for [getPostBySlug]: what is stored is the post, or [null]
    when the upstream resolved to [null]. *)
Lemma manager_slug_miss strapiUtils slug w post wu :
  useCache (options self) = true ->
  enableCache cfg = true ->
  (forall c, JSMap.get (ContentManager.postBySlugKey self slug) (entries w)
             = Some c -> ttl c <= clock w - timestamp c) ->
  utils_getPostBySlug strapiUtils slug
    (logged (info_events cfg ("正在从Strapi获取文章: " ++ slug))
       (logged (info_events cfg
                  ("Cache miss for key: "
                     ++ ContentManager.postBySlugKey self slug)) w))
  = (Ok post, wu) ->
  let value := match post with Some p => VPost p | None => VNull end in
  exists w2,
    ContentManager.getPostBySlug cfg strapiUtils self slug w = (Ok value, w2)
    /\ calls w2 = calls wu
    /\ clock w2 = clock wu
    /\ JSMap.get (ContentManager.postBySlugKey self slug) (entries w2)
       = Some (mkEntry value (clock wu)
                 (manager_ttl self (defaultTTL (apiCache wu))))
    /\ alerts (trace w2)
       = (alerts (trace wu)
          ++ match post with
             | Some _ => []
             | None => [Console LWarn ("⚠️ " ++ "未找到文章: " ++ slug) None]
             end)%list
    /\ exists evs, trace w2 = (trace wu ++ evs)%list.
Proof.
  intros Huse En Hexp Hup value.
  set (key := ContentManager.postBySlugKey self slug) in *.
  set (after := match post with
                | Some p =>
                    if enableDebugLogs cfg
                    then [Console LLog
                            ("✅ " ++ "成功获取文章: "
                               ++ PostData.title (entry_data p)) None]
                    else []
                | None => [Console LWarn ("⚠️ " ++ "未找到文章: " ++ slug) None]
                end).
  destruct (get_stores key
              (ContentManager.fetchStrapiPostBySlug cfg strapiUtils slug)
              (Some (cacheTTL (options self))) w value
              (logged after wu) En Hexp)
    as (w2 & Hget & Hc & Hk & Hentry & evs & Hlv & Htr).
  { rewrite fetchStrapiPostBySlug_run, Hup. subst value after.
    now destruct post. }
  exists w2. unfold ContentManager.getPostBySlug,
    ContentManager.getStrapiPostBySlugWithFallback.
  rewrite Huse. cbn [negb]. fold key. rewrite Hget.
  split; [reflexivity|]. split; [exact Hc|]. split; [exact Hk|].
  split; [exact Hentry|]. split.
  - rewrite Htr. unfold logged. cbn [trace].
    rewrite !alerts_app, (alerts_info evs Hlv), app_nil_r. f_equal.
    subst after. destruct post; [|reflexivity].
    destruct (enableDebugLogs cfg); reflexivity.
  - rewrite Htr. unfold logged. cbn [trace]. rewrite <- app_assoc.
    eexists; reflexivity.
Qed.

Lemma upstream_log_frame w :
  let w0 := logged (info_events cfg "正在从Strapi获取文章列表...")
              (logged (info_events cfg
                         ("Cache miss for key: "
                            ++ ContentManager.sortedPostsKey self)) w) in
  alerts (trace w0) = alerts (trace w)
  /\ exists evs, trace w0 = (trace w ++ evs)%list.
Proof.
  unfold logged. cbn [trace]. split.
  - now rewrite !alerts_app, !(alerts_info _ (info_events_level cfg _)),
      !app_nil_r.
  - rewrite <- app_assoc. eexists; reflexivity.
Qed.

(** The post list through the repository's upstream during an outage,
    on a miss of the manager's entry, with no response in the cache. *)
Lemma sorted_posts_outage_cold (script : nat -> Result Value * Z) w :
  useCache (options self) = true ->
  enableCache cfg = true ->
  outage script ->
  (enableRetry api = true -> 0 <= retryAttempts api) ->
  (forall c, JSMap.get (ContentManager.sortedPostsKey self) (entries w)
             = Some c -> ttl c <= clock w - timestamp c) ->
  JSMap.get "published-articles" (entries w) = None ->
  let upstream := strapiContentUtils.module cfg api (fun _ => scripted script)
                    adaptStrapiArticle addNavigationInfo in
  let out := ContentManager.getSortedPosts cfg upstream self w in
  exists e,
    fst (script (calls w + retries api)%nat) = Throw e
    /\ fst out = Ok []
    /\ calls (snd out) = (calls w + retries api + 1)%nat
    /\ JSMap.get (ContentManager.sortedPostsKey self) (entries (snd out))
       = Some (mkEntry (VPosts []) (clock (snd out))
                 (manager_ttl self (defaultTTL (apiCache w))))
    /\ alerts (trace (snd out))
       = (alerts (trace w)
          ++ retry_warnings (retryBaseDelay api) 0 (retries api)
          ++ [Console LError "Error fetching posts from Strapi:" (Some e)])%list
    /\ exists evs, trace (snd out) = (trace w ++ evs)%list.
Proof.
  intros Huse En Hout Hm Hexp Hpub upstream out.
  set (skey := ContentManager.sortedPostsKey self) in *.
  set (w0 := logged (info_events cfg "正在从Strapi获取文章列表...")
               (logged (info_events cfg ("Cache miss for key: " ++ skey)) w)).
  destruct (upstream_log_frame w) as (Hal0 & ev0 & Htr0).
  fold skey in Hal0, Htr0. fold w0 in Hal0, Htr0.
  destruct (getPublishedArticles_outage cfg api script w0 En Hout Hm)
    as (e & wr & Hrun & He & Hc & Hcache & Hal & evr & Htr).
  { intros c Hc0. change (entries w0) with (entries w) in Hc0. congruence. }
  change (entries w0) with (entries w) in Hrun.
  change (calls w0) with (calls w) in He, Hc.
  rewrite Hpub in Hrun.
  set (wu := logged [Console LError "Error fetching posts from Strapi:"
                       (Some e)] wr).
  assert (Hup : utils_getSortedPosts upstream w0 = (Ok [], wu)).
  { subst upstream. unfold strapiContentUtils.module, strapiUtils.module.
    cbn [utils_getSortedPosts]. unfold strapiUtils.getSortedPosts, try_catch.
    unfold strapiContentUtils.publishedArticles. unfold bind at 1 2.
    rewrite Hrun. reflexivity. }
  destruct (manager_sorted_miss upstream w [] wu Huse En Hexp Hup)
    as (w2 & Hget & Hc2 & Hk2 & Hentry & evs & Hlv & Htr2).
  subst out. rewrite Hget. cbn [fst snd]. exists e. fold skey in Hentry.
  split; [exact He|]. split; [reflexivity|]. split; [now rewrite Hc2|].
  split; [|split].
  - rewrite Hentry, Hk2. subst wu. unfold logged. cbn [clock apiCache].
    now rewrite Hcache.
  - rewrite Htr2, alerts_app, (alerts_info evs Hlv), app_nil_r.
    subst wu. unfold logged. cbn [trace].
    rewrite alerts_app, Hal, Hal0, <- app_assoc. reflexivity.
  - rewrite Htr2. subst wu. unfold logged. cbn [trace].
    rewrite Htr, Htr0, <- !app_assoc. eexists; reflexivity.
Qed.

(** The same with an expired response in the cache: the stale response
    is served by the upstream's lookup, adapted, and stored by the
    manager as a new entry. *)
Lemma sorted_posts_outage_stale (script : nat -> Result Value * Z) w
  c articles posts posts' :
  useCache (options self) = true ->
  enableCache cfg = true ->
  outage script ->
  (enableRetry api = true -> 0 <= retryAttempts api) ->
  (forall c, JSMap.get (ContentManager.sortedPostsKey self) (entries w)
             = Some c -> ttl c <= clock w - timestamp c) ->
  JSMap.get "published-articles" (entries w) = Some c ->
  ttl c <= clock w - timestamp c ->
  data c = VResponse articles ->
  strapiUtils.adaptStrapiArticles StrapiArticle adaptStrapiArticle articles
  = Ok posts ->
  (forall u, addNavigationInfo posts u = (Ok posts', u)) ->
  let upstream := strapiContentUtils.module cfg api (fun _ => scripted script)
                    adaptStrapiArticle addNavigationInfo in
  let out := ContentManager.getSortedPosts cfg upstream self w in
  fst out = Ok posts'
  /\ calls (snd out) = (calls w + retries api + 1)%nat
  /\ JSMap.get (ContentManager.sortedPostsKey self) (entries (snd out))
     = Some (mkEntry (VPosts posts') (clock (snd out))
               (manager_ttl self (defaultTTL (apiCache w))))
  /\ alerts (trace (snd out))
     = (alerts (trace w)
        ++ retry_warnings (retryBaseDelay api) 0 (retries api)
        ++ [stale_warning "published-articles"])%list
  /\ exists evs, trace (snd out) = (trace w ++ evs)%list.
Proof.
  intros Huse En Hout Hm Hexp Hpub Hold Hdata Hadapt Hnav upstream out.
  set (skey := ContentManager.sortedPostsKey self) in *.
  set (w0 := logged (info_events cfg "正在从Strapi获取文章列表...")
               (logged (info_events cfg ("Cache miss for key: " ++ skey)) w)).
  destruct (upstream_log_frame w) as (Hal0 & ev0 & Htr0).
  fold skey in Hal0, Htr0. fold w0 in Hal0, Htr0.
  destruct (getPublishedArticles_outage cfg api script w0 En Hout Hm)
    as (e & wr & Hrun & He & Hc & Hcache & Hal & evr & Htr).
  { intros c0 Hc0. change (entries w0) with (entries w) in Hc0.
    change (clock w0) with (clock w). congruence. }
  change (entries w0) with (entries w) in Hrun.
  change (calls w0) with (calls w) in He, Hc.
  rewrite Hpub, Hdata in Hrun.
  set (wu := logged [stale_warning "published-articles"] wr).
  assert (Hup : utils_getSortedPosts upstream w0 = (Ok posts', wu)).
  { subst upstream. unfold strapiContentUtils.module, strapiUtils.module.
    cbn [utils_getSortedPosts]. unfold strapiUtils.getSortedPosts, try_catch.
    unfold strapiContentUtils.publishedArticles. unfold bind at 1 2 3.
    rewrite Hrun. cbn [fst snd response_articles]. unfold lift at 1.
    unfold bind at 1. unfold lift. rewrite Hadapt, Hnav. reflexivity. }
  destruct (manager_sorted_miss upstream w posts' wu Huse En Hexp Hup)
    as (w2 & Hget & Hc2 & Hk2 & Hentry & evs & Hlv & Htr2).
  subst out. rewrite Hget. cbn [fst snd]. fold skey in Hentry.
  split; [reflexivity|]. split; [now rewrite Hc2|].
  split; [|split].
  - rewrite Hentry, Hk2. subst wu. unfold logged. cbn [clock apiCache].
    now rewrite Hcache.
  - rewrite Htr2, alerts_app, (alerts_info evs Hlv), app_nil_r.
    subst wu. unfold logged. cbn [trace].
    rewrite alerts_app, Hal, Hal0, <- app_assoc. reflexivity.
  - rewrite Htr2. subst wu. unfold logged. cbn [trace].
    rewrite Htr, Htr0, <- !app_assoc. eexists; reflexivity.
Qed.

(** A single post through the repository's upstream when the request
    rejects, on a miss of the manager's entry. *)
Lemma post_by_slug_outage (script : nat -> Result Value * Z) slug w e :
  useCache (options self) = true ->
  enableCache cfg = true ->
  (forall c, JSMap.get (ContentManager.postBySlugKey self slug) (entries w)
             = Some c -> ttl c <= clock w - timestamp c) ->
  fst (script (calls w)) = Throw e ->
  let upstream := strapiContentUtils.module cfg api (fun _ => scripted script)
                    adaptStrapiArticle addNavigationInfo in
  let out := ContentManager.getPostBySlug cfg upstream self slug w in
  fst out = Ok VNull
  /\ calls (snd out) = S (calls w)
  /\ JSMap.get (ContentManager.postBySlugKey self slug) (entries (snd out))
     = Some (mkEntry VNull (clock w + snd (script (calls w)))
               (manager_ttl self (defaultTTL (apiCache w))))
  /\ alerts (trace (snd out))
     = (alerts (trace w)
        ++ [Console LError
              ("Error fetching post with slug " ++ slug ++ " from Strapi:")
              (Some e);
            Console LWarn ("⚠️ " ++ "未找到文章: " ++ slug) None])%list
  /\ exists evs, trace (snd out) = (trace w ++ evs)%list.
Proof.
  intros Huse En Hexp He upstream out.
  set (key := ContentManager.postBySlugKey self slug) in *.
  set (w0 := logged (info_events cfg ("正在从Strapi获取文章: " ++ slug))
               (logged (info_events cfg ("Cache miss for key: " ++ key)) w)).
  set (wu := logged [Console LError
                       ("Error fetching post with slug " ++ slug
                          ++ " from Strapi:") (Some e)]
               (called script w0)).
  assert (Hup : utils_getPostBySlug upstream slug w0 = (Ok None, wu)).
  { subst upstream. unfold strapiContentUtils.module, strapiUtils.module.
    cbn [utils_getPostBySlug]. unfold strapiUtils.getPostBySlug, try_catch.
    unfold strapiContentUtils.articleBySlug, strapi.getArticleBySlug.
    unfold bind at 1 2 3. unfold Date_now. cbn [fst snd].
    rewrite scripted_called. change (calls w0) with (calls w).
    rewrite He. reflexivity. }
  destruct (manager_slug_miss upstream slug w None wu Huse En Hexp Hup)
    as (w2 & Hget & Hc2 & Hk2 & Hentry & Hal & evs & Htr2).
  subst out. rewrite Hget. cbn [fst snd]. fold key in Hentry.
  split; [reflexivity|]. split; [exact Hc2|]. split; [exact Hentry|].
  split.
  - rewrite Hal. subst wu w0. unfold logged, called. cbn [trace].
    rewrite !alerts_app, !(alerts_info _ (info_events_level cfg _)).
    cbn [alerts filter level_of app]. rewrite !app_nil_r, <- !app_assoc.
    reflexivity.
  - rewrite Htr2. subst wu w0. unfold logged, called. cbn [trace].
    rewrite <- !app_assoc. eexists; reflexivity.
Qed.

Lemma evicted_absent (m : JSMap.t (CacheEntry Value)) ms k :
  JSMap.get k m = None -> JSMap.get k (evicted m ms) = None.
Proof.
  intros H. unfold evicted. destruct (JSMap.size m >=? ms); [|assumption].
  destruct m as [|[k0 e0] rest]; [assumption|].
  destruct (truthy k0); [|assumption].
  cbn in H. now destruct (k0 =? k)%string.
Qed.

(** [getPublishedArticles] when the first request resolves, on a miss:
    the response is stored under [published-articles] with the default
    ttl of the cache. *)
Lemma getPublishedArticles_resolves (script : nat -> Result Value * Z) w
  articles :
  enableCache cfg = true ->
  (enableRetry api = true -> 0 <= retryAttempts api) ->
  (forall c, JSMap.get "published-articles" (entries w) = Some c ->
             ttl c <= clock w - timestamp c) ->
  fst (script (calls w)) = Ok (VResponse articles) ->
  exists w2,
    strapi.getPublishedArticles cfg api (fun _ => scripted script) w
    = (Ok (VResponse articles), w2)
    /\ calls w2 = S (calls w)
    /\ clock w2 = clock w + snd (script (calls w))
    /\ defaultTTL (apiCache w2) = defaultTTL (apiCache w)
    /\ JSMap.get "published-articles" (entries w2)
       = Some (mkEntry (VResponse articles)
                 (clock w + snd (script (calls w)))
                 (defaultTTL (apiCache w)))
    /\ (forall k, k <> "published-articles" ->
                  JSMap.get k (entries w) = None ->
                  JSMap.get k (entries w2) = None)
    /\ alerts (trace w2) = alerts (trace w).
Proof.
  intros En Hm Hexp Hok.
  set (w0 := logged (info_events cfg
                       ("Cache miss for key: " ++ "published-articles")) w).
  destruct (publishedFetchFunction_resolves cfg script w0 articles Hok)
    as (evf & Hlvf & Hfetch).
  assert (Hthunk :
    strapi.run_with_retry api
      (strapi.publishedFetchFunction cfg (fun _ => scripted script)) w0
    = (Ok (VResponse articles), logged evf (called script w0))).
  { unfold strapi.run_with_retry.
    destruct (enableRetry api) eqn:Hretry; cbn [negb]; [|exact Hfetch].
    unfold retryWithBackoff.
    replace (Z.to_nat (retryAttempts api + 1))
      with (S (Z.to_nat (retryAttempts api))) by (specialize (Hm eq_refl); lia).
    now apply retry_loop_first_ok. }
  unfold strapi.getPublishedArticles.
  change (generateCacheKey "published-articles" []) with "published-articles".
  cbv zeta.
  rewrite (get_miss cfg "published-articles" _ None w En).
  2:{ intros c Hc0. unfold MemoryCache.fresh. apply Z.ltb_ge. now apply Hexp. }
  fold w0. rewrite Hthunk.
  destruct (set_run_levels cfg "published-articles" (VResponse articles) None
              (logged evf (called script w0)) En) as (evs & Hlv & ->).
  eexists. split; [reflexivity|].
  cbn [snd calls clock logged with_cache trace apiCache defaultTTL called].
  split; [reflexivity|]. split; [reflexivity|]. split; [reflexivity|].
  split; [|split].
  - unfold entries. cbn [apiCache cache]. apply JSMap_get_set_same.
  - intros k Hk Hnone. unfold entries, logged, with_cache.
    cbn [apiCache cache].
    rewrite JSMap_get_set_other by congruence. apply evicted_absent.
    exact Hnone.
  - subst w0. unfold logged. cbn [trace].
    rewrite !alerts_app, (alerts_info evs Hlv), (alerts_info evf Hlvf),
      (alerts_info _ (info_events_level cfg _)).
    cbn [alerts filter level_of app]. now rewrite !app_nil_r.
Qed.

(** [strapi-content-utils] on a response of [getPublishedArticles]. *)
Lemma upstream_sorted_of_response (fetchAPI : string -> M Value Value)
  u u1 articles posts posts' :
  strapi.getPublishedArticles cfg api fetchAPI u
  = (Ok (VResponse articles), u1) ->
  strapiUtils.adaptStrapiArticles StrapiArticle adaptStrapiArticle articles
  = Ok posts ->
  (forall u, addNavigationInfo posts u = (Ok posts', u)) ->
  utils_getSortedPosts
    (strapiContentUtils.module cfg api fetchAPI adaptStrapiArticle
       addNavigationInfo) u
  = (Ok posts', u1).
Proof.
  intros Hrun Hadapt Hnav.
  unfold strapiContentUtils.module, strapiUtils.module.
  cbn [utils_getSortedPosts]. unfold strapiUtils.getSortedPosts, try_catch.
  unfold strapiContentUtils.publishedArticles. unfold bind at 1 2 3.
  rewrite Hrun. cbn [fst snd response_articles]. unfold lift at 1.
  unfold bind at 1. unfold lift. rewrite Hadapt, Hnav. reflexivity.
Qed.

Lemma sortedPostsKey_not_published :
  ContentManager.sortedPostsKey self <> "published-articles".
Proof.
  unfold ContentManager.sortedPostsKey, generateCacheKey.
  match goal with
  | |- (if truthy ?s then _ else _) <> _ => destruct (truthy s)
  end; cbn; discriminate.
Qed.

(** X14.  [useCache: false] takes the manager's own entry out of play
    but not the cache: [getSortedPosts] then resolves to what the
    upstream resolved to (or to the empty list when it rejected), and
    the cache is as the upstream left it.  With the repository's
    upstream a request that resolves is stored under
    [published-articles], nothing is stored under the manager's key, and
    a further [getSortedPosts] within the default ttl of the cache
    resolves to the same posts without any request, whatever the HTTP
    layer has become. *)
Theorem sorted_posts_uncached :
  useCache (options self) = false ->
  enableCache cfg = true ->
  (enableRetry api = true -> 0 <= retryAttempts api) ->
  (forall strapiUtils w,
     let up := utils_getSortedPosts strapiUtils
                 (logged (info_events cfg "正在从Strapi获取文章列表...") w) in
     let out := ContentManager.getSortedPosts cfg strapiUtils self w in
     fst out = Ok (match fst up with
                   | Ok posts => posts
                   | Throw _ => []
                   end)
     /\ apiCache (snd out) = apiCache (snd up)
     /\ calls (snd out) = calls (snd up))
  /\ (forall (script : nat -> Result Value * Z)
             (fetchAPI' : string -> M Value Value)
             w articles posts posts' gap,
        (forall c, JSMap.get "published-articles" (entries w) = Some c ->
                   ttl c <= clock w - timestamp c) ->
        fst (script (calls w)) = Ok (VResponse articles) ->
        strapiUtils.adaptStrapiArticles StrapiArticle adaptStrapiArticle
          articles = Ok posts ->
        (forall u, addNavigationInfo posts u = (Ok posts', u)) ->
        gap < defaultTTL (apiCache w) ->
        let out1 := ContentManager.getSortedPosts cfg
                      (strapiContentUtils.module cfg api
                         (fun _ => scripted script) adaptStrapiArticle
                         addNavigationInfo) self w in
        let out2 := ContentManager.getSortedPosts cfg
                      (strapiContentUtils.module cfg api fetchAPI'
                         adaptStrapiArticle addNavigationInfo) self
                      (wait gap (snd out1)) in
        fst out1 = Ok posts'
        /\ calls (snd out1) = S (calls w)
        /\ JSMap.get "published-articles" (entries (snd out1))
           = Some (mkEntry (VResponse articles)
                     (clock w + snd (script (calls w)))
                     (defaultTTL (apiCache w)))
        /\ (JSMap.get (ContentManager.sortedPostsKey self) (entries w)
            = None ->
            JSMap.get (ContentManager.sortedPostsKey self)
              (entries (snd out1)) = None)
        /\ fst out2 = Ok posts'
        /\ calls (snd out2) = calls (snd out1)
        /\ entries (snd out2) = entries (snd out1)).
Proof.
  intros Huse En Hm.
  assert (Hrun : forall strapiUtils w,
    ContentManager.getSortedPosts cfg strapiUtils self w
    = ContentManager.fetchStrapiPosts cfg strapiUtils self w).
  { intros. unfold ContentManager.getSortedPosts,
      ContentManager.getStrapiPostsWithFallback. now rewrite Huse. }
  split.
  - intros strapiUtils w up out. subst out up.
    rewrite Hrun, fetchStrapiPosts_run.
    destruct (utils_getSortedPosts strapiUtils _) as [[posts|e] wu];
      cbn [fst snd logged apiCache calls]; auto.
  - intros script fetchAPI' w articles posts posts' gap Hexp Hok Hadapt Hnav
      Hgap. cbv zeta.
    set (w0 := logged (info_events cfg "正在从Strapi获取文章列表...") w).
    destruct (getPublishedArticles_resolves script w0 articles En Hm)
      as (w2 & Hget & Hc & Hk & Hdef & Hentry & Hother & Hal); auto.
    change (calls w0) with (calls w) in Hc, Hk, Hentry.
    change (clock w0) with (clock w) in Hk, Hentry.
    change (apiCache w0) with (apiCache w) in Hdef, Hentry.
    change (entries w0) with (entries w) in Hother.
    pose proof (upstream_sorted_of_response (fun _ => scripted script)
                  w0 w2 articles posts posts' Hget Hadapt Hnav) as Hup.
    assert (H1 : exists ev1,
      ContentManager.getSortedPosts cfg
        (strapiContentUtils.module cfg api (fun _ => scripted script)
           adaptStrapiArticle addNavigationInfo) self w
      = (Ok posts', logged ev1 w2)).
    { rewrite Hrun, fetchStrapiPosts_run. fold w0. rewrite Hup.
      eexists; reflexivity. }
    destruct H1 as (ev1 & ->). cbn [fst snd].
    set (w3 := wait gap (logged ev1 w2)).
    set (w4 := logged (info_events cfg "正在从Strapi获取文章列表...") w3).
    assert (Hhit : strapi.getPublishedArticles cfg api fetchAPI' w4
                   = (Ok (VResponse articles),
                      logged (info_events cfg
                                ("Cache hit for key: " ++ "published-articles"))
                        w4)).
    { unfold strapi.getPublishedArticles.
      change (generateCacheKey "published-articles" [])
        with "published-articles".
      apply (get_hit cfg "published-articles" _ None w4
               (mkEntry (VResponse articles)
                  (clock w + snd (script (calls w)))
                  (defaultTTL (apiCache w))) En).
      - exact Hentry.
      - unfold MemoryCache.fresh. cbn [timestamp ttl].
        change (clock w4) with (clock w2 + gap). rewrite Hk.
        apply Z.ltb_lt. lia. }
    pose proof (upstream_sorted_of_response fetchAPI' w4 _ articles posts
                  posts' Hhit Hadapt Hnav) as Hup2.
    rewrite Hrun, fetchStrapiPosts_run. fold w4. rewrite Hup2.
    cbn [fst snd calls logged wait].
    split; [reflexivity|]. split; [exact Hc|]. split; [exact Hentry|].
    split.
    + intros Hnone. apply Hother; [apply sortedPostsKey_not_published|].
      exact Hnone.
    + auto.
Qed.

End RepositoryUpstream.

Section BoundaryInsideThunk.
Variable cfg : Config.
Variable self : ContentManager.
Implicit Types (w : World Value) (strapiUtils : StrapiUtils).

(** X18.  With the repository's upstream ([strapi-content-utils] over
    [lib/strapi]) an HTTP outage never reaches the error boundary of the
    manager.  On a miss with no response in the cache, besides what the
    HTTP layer prints itself, the warnings and errors [getSortedPosts]
    prints are the warning of [retryWithBackoff] before each re-attempt
    and then the one [console.error] of [strapi-content-utils], carrying
    the error of the last of the [retries + 1] requests; it resolves to
    [[]].  For [getPostBySlug], which makes one request, they are the
    [console.error] of [strapi-content-utils] and the manager's
    not-found warning; it resolves to [null]. *)
Theorem upstream_failure_is_absorbed (api : ApiConfig)
  (adaptStrapiArticle : StrapiArticle -> Result PostEntry)
  (addNavigationInfo : list PostEntry -> M Value (list PostEntry))
  (script : nat -> Result Value * Z) slug w :
  useCache (options self) = true ->
  enableCache cfg = true ->
  let upstream := strapiContentUtils.module cfg api (fun _ => scripted script)
                    adaptStrapiArticle addNavigationInfo in
  (outage script ->
   (enableRetry api = true -> 0 <= retryAttempts api) ->
   (forall c, JSMap.get (ContentManager.sortedPostsKey self) (entries w)
              = Some c -> ttl c <= clock w - timestamp c) ->
   JSMap.get "published-articles" (entries w) = None ->
   let out := ContentManager.getSortedPosts cfg upstream self w in
   exists e,
     fst (script (calls w + retries api)%nat) = Throw e
     /\ fst out = Ok []
     /\ calls (snd out) = (calls w + retries api + 1)%nat
     /\ alerts (trace (snd out))
        = (alerts (trace w)
           ++ retry_warnings (retryBaseDelay api) 0 (retries api)
           ++ [Console LError "Error fetching posts from Strapi:"
                 (Some e)])%list)
  /\ (forall e,
        (forall c, JSMap.get (ContentManager.postBySlugKey self slug)
                     (entries w) = Some c ->
                   ttl c <= clock w - timestamp c) ->
        fst (script (calls w)) = Throw e ->
        let out := ContentManager.getPostBySlug cfg upstream self slug w in
        fst out = Ok VNull
        /\ calls (snd out) = S (calls w)
        /\ alerts (trace (snd out))
           = (alerts (trace w)
              ++ [Console LError
                    ("Error fetching post with slug " ++ slug
                       ++ " from Strapi:") (Some e);
                  Console LWarn ("⚠️ " ++ "未找到文章: " ++ slug) None])%list).
Proof.
  intros Huse En upstream. split.
  - intros Hout Hm Hexp Hpub out.
    destruct (sorted_posts_outage_cold cfg api self adaptStrapiArticle
                addNavigationInfo script w Huse En Hout Hm Hexp Hpub)
      as (e & He & H1 & H2 & _ & H4 & _).
    exists e. auto.
  - intros e Hexp He out.
    destruct (post_by_slug_outage cfg api self adaptStrapiArticle
                addNavigationInfo script slug w e Huse En Hexp He)
      as (H1 & H2 & _ & H4 & _).
    auto.
Qed.

(** C10 (the boundary is inside the thunk).  With the cache in use:
    (1) the thunks [fetchStrapiPosts] and [fetchStrapiPostBySlug] never
    throw, whatever the upstream does; (2) so on a miss (no entry, or an
    expired one) the manager's [get] always takes the branch that
    stores, never its stale-data branch: what the thunk resolved to is
    written under the query key with the time at which the thunk
    settled; (3) with the repository's upstream a failed fetch does not
    reach the boundary, and what is stored is not the boundary's
    fallback: (a) when every request fails and no response is cached,
    [getSortedPosts] resolves to [[]] and [[]] is stored, stamped anew,
    with the manager's ttl ([cacheTTL], or the default ttl of the cache
    when [cacheTTL] is 0), also over an expired entry; (b) when an
    expired response is still cached under [published-articles], the
    stale-data branch of the upstream's own [get] is taken on the way
    (its warning is printed) and the posts made from the stale response
    are returned and stored; (c) when the request of [getPostBySlug]
    fails, [null], not [undefined], is returned and stored; (4) while an
    entry of the manager is within its ttl, every query resolves to it
    and leaves the world as it is up to the log, whatever the upstream
    is: the upstream is not contacted. *)
Theorem boundary_inside_thunk :
  useCache (options self) = true ->
  enableCache cfg = true ->
  let ttl_opt := Some (cacheTTL (options self)) in
  (* 1 *)
  ((forall strapiUtils w,
       exists posts w',
         ContentManager.fetchStrapiPosts cfg strapiUtils self w
         = (Ok posts, w'))
   /\ (forall strapiUtils slug w,
         exists v w',
           ContentManager.fetchStrapiPostBySlug cfg strapiUtils slug w
           = (Ok v, w')))
  (* 2 *)
  /\ ((forall strapiUtils w,
         let key := ContentManager.sortedPostsKey self in
         (forall c, JSMap.get key (entries w) = Some c ->
                    ttl c <= clock w - timestamp c) ->
         exists posts w1,
           ContentManager.getSortedPosts cfg strapiUtils self w
           = (Ok posts,
              snd (MemoryCache.set cfg key (VPosts posts) ttl_opt w1))
           /\ JSMap.get key
                (entries (snd (MemoryCache.set cfg key (VPosts posts)
                                 ttl_opt w1)))
              = Some (entry_at w1 (VPosts posts) ttl_opt))
      /\ (forall strapiUtils slug w,
            let key := ContentManager.postBySlugKey self slug in
            (forall c, JSMap.get key (entries w) = Some c ->
                       ttl c <= clock w - timestamp c) ->
            exists v w1,
              ContentManager.getPostBySlug cfg strapiUtils self slug w
              = (Ok v, snd (MemoryCache.set cfg key v ttl_opt w1))
              /\ JSMap.get key
                   (entries (snd (MemoryCache.set cfg key v ttl_opt w1)))
                 = Some (entry_at w1 v ttl_opt)))
  (* 3 *)
  /\ (forall (api : ApiConfig)
             (adaptStrapiArticle : StrapiArticle -> Result PostEntry)
             (addNavigationInfo : list PostEntry -> M Value (list PostEntry))
             (script : nat -> Result Value * Z) w,
        let upstream := strapiContentUtils.module cfg api
                          (fun _ => scripted script) adaptStrapiArticle
                          addNavigationInfo in
        let stored_ttl := if cacheTTL (options self) =? 0
                          then defaultTTL (apiCache w)
                          else cacheTTL (options self) in
        (* a, b *)
        (outage script ->
         (enableRetry api = true -> 0 <= retryAttempts api) ->
         let key := ContentManager.sortedPostsKey self in
         (forall c, JSMap.get key (entries w) = Some c ->
                    ttl c <= clock w - timestamp c) ->
         let out := ContentManager.getSortedPosts cfg upstream self w in
         (JSMap.get "published-articles" (entries w) = None ->
          fst out = Ok []
          /\ calls (snd out) = (calls w + retries api + 1)%nat
          /\ JSMap.get key (entries (snd out))
             = Some (mkEntry (VPosts []) (clock (snd out)) stored_ttl)
          /\ exists evs, trace (snd out) = (trace w ++ evs)%list
                         /\ forall k, ~ In (stale_warning k) evs)
         /\ (forall c articles posts posts',
               JSMap.get "published-articles" (entries w) = Some c ->
               ttl c <= clock w - timestamp c ->
               data c = VResponse articles ->
               strapiUtils.adaptStrapiArticles StrapiArticle
                 adaptStrapiArticle articles = Ok posts ->
               (forall u, addNavigationInfo posts u = (Ok posts', u)) ->
               fst out = Ok posts'
               /\ calls (snd out) = (calls w + retries api + 1)%nat
               /\ JSMap.get key (entries (snd out))
                  = Some (mkEntry (VPosts posts') (clock (snd out))
                            stored_ttl)
               /\ exists evs,
                    trace (snd out) = (trace w ++ evs)%list
                    /\ In (stale_warning "published-articles") evs))
        (* c *)
        /\ (forall slug e,
              let key := ContentManager.postBySlugKey self slug in
              (forall c, JSMap.get key (entries w) = Some c ->
                         ttl c <= clock w - timestamp c) ->
              fst (script (calls w)) = Throw e ->
              let out := ContentManager.getPostBySlug cfg upstream self
                           slug w in
              fst out = Ok VNull
              /\ calls (snd out) = S (calls w)
              /\ JSMap.get key (entries (snd out))
                 = Some (mkEntry VNull (clock w + snd (script (calls w)))
                           stored_ttl)))
  (* 4 *)
  /\ ((forall strapiUtils w c posts,
         let key := ContentManager.sortedPostsKey self in
         JSMap.get key (entries w) = Some c ->
         data c = VPosts posts ->
         clock w - timestamp c < ttl c ->
         ContentManager.getSortedPosts cfg strapiUtils self w
         = (Ok posts, logged (info_events cfg ("Cache hit for key: " ++ key)) w))
      /\ (forall strapiUtils slug w c,
            let key := ContentManager.postBySlugKey self slug in
            JSMap.get key (entries w) = Some c ->
            clock w - timestamp c < ttl c ->
            ContentManager.getPostBySlug cfg strapiUtils self slug w
            = (Ok (data c),
               logged (info_events cfg ("Cache hit for key: " ++ key)) w))).
Proof.
  intros Huse En ttl_opt.
  assert (Hsorted : forall strapiUtils,
    ContentManager.getSortedPosts cfg strapiUtils self
    = (v <- MemoryCache.get cfg (ContentManager.sortedPostsKey self)
              (posts <- ContentManager.fetchStrapiPosts cfg strapiUtils self;;
               ret (VPosts posts)) ttl_opt;;
       ContentManager.as_posts v)).
  { intros. unfold ContentManager.getSortedPosts,
      ContentManager.getStrapiPostsWithFallback. now rewrite Huse. }
  assert (Hslug : forall strapiUtils slug,
    ContentManager.getPostBySlug cfg strapiUtils self slug
    = MemoryCache.get cfg (ContentManager.postBySlugKey self slug)
        (ContentManager.fetchStrapiPostBySlug cfg strapiUtils slug) ttl_opt).
  { intros. unfold ContentManager.getPostBySlug,
      ContentManager.getStrapiPostBySlugWithFallback. now rewrite Huse. }
  split; [|split; [|split]].
  - split.
    + apply fetchStrapiPosts_never_throws.
    + apply fetchStrapiPostBySlug_never_throws.
  - split.
    + intros strapiUtils w key Hexp.
      destruct (fetchStrapiPosts_never_throws cfg self strapiUtils
                  (logged (info_events cfg ("Cache miss for key: " ++ key)) w))
        as (posts & w1 & Hf).
      exists posts, w1. rewrite Hsorted. unfold bind at 1.
      destruct (get_miss_resolved cfg key
                  (posts <- ContentManager.fetchStrapiPosts cfg strapiUtils
                              self;; ret (VPosts posts))
                  ttl_opt w (VPosts posts) w1 En) as [Hg He].
      * intros c Hc. apply fresh_false_of_expired. now apply Hexp.
      * unfold bind. now rewrite Hf.
      * fold key. rewrite Hg. split; [reflexivity|exact He].
    + intros strapiUtils slug w key Hexp.
      destruct (fetchStrapiPostBySlug_never_throws cfg strapiUtils slug
                  (logged (info_events cfg ("Cache miss for key: " ++ key)) w))
        as (v & w1 & Hf).
      exists v, w1. rewrite Hslug.
      apply get_miss_resolved; auto.
      intros c Hc. apply fresh_false_of_expired. now apply Hexp.
  - intros api adaptStrapiArticle addNavigationInfo script w upstream
      stored_ttl.
    split.
    + intros Hout Hm key Hexp out. split.
      * intros Hpub.
        destruct (sorted_posts_outage_cold cfg api self adaptStrapiArticle
                    addNavigationInfo script w Huse En Hout Hm Hexp Hpub)
          as (e & He & H1 & H2 & H3 & H4 & evs & H5).
        split; [exact H1|]. split; [exact H2|]. split; [exact H3|].
        exists evs. split; [exact H5|].
        intros k Hin.
        assert (Hal : alerts evs
                      = (retry_warnings (retryBaseDelay api) 0 (retries api)
                         ++ [Console LError "Error fetching posts from Strapi:"
                               (Some e)])%list).
        { fold upstream in H4, H5. fold out in H4, H5.
          rewrite H5, alerts_app in H4. now apply app_inv_head in H4. }
        assert (Hin' : In (stale_warning k) (alerts evs)).
        { unfold alerts. apply filter_In. split; [exact Hin|reflexivity]. }
        rewrite Hal in Hin'. apply in_app_iff in Hin'.
        destruct Hin' as [Hin'|[Hin'|[]]]; [|discriminate Hin'].
        unfold retry_warnings in Hin'. apply in_map_iff in Hin'.
        destruct Hin' as (i & Heq & _). discriminate Heq.
      * intros c articles posts posts' Hpub Hold Hdata Hadapt Hnav.
        destruct (sorted_posts_outage_stale cfg api self adaptStrapiArticle
                    addNavigationInfo script w c articles posts posts'
                    Huse En Hout Hm Hexp Hpub Hold Hdata Hadapt Hnav)
          as (H1 & H2 & H3 & H4 & evs & H5).
        split; [exact H1|]. split; [exact H2|]. split; [exact H3|].
        exists evs. split; [exact H5|].
        assert (Hal : alerts evs
                      = (retry_warnings (retryBaseDelay api) 0 (retries api)
                         ++ [stale_warning "published-articles"])%list).
        { fold upstream in H4, H5. fold out in H4, H5.
          rewrite H5, alerts_app in H4. now apply app_inv_head in H4. }
        assert (Hin : In (stale_warning "published-articles") (alerts evs)).
        { rewrite Hal. apply in_app_iff. right. now left. }
        unfold alerts in Hin. now apply filter_In in Hin.
    + intros slug e key Hexp He out.
      destruct (post_by_slug_outage cfg api self adaptStrapiArticle
                  addNavigationInfo script slug w e Huse En Hexp He)
        as (H1 & H2 & H3 & _).
      auto.
  - split.
    + intros strapiUtils w c posts key Hc Hd Hlt. rewrite Hsorted.
      unfold bind. fold key.
      rewrite (get_hit cfg key _ ttl_opt w c En Hc)
        by (unfold MemoryCache.fresh; now apply Z.ltb_lt).
      rewrite Hd. reflexivity.
    + intros strapiUtils slug w c key Hc Hlt. rewrite Hslug. fold key.
      now rewrite (get_hit cfg key _ ttl_opt w c En Hc)
        by (unfold MemoryCache.fresh; now apply Z.ltb_lt).
Qed.

End BoundaryInsideThunk.

(* ================================================================== *)
(** * The further properties at concrete inputs                        *)
(* ================================================================== *)

Lemma set_then_get_witness :
  enableCache sample_config = true
  /\ 10 < ttl_or_default None (defaultTTL (apiCache empty_world))
  /\ fst (MemoryCache.get sample_config "a" (scripted resolves_7) None
            (wait 10 (snd (MemoryCache.set sample_config "a" 7%nat None
                             empty_world))))
     = Ok 7%nat.
Proof.
  split; [reflexivity|]. split; [reflexivity|].
  refine (proj1 (proj1 (set_then_get sample_config "a" 7%nat None None
                          resolves_7 10 empty_world eq_refl) _)).
  reflexivity.
Defined.

Lemma delete_removes_witness :
  distinct_keys full_world
  /\ fst (MemoryCache.delete sample_config "a" full_world) = Ok true
  /\ JSMap.get "a" (entries (snd (MemoryCache.delete sample_config "a"
                                    full_world))) = None.
Proof.
  assert (H : distinct_keys full_world).
  { repeat constructor; cbn; intuition discriminate. }
  split; [exact H|].
  destruct (delete_removes sample_config "a" full_world H) as (H1 & H2 & _).
  split; [exact H1|exact H2].
Defined.

Lemma cleanup_removes_expired_witness :
  distinct_keys expired_world
  /\ entries (snd (MemoryCache.cleanup sample_config expired_world)) = []
  /\ fst (MemoryCache.cleanup sample_config expired_world) = Ok 2.
Proof.
  assert (H : distinct_keys expired_world).
  { repeat constructor; cbn; intuition discriminate. }
  split; [exact H|].
  destruct (cleanup_removes_expired sample_config expired_world H)
    as (H1 & H2 & _).
  split; [exact H1|exact H2].
Defined.

Lemma keys_stay_distinct_witness :
  distinct_keys empty_world
  /\ distinct_keys
       (run_ops sample_config
          [OpSet "a" 1%nat None; OpSet "b" 2%nat None; OpSet "a" 3%nat None;
           OpGet "d" (Ok 4%nat) 5 None; OpCleanup; OpDelete "b"]
          empty_world).
Proof.
  assert (H : distinct_keys empty_world) by constructor.
  split; [exact H|].
  exact (keys_stay_distinct sample_config
           [OpSet "a" 1%nat None; OpSet "b" 2%nat None; OpSet "a" 3%nat None;
            OpGet "d" (Ok 4%nat) 5 None; OpCleanup; OpDelete "b"]
           empty_world H).
Defined.

Lemma clear_empties_witness :
  enableCache sample_config = true
  /\ entries (snd (MemoryCache.clear sample_config full_world)) = []
  /\ calls (snd (MemoryCache.get sample_config "a" (scripted resolves_7) None
                   (snd (MemoryCache.clear sample_config full_world))))
     = 1%nat.
Proof.
  split; [reflexivity|].
  destruct (clear_empties sample_config full_world)
    as (_ & H2 & _ & _ & _ & H6).
  split; [exact H2|].
  exact (H6 eq_refl "a" resolves_7 None).
Defined.

Lemma generateCacheKey_order_independent_witness :
  NoDup (map fst sample_params)
  /\ Permutation.Permutation sample_params sample_params_swapped
  /\ generateCacheKey "articles" sample_params
     = generateCacheKey "articles" sample_params_swapped.
Proof.
  assert (H1 : NoDup (map fst sample_params)).
  { repeat constructor; cbn; intuition discriminate. }
  assert (H2 : Permutation.Permutation sample_params sample_params_swapped)
    by apply Permutation.perm_swap.
  split; [exact H1|]. split; [exact H2|].
  exact (proj1 (generateCacheKey_order_independent "articles" sample_params
                  sample_params_swapped H1 H2)).
Defined.

Lemma flaky_then_7_fails (i : nat) :
  (i < 2)%nat ->
  exists e, fst (flaky_then_7 (calls empty_world + i)%nat) = Throw e
            /\ isAPIClientError e = false.
Proof.
  intros Hi. destruct i as [|[|i]]; [| |lia];
    (eexists; split; reflexivity).
Defined.

Lemma retry_until_decisive_witness :
  2 <= 3
  /\ decisive (fst (flaky_then_7 (calls empty_world + 2)%nat)) = true
  /\ fst (retryWithBackoff (scripted flaky_then_7) 3 100 empty_world)
     = Ok 7%nat
  /\ calls (snd (retryWithBackoff (scripted flaky_then_7) 3 100 empty_world))
     = 3%nat
  /\ timeouts (trace (snd (retryWithBackoff (scripted flaky_then_7) 3 100
                             empty_world)))
     = [100; 200].
Proof.
  split; [lia|]. split; [reflexivity|].
  refine (retry_until_decisive flaky_then_7 3 100 2 empty_world _
            flaky_then_7_fails eq_refl).
  cbn. lia.
Defined.

Lemma always_500_fails (i : nat) :
  exists e, fst (always_500 i) = Throw e /\ isAPIClientError e = false.
Proof. eexists; split; reflexivity. Defined.

Lemma retry_worst_case_time_witness :
  0 <= 3 /\ 0 <= 100
  /\ clock (snd (retryWithBackoff (scripted always_500) 3 100 empty_world))
     = 700
  /\ total (timeouts (trace (snd (retryWithBackoff (scripted always_500) 3 100
                                    empty_world))))
     = 700.
Proof.
  split; [lia|]. split; [lia|].
  refine (retry_worst_case_time always_500 3 100 empty_world _ _
            always_500_fails); lia.
Defined.

Lemma retry_negative_never_calls_witness :
  -1 < 0
  /\ retryWithBackoff (scripted resolves_7) (-1) 100 empty_world
     = (Throw ThrownUndefined, empty_world).
Proof.
  split; [lia|].
  refine (retry_negative_never_calls (scripted resolves_7) (-1) 100
            empty_world _).
  lia.
Defined.

Lemma pages_partition_witness :
  1 <= 1
  /\ exists n,
       page_totalPages (ContentManager.paginate 1 1 [post_a; post_b]) = Num n
       /\ 0 <= n
       /\ pages_from 1 [post_a; post_b] 1 (Z.to_nat n) = [post_a; post_b]
       /\ forall page, n < page ->
                       page_posts (ContentManager.paginate page 1
                                     [post_a; post_b]) = [].
Proof.
  split; [lia|].
  refine (pages_partition 1 [post_a; post_b] _). lia.
Defined.

Lemma search_empty_query_witness :
  (fun s : string => s) "" = ""
  /\ ContentManager.searchPosts (fun s => s) sample_config
       (mkUtils (scripted resolving_list) (fun _ => scripted resolving_post))
       sample_manager "" empty_content_world
     = ContentManager.getSortedPosts sample_config
         (mkUtils (scripted resolving_list) (fun _ => scripted resolving_post))
         sample_manager empty_content_world.
Proof.
  split; [reflexivity|].
  exact (search_empty_query (fun s => s) sample_config sample_manager
           (mkUtils (scripted resolving_list)
                    (fun _ => scripted resolving_post))
           empty_content_world eq_refl).
Defined.

Lemma sorted_posts_fetched_once_witness :
  useCache (options sample_manager) = true
  /\ enableCache sample_config = true
  /\ fst (resolving_list (calls empty_content_world)) = Ok [post_a; post_b]
  /\ 999 < ttl_or_default (Some (cacheTTL (options sample_manager)))
                          (defaultTTL (apiCache empty_content_world))
  /\ fst (ContentManager.getSortedPosts sample_config
            (mkUtils (scripted failing_list) (fun _ => scripted failing_post))
            sample_manager
            (wait 999
               (snd (ContentManager.getSortedPosts sample_config
                       (mkUtils (scripted resolving_list)
                                (fun _ => scripted resolving_post))
                       sample_manager empty_content_world))))
     = Ok [post_a; post_b]
  /\ calls (snd (ContentManager.getSortedPosts sample_config
                   (mkUtils (scripted failing_list)
                            (fun _ => scripted failing_post))
                   sample_manager
                   (wait 999
                      (snd (ContentManager.getSortedPosts sample_config
                              (mkUtils (scripted resolving_list)
                                       (fun _ => scripted resolving_post))
                              sample_manager empty_content_world)))))
     = 1%nat.
Proof.
  split; [reflexivity|]. split; [reflexivity|]. split; [reflexivity|].
  split; [reflexivity|].
  destruct (sorted_posts_fetched_once sample_config sample_manager
              resolving_list (fun _ => scripted resolving_post)
              (mkUtils (scripted failing_list)
                       (fun _ => scripted failing_post))
              [post_a; post_b] 999 empty_content_world eq_refl eq_refl)
    as (_ & _ & H3 & H4 & _).
  - intros c Hc. discriminate Hc.
  - reflexivity.
  - reflexivity.
  - split; [exact H3|exact H4].
Defined.

Lemma post_by_slug_fetched_once_witness :
  useCache (options sample_manager) = true
  /\ enableCache sample_config = true
  /\ fst (resolving_post (calls empty_content_world)) = Ok (Some post_a)
  /\ 999 < ttl_or_default (Some (cacheTTL (options sample_manager)))
                          (defaultTTL (apiCache empty_content_world))
  /\ fst (ContentManager.getPostBySlug sample_config
            (mkUtils (scripted failing_list) (fun _ => scripted failing_post))
            sample_manager "hello"
            (wait 999
               (snd (ContentManager.getPostBySlug sample_config
                       (mkUtils (scripted resolving_list)
                                (fun _ => scripted resolving_post))
                       sample_manager "hello" empty_content_world))))
     = Ok (VPost post_a)
  /\ calls (snd (ContentManager.getPostBySlug sample_config
                   (mkUtils (scripted failing_list)
                            (fun _ => scripted failing_post))
                   sample_manager "hello"
                   (wait 999
                      (snd (ContentManager.getPostBySlug sample_config
                              (mkUtils (scripted resolving_list)
                                       (fun _ => scripted resolving_post))
                              sample_manager "hello" empty_content_world)))))
     = 1%nat.
Proof.
  split; [reflexivity|]. split; [reflexivity|]. split; [reflexivity|].
  split; [reflexivity|].
  destruct (post_by_slug_fetched_once sample_config sample_manager
              resolving_post (scripted resolving_list)
              (mkUtils (scripted failing_list)
                       (fun _ => scripted failing_post))
              "hello" (Some post_a) 999 empty_content_world eq_refl eq_refl)
    as (_ & _ & H3 & H4 & _).
  - intros c Hc. discriminate Hc.
  - reflexivity.
  - reflexivity.
  - split; [exact H3|exact H4].
Defined.

Lemma strapi_utils_never_reject_witness :
  scripted failing_articles empty_content_world
  = (Throw (NetworkError "fetch failed"),
     called failing_articles empty_content_world)
  /\ strapiUtils.getSortedPosts nat (scripted failing_articles)
       sample_adapt sample_navigation empty_content_world
     = (Ok [],
        logged [Console LError "Error fetching posts from Strapi:"
                  (Some (NetworkError "fetch failed"))]
          (called failing_articles empty_content_world))
  /\ strapiUtils.getPostBySlug nat (fun _ => scripted failing_articles)
       sample_adapt "hello" empty_content_world
     = (Ok None,
        logged [Console LError
                  ("Error fetching post with slug " ++ "hello"
                     ++ " from Strapi:")
                  (Some (NetworkError "fetch failed"))]
          (called failing_articles empty_content_world)).
Proof.
  split; [reflexivity|].
  destruct (strapi_utils_never_reject nat sample_adapt sample_navigation
              (scripted failing_articles) (fun _ => scripted failing_articles)
              "hello" empty_content_world) as (_ & _ & H3 & H4 & _).
  split.
  - exact (H3 _ _ eq_refl).
  - exact (H4 _ _ eq_refl).
Defined.

Lemma strapi_calls_retry_then_cache_witness :
  enableCache sample_config = true
  /\ enableRetry sample_api = true
  /\ 2 <= retryAttempts sample_api
  /\ fst (flaky_then_7 (calls empty_world + 2)%nat) = Ok 7%nat
  /\ 5000 < ttl_or_default (Some (contentTtl_categories sample_api))
                           (defaultTTL (apiCache empty_world))
  /\ fst (strapi.getArticlesByCategory sample_config sample_api
            (fun _ => scripted flaky_then_7) "tech" empty_world) = Ok 7%nat
  /\ calls (snd (strapi.getArticlesByCategory sample_config sample_api
                   (fun _ => scripted flaky_then_7) "tech" empty_world))
     = 3%nat
  /\ fst (strapi.getAllCategories sample_config sample_api
            (fun _ => scripted always_500)
            (wait 5000
               (snd (strapi.getAllCategories sample_config sample_api
                       (fun _ => scripted flaky_then_7) empty_world))))
     = Ok 7%nat.
Proof.
  split; [reflexivity|]. split; [reflexivity|]. split; [cbn; lia|].
  split; [reflexivity|]. split; [reflexivity|].
  destruct (strapi_calls_retry_then_cache sample_config sample_api
              flaky_then_7 (fun _ => scripted always_500) "tech" 2 7%nat 5000
              empty_world eq_refl eq_refl) as (H1 & H2).
  - cbn. lia.
  - exact flaky_then_7_fails.
  - reflexivity.
  - reflexivity.
  - destruct H1 as (A1 & A2 & _); [intros c Hc; discriminate Hc|].
    destruct H2 as (_ & _ & _ & B4 & _); [intros c Hc; discriminate Hc|].
    split; [exact A1|]. split; [exact A2|exact B4].
Defined.

Lemma category_articles_outage_witness :
  enableCache sample_config = true
  /\ enableRetry sample_api = true
  /\ 0 <= retryAttempts sample_api
  /\ JSMap.get "category-articles-tech" (entries stale_category_world)
     = Some (mkEntry 1%nat 0 1000)
  /\ calls (snd (strapi.getArticlesByCategory sample_config sample_api
                   (fun _ => scripted always_500) "tech"
                   stale_category_world)) = 4%nat
  /\ fst (strapi.getArticlesByCategory sample_config sample_api
            (fun _ => scripted always_500) "tech" stale_category_world)
     = Ok 1%nat.
Proof.
  split; [reflexivity|]. split; [reflexivity|]. split; [cbn; lia|].
  split; [reflexivity|].
  destruct (category_articles_outage sample_config sample_api always_500
              "tech" stale_category_world eq_refl eq_refl)
    as (H1 & _ & H3 & _).
  - cbn. lia.
  - intros c Hc. injection Hc as <-. cbn. lia.
  - exact always_500_fails.
  - split; [exact H1|]. exact (proj1 (H3 _ eq_refl)).
Defined.

Lemma hybrid_readers_cold_witness :
  (forall c, JSMap.get (ContentManager.sortedPostsKey sample_manager)
               (entries empty_content_world) = Some c ->
             ttl c <= clock empty_content_world - timestamp c)
  /\ fst (hybrid.getTagList sample_config
            (mkUtils (scripted resolving_list)
                     (fun _ => scripted resolving_post))
            sample_manager empty_content_world)
     = Ok [mkTag "news" 1; mkTag "rocq" 1]
  /\ fst (hybrid.getAllPostSlugs sample_config
            (mkUtils (scripted failing_list) (fun _ => scripted failing_post))
            sample_manager empty_content_world)
     = Ok [].
Proof.
  assert (H : forall c,
             JSMap.get (ContentManager.sortedPostsKey sample_manager)
               (entries empty_content_world) = Some c ->
             ttl c <= clock empty_content_world - timestamp c)
    by (intros c Hc; discriminate Hc).
  split; [exact H|]. split.
  - exact (proj1 (proj2 (proj2
             (hybrid_readers_cold sample_config sample_manager resolving_list
                (fun _ => scripted resolving_post) empty_content_world
                (fun _ _ => H))))).
  - exact (proj1 (proj1 (proj2
             (hybrid_readers_cold sample_config sample_manager failing_list
                (fun _ => scripted failing_post) empty_content_world
                (fun _ _ => H))))).
Defined.

Lemma hybrid_readers_warm_witness :
  useCache (options sample_manager) = true
  /\ enableCache sample_config = true
  /\ JSMap.get (ContentManager.sortedPostsKey sample_manager)
       (entries warm_content_world)
     = Some (mkEntry (VPosts [post_a; post_b]) 0 1000)
  /\ clock warm_content_world - 0 < 1000
  /\ fst (hybrid.getSortedPosts sample_config
            (mkUtils (scripted failing_list) (fun _ => scripted failing_post))
            sample_manager warm_content_world)
     = Ok [post_a; post_b]
  /\ calls (snd (hybrid.getTagList sample_config
                   (mkUtils (scripted failing_list)
                            (fun _ => scripted failing_post))
                   sample_manager warm_content_world))
     = 0%nat.
Proof.
  split; [reflexivity|]. split; [reflexivity|]. split; [reflexivity|].
  split; [reflexivity|].
  destruct (hybrid_readers_warm sample_config sample_manager
              (mkUtils (scripted failing_list)
                       (fun _ => scripted failing_post))
              (mkEntry (VPosts [post_a; post_b]) 0 1000) [post_a; post_b]
              warm_content_world eq_refl eq_refl eq_refl)
    as ((H1 & _) & _ & (_ & H2)).
  - reflexivity.
  - reflexivity.
  - split; [exact H1|exact H2].
Defined.

Lemma http_down_outage : outage http_down.
Proof. intros i. eexists. split; reflexivity. Defined.

(** C10, as stated, fails on the program as it is linked.  With the
    HTTP layer down, [getPostBySlug] resolves to [null] and stores
    [null], not [undefined]; and with an expired response in the cache,
    [getSortedPosts] prints the stale warning and resolves to the post
    made from the stale response, which it stores. *)
Lemma outage_stores_null_and_serves_stale :
  let upstream := strapiContentUtils.module sample_config sample_api
                    (fun _ => scripted http_down) sample_adaptStrapiArticle
                    sample_navigation in
  let by_slug := ContentManager.getPostBySlug sample_config upstream
                   sample_manager "hello" empty_content_world in
  let sorted := ContentManager.getSortedPosts sample_config upstream
                  sample_manager stale_published_world in
  fst by_slug = Ok VNull
  /\ JSMap.get (ContentManager.postBySlugKey sample_manager "hello")
       (entries (snd by_slug))
     = Some (mkEntry VNull 30 1000)
  /\ fst sorted
     = Ok [mkPost "strapi-1" "hello" None
             (PostData.mk "Hello" (Some []) (Some ""))]
  /\ calls (snd sorted) = 4%nat
  /\ In (stale_warning "published-articles") (trace (snd sorted))
  /\ JSMap.get (ContentManager.sortedPostsKey sample_manager)
       (entries (snd sorted))
     = Some (mkEntry (VPosts [mkPost "strapi-1" "hello" None
                                (PostData.mk "Hello" (Some []) (Some ""))])
               2320 1000).
Proof. vm_compute. repeat split. tauto. Qed.

Lemma withErrorBoundary_fallback_witness :
  withErrorBoundary (scripted always_401) 0%nat (Some "fetchStrapiPosts")
    empty_world
  = (Ok 0%nat,
     logged
       [Console LWarn
          "🔐 Authentication failed in fetchStrapiPosts: Unauthorized" None;
        Console LWarn
          "💡 This is expected in development when Strapi is not running or API token is not configured"
          None]
       (called always_401 empty_world))
  /\ withErrorBoundary (scripted always_500) 0%nat None empty_world
     = (Ok 0%nat,
        logged
          [Console LError "❌ Error in unknown context:"
             (Some (APIError "Internal Server Error" 500 (Some "/articles")));
           Console LError "API Error - Status: 500, Endpoint: /articles" None]
          (called always_500 empty_world)).
Proof.
  split.
  - exact (proj1 (proj2 (proj2 (proj2
             (withErrorBoundary_fallback (scripted always_401) 0%nat
                (Some "fetchStrapiPosts") empty_world))))
             "Unauthorized" (Some "/articles") eq_refl).
  - exact (proj1 (withErrorBoundary_fallback (scripted always_500) 0%nat None
                    empty_world)).
Defined.

Lemma boundary_inside_thunk_witness :
  useCache (options sample_manager_5s) = true
  /\ enableCache sample_config = true
  /\ outage http_down
  /\ (let upstream := strapiContentUtils.module sample_config sample_api
                        (fun _ => scripted http_down)
                        sample_adaptStrapiArticle sample_navigation in
      let sorted := ContentManager.getSortedPosts sample_config upstream
                      sample_manager_5s empty_content_world in
      let stale := ContentManager.getSortedPosts sample_config upstream
                     sample_manager_5s stale_published_world in
      let by_slug := ContentManager.getPostBySlug sample_config upstream
                       sample_manager_5s "hello" empty_content_world in
      fst sorted = Ok []
      /\ JSMap.get (ContentManager.sortedPostsKey sample_manager_5s)
           (entries (snd sorted))
         = Some (mkEntry (VPosts []) 820 5000)
      /\ fst stale
         = Ok [mkPost "strapi-1" "hello" None
                 (PostData.mk "Hello" (Some []) (Some ""))]
      /\ fst by_slug = Ok VNull
      /\ JSMap.get (ContentManager.postBySlugKey sample_manager_5s "hello")
           (entries (snd by_slug))
         = Some (mkEntry VNull 30 5000)).
Proof.
  split; [reflexivity|]. split; [reflexivity|].
  split; [exact http_down_outage|].
  destruct (proj1 (proj2 (proj2
              (boundary_inside_thunk sample_config sample_manager_5s
                 eq_refl eq_refl)))
              sample_api sample_adaptStrapiArticle sample_navigation
              http_down empty_content_world) as (Hposts & Hslug).
  destruct (proj1 (proj2 (proj2
              (boundary_inside_thunk sample_config sample_manager_5s
                 eq_refl eq_refl)))
              sample_api sample_adaptStrapiArticle sample_navigation
              http_down stale_published_world) as (Hstale & _).
  destruct Hposts as (Hcold & _).
  - exact http_down_outage.
  - intros _. cbn. lia.
  - intros c Hc. discriminate Hc.
  - destruct Hcold as (H1 & _ & H3 & _); [reflexivity|].
    destruct Hstale as (_ & Hst).
    + exact http_down_outage.
    + intros _. cbn. lia.
    + intros c Hc. discriminate Hc.
    + destruct (Hst (mkEntry (VResponse [article_a]) 0 1000) [article_a]
                  [mkPost "strapi-1" "hello" None
                     (PostData.mk "Hello" (Some []) (Some ""))]
                  [mkPost "strapi-1" "hello" None
                     (PostData.mk "Hello" (Some []) (Some ""))]
                  eq_refl) as (S1 & _).
      * cbn. lia.
      * reflexivity.
      * reflexivity.
      * intros u. reflexivity.
      * destruct (Hslug "hello" (NetworkError "Network error: fetch failed"))
          as (P1 & _ & P3).
        -- intros c Hc. discriminate Hc.
        -- reflexivity.
        -- cbv zeta. split; [exact H1|]. split; [exact H3|].
           split; [exact S1|]. split; [exact P1|exact P3].
Defined.

Lemma sorted_posts_uncached_witness :
  useCache (options (ContentManager.new sample_config
                       (mkOptions (Some false) None None))) = false
  /\ enableCache sample_config = true
  /\ fst (http_up (calls empty_content_world)) = Ok (VResponse [article_a])
  /\ 999 < defaultTTL (apiCache empty_content_world)
  /\ (let manager := ContentManager.new sample_config
                       (mkOptions (Some false) None None) in
      let out1 := ContentManager.getSortedPosts sample_config
                    (strapiContentUtils.module sample_config sample_api
                       (fun _ => scripted http_up) sample_adaptStrapiArticle
                       sample_navigation) manager empty_content_world in
      let out2 := ContentManager.getSortedPosts sample_config
                    (strapiContentUtils.module sample_config sample_api
                       (fun _ => scripted http_down)
                       sample_adaptStrapiArticle sample_navigation) manager
                    (wait 999 (snd out1)) in
      JSMap.keys (entries (snd out1)) = ["published-articles"]
      /\ calls (snd out1) = 1%nat
      /\ fst out2
         = Ok [mkPost "strapi-1" "hello" None
                 (PostData.mk "Hello" (Some []) (Some ""))]
      /\ calls (snd out2) = 1%nat).
Proof.
  split; [reflexivity|]. split; [reflexivity|]. split; [reflexivity|].
  split; [reflexivity|].
  destruct (proj2 (sorted_posts_uncached sample_config sample_api
                     (ContentManager.new sample_config
                        (mkOptions (Some false) None None))
                     sample_adaptStrapiArticle sample_navigation
                     eq_refl eq_refl (fun _ => ltac:(cbn; lia)))
              http_up (fun _ => scripted http_down) empty_content_world
              [article_a]
              [mkPost "strapi-1" "hello" None
                 (PostData.mk "Hello" (Some []) (Some ""))]
              [mkPost "strapi-1" "hello" None
                 (PostData.mk "Hello" (Some []) (Some ""))] 999)
    as (_ & H2 & _ & _ & H5 & H6 & _).
  - intros c Hc. discriminate Hc.
  - reflexivity.
  - reflexivity.
  - intros u. reflexivity.
  - reflexivity.
  - cbv zeta. split; [reflexivity|]. split; [exact H2|].
    split; [exact H5|]. rewrite H6. exact H2.
Defined.

Lemma upstream_failure_is_absorbed_witness :
  useCache (options sample_manager) = true
  /\ enableCache sample_config = true
  /\ outage http_down
  /\ (let upstream := strapiContentUtils.module sample_config sample_api
                        (fun _ => scripted http_down)
                        sample_adaptStrapiArticle sample_navigation in
      let sorted := ContentManager.getSortedPosts sample_config upstream
                      sample_manager empty_content_world in
      let by_slug := ContentManager.getPostBySlug sample_config upstream
                       sample_manager "hello" empty_content_world in
      calls (snd sorted) = 4%nat
      /\ alerts (trace (snd sorted))
         = [Console LWarn "Attempt 1 failed, retrying in 100ms..." None;
            Console LWarn "Attempt 2 failed, retrying in 200ms..." None;
            Console LWarn "Attempt 3 failed, retrying in 400ms..." None;
            Console LError "Error fetching posts from Strapi:"
              (Some (NetworkError "Network error: fetch failed"))]
      /\ fst by_slug = Ok VNull
      /\ alerts (trace (snd by_slug))
         = [Console LError
              "Error fetching post with slug hello from Strapi:"
              (Some (NetworkError "Network error: fetch failed"));
            Console LWarn "⚠️ 未找到文章: hello" None]).
Proof.
  split; [reflexivity|]. split; [reflexivity|].
  split; [exact http_down_outage|].
  destruct (upstream_failure_is_absorbed sample_config sample_manager
              sample_api sample_adaptStrapiArticle sample_navigation
              http_down "hello" empty_content_world eq_refl eq_refl)
    as (Hposts & Hslug).
  destruct Hposts as (e & He & _ & H2 & H3).
  - exact http_down_outage.
  - intros _. cbn. lia.
  - intros c Hc. discriminate Hc.
  - reflexivity.
  - destruct (Hslug (NetworkError "Network error: fetch failed"))
      as (P1 & _ & P3).
    + intros c Hc. discriminate Hc.
    + reflexivity.
    + injection He as <-.
      cbv zeta. split; [exact H2|]. split; [exact H3|].
      split; [exact P1|exact P3].
Defined.
